(** * Dependency-security tooling of GlossiaApp: a shallow embedding

    The development follows three scripts of the repository:
    - [scripts/security/dependency-manager.mjs]
      (modules [DependencyManager] and [SecurityReport]),
    - [scripts/security/aikido-branch-manager.mjs]
      (modules [BranchManager] and [BranchMenu]),
    - [scripts/security/interactive-aikido-manager.mjs]
      (modules [InteractiveManager] and [Dashboard]).

    Pure functions of the scripts are Rocq functions.  Code that talks to
    the outside (child processes, the file system, the operator's
    keyboard, the console) is written in a small state monad over an
    explicit world that records every effect in a trace. *)

From Stdlib Require Import ZArith Lia Ascii String Sorted.
From stdpp Require Import base strings list gmap fin_maps.

Local Open Scope string_scope.

(** ** JavaScript helpers shared by the three scripts *)

Module JS.

(** Names that every plain object (an object literal, an object built by
    [JSON.parse]) inherits from [Object.prototype] in Node.js.  Reading
    [o[k]] for such a [k] that is not an own property of [o] yields a
    function (or, for [__proto__], the prototype object): a truthy value
    that is neither a string nor a number. *)
Definition object_prototype_keys : list string :=
  [ "constructor"; "__defineGetter__"; "__defineSetter__"; "hasOwnProperty";
    "__lookupGetter__"; "__lookupSetter__"; "isPrototypeOf";
    "propertyIsEnumerable"; "toString"; "valueOf"; "__proto__";
    "toLocaleString" ].

Definition inherited (k : string) : bool :=
  bool_decide (k ∈ object_prototype_keys).

(** The result of the property read [o[k]] on a plain object whose own
    properties hold values of type [A]. *)
Inductive value (A : Type) : Type :=
| Own (a : A)      (* an own property *)
| Proto            (* a member inherited from Object.prototype *)
| Undefined.       (* no such property *)

Arguments Own {A} a.
Arguments Proto {A}.
Arguments Undefined {A}.

(** [o[k]] : own properties shadow the prototype. *)
Definition get {A : Type} (o : gmap string A) (k : string) : value A :=
  match o !! k with
  | Some a => Own a
  | None => if inherited k then Proto else Undefined
  end.

(** [o[k] = v] for a value [v] that is not an object.  An own property is
    overwritten; otherwise the assignment creates one, except for
    [__proto__], whose inherited setter ignores a primitive value. *)
Definition set {A : Type} (o : gmap string A) (k : string) (v : A) : gmap string A :=
  match o !! k with
  | Some _ => <[k := v]> o
  | None => if String.eqb k "__proto__" then o else <[k := v]> o
  end.

(** Truthiness of a string and of a number. *)
Definition truthy_string (s : string) : bool := negb (String.eqb s "").
Definition truthy_Z (n : Z) : bool := negb (Z.eqb n 0).

Definition truthy_value {A : Type} (t : A -> bool) (v : value A) : bool :=
  match v with
  | Own a => t a
  | Proto => true
  | Undefined => false
  end.

(** An optional string field [f] used as a condition. *)
Definition truthy_field (f : option string) : bool :=
  match f with
  | Some s => truthy_string s
  | None => false
  end.

(** [f || d] for an optional string field [f]. *)
Definition or_default (f : option string) (d : string) : string :=
  match f with
  | Some s => if truthy_string s then s else d
  | None => d
  end.

(** [hay.includes(needle)]. *)
Fixpoint includes (hay needle : string) : bool :=
  String.prefix needle hay ||
  match hay with
  | EmptyString => false
  | String _ rest => includes rest needle
  end.

(** [arr.includes(x)] on an array of strings (strict equality). *)
Definition array_includes (arr : list string) (x : string) : bool :=
  existsb (String.eqb x) arr.

(** [s.replace(pat, by)] with a string pattern: the first occurrence only. *)
Fixpoint replace (s pat by_ : string) : string :=
  if String.prefix pat s
  then by_ ++ String.substring (String.length pat) (String.length s - String.length pat) s
  else match s with
       | EmptyString => EmptyString
       | String c rest => String c (replace rest pat by_)
       end.

(** A [string] holds the UTF-8 encoding of a JavaScript string, which is
    what Node.js exchanges with the terminal, with a child process and
    with a file.  Searching, splitting and comparing act on the bytes as
    they act on the characters.

    White space, as [trim] removes it and [parseInt] skips it: the
    characters TAB, LF, VT, FF, CR and SP, whose encoding is one byte
    ([is_space]); U+00A0, whose encoding is the two bytes C2 A0
    ([is_space2]); and U+1680, U+2000 to U+200A, U+2028, U+2029, U+202F,
    U+205F, U+3000 and U+FEFF, whose encoding has three bytes
    ([is_space3]). *)
Definition is_space (c : ascii) : bool :=
  let n := nat_of_ascii c in
  (n =? 32)%nat || ((9 <=? n)%nat && (n <=? 13)%nat).

Definition is_space2 (c1 c2 : ascii) : bool :=
  (nat_of_ascii c1 =? 194)%nat && (nat_of_ascii c2 =? 160)%nat.

Definition is_space3 (c1 c2 c3 : ascii) : bool :=
  let n1 := nat_of_ascii c1 in
  let n2 := nat_of_ascii c2 in
  let n3 := nat_of_ascii c3 in
  ((n1 =? 225)%nat && (n2 =? 154)%nat && (n3 =? 128)%nat)
  || ((n1 =? 226)%nat && (n2 =? 128)%nat
      && (((128 <=? n3)%nat && (n3 <=? 138)%nat)
          || (n3 =? 168)%nat || (n3 =? 169)%nat || (n3 =? 175)%nat))
  || ((n1 =? 226)%nat && (n2 =? 129)%nat && (n3 =? 159)%nat)
  || ((n1 =? 227)%nat && (n2 =? 128)%nat && (n3 =? 128)%nat)
  || ((n1 =? 239)%nat && (n2 =? 187)%nat && (n3 =? 191)%nat).

Fixpoint trim_start (s : string) : string :=
  match s with
  | String c1 rest1 =>
      if is_space c1 then trim_start rest1
      else
        match rest1 with
        | String c2 rest2 =>
            if is_space2 c1 c2 then trim_start rest2
            else
              match rest2 with
              | String c3 rest3 => if is_space3 c1 c2 c3 then trim_start rest3 else s
              | EmptyString => s
              end
        | EmptyString => s
        end
  | EmptyString => EmptyString
  end.

(** The longest suffix made of white space is cut off: the result ends
    where what is left of the string is white space only. *)
Fixpoint trim_end (s : string) : string :=
  match s with
  | EmptyString => EmptyString
  | String c rest =>
      match trim_start s with
      | EmptyString => EmptyString
      | String _ _ => String c (trim_end rest)
      end
  end.

Definition trim (s : string) : string := trim_end (trim_start s).

(** [s.split('\n')]. *)
Fixpoint split_lines_go (cur : string) (s : string) : list string :=
  match s with
  | EmptyString => [String.rev cur]
  | String c rest =>
      if (nat_of_ascii c =? 10)%nat
      then String.rev cur :: split_lines_go EmptyString rest
      else split_lines_go (String c cur) rest
  end.

Definition split_lines (s : string) : list string := split_lines_go EmptyString s.

Definition to_lower_ascii (c : ascii) : ascii :=
  let n := nat_of_ascii c in
  if ((65 <=? n)%nat && (n <=? 90)%nat)%bool then ascii_of_nat (n + 32) else c.

(** [s.toLowerCase()]: the letters [A] to [Z] are lowered; letters
    outside ASCII are left as they are. *)
Fixpoint toLowerCase (s : string) : string :=
  match s with
  | EmptyString => EmptyString
  | String c rest => String (to_lower_ascii c) (toLowerCase rest)
  end.

(** What [execSync] of [child_process] does with a command: it returns the
    standard output of a process that exits with code 0, and throws
    otherwise, both for a process that could not be launched
    ([status = None]) and for one that exits with a non-zero code (the
    error then carries the exit code and what the process printed). *)
Inductive ExecOutcome : Type :=
| Returned (stdout : string)
| Threw (message : string) (status : option Z) (stdout : string).

End JS.

(** ** scripts/security/dependency-manager.mjs *)

Module DependencyManager.

(** *** Data *)

(** The [created] field of a raw vulnerability record, as the expression
    [vulnData.created ? new Date(vulnData.created) : new Date()] sees it:
    absent (or falsy), a date whose time value is [t] milliseconds, or a
    truthy value that [Date] cannot read (time value NaN). *)
Inductive Created : Type :=
| NoCreated
| CreatedAt (t : Z)
| CreatedInvalid.

(** A raw vulnerability record, one value of the [vulnerabilities] object
    of the audit report.  Every field is optional. *)
Module VulnData.
Record t : Type := mk {
  id : option string;
  severity : option string;
  created : Created;
  title : option string;
  module_name : option string;
  vulnerable_versions : option string;
  patched_versions : option string;
  url : option string;
  via : option string
}.
End VulnData.

(** One value of the object printed by [npm outdated --json]. *)
Module OutdatedInfo.
Record t : Type := mk {
  current : option string;
  wanted : option string;
  latest : option string
}.
End OutdatedInfo.

(** An object used as a map is given by its entries in the order
    [Object.entries] enumerates them; [Object.values] and [Object.keys]
    are the projections. *)
Definition Vulns : Type := list (string * VulnData.t).
Definition Outdated : Type := list (string * OutdatedInfo.t).

(** [SECURITY_CONFIG] *)
Definition SECURITY_CONFIG_maxAge : gmap string Z :=
  <["critical" := 7%Z]> (<["high" := 30%Z]> (<["moderate" := 90%Z]> (<["low" := 365%Z]> ∅))).

Definition SECURITY_CONFIG_autoUpdateLevels : list string := ["critical"; "high"].

(** The record [analyzeVulnerability] returns. *)
Module Analysis.
Record t : Type := mk {
  id : option string;
  severity : string;
  ageInDays : option Z;          (* [None] is NaN *)
  maxAge : JS.value Z;
  isStale : bool;
  shouldAutoUpdate : bool;
  title : string;
  module : string;
  versions : string;
  patched : string;
  url : option string
}.
End Analysis.

Definition MS_PER_DAY : Z := (1000 * 60 * 60 * 24)%Z.

(** [a || b] where [a] is a property read on a table of non-zero numbers. *)
Definition or_value (a b : JS.value Z) : JS.value Z :=
  if JS.truthy_value JS.truthy_Z a then a else b.

(** [ageInDays > maxAge]: a comparison with NaN, or with an object that
    converts to NaN, is false. *)
Definition js_gt (age : option Z) (ceiling : JS.value Z) : bool :=
  match age, ceiling with
  | Some a, JS.Own c => (c <? a)%Z
  | _, _ => false
  end.

Section Analyzer.

(** The clock: [Date.now()], in milliseconds.  The two readings of the
    clock inside one call of [analyzeVulnerability] are taken to agree. *)
Variable now : Z.

Definition getTime (c : Created) : option Z :=
  match c with
  | NoCreated => Some now
  | CreatedAt t => Some t
  | CreatedInvalid => None
  end.

Definition analyzeVulnerability (vulnId : option string) (vulnData : VulnData.t) : Analysis.t :=
  let severity := JS.or_default (VulnData.severity vulnData) "unknown" in
  let ageInDays :=
    match getTime (VulnData.created vulnData) with
    | Some t => Some ((now - t) / MS_PER_DAY)%Z
    | None => None
    end in
  let maxAge :=
    or_value (JS.get SECURITY_CONFIG_maxAge severity)
             (JS.get SECURITY_CONFIG_maxAge "low") in
  let isStale := js_gt ageInDays maxAge in
  let shouldAutoUpdate := JS.array_includes SECURITY_CONFIG_autoUpdateLevels severity in
  {| Analysis.id := vulnId;
     Analysis.severity := severity;
     Analysis.ageInDays := ageInDays;
     Analysis.maxAge := maxAge;
     Analysis.isStale := isStale;
     Analysis.shouldAutoUpdate := shouldAutoUpdate;
     Analysis.title := JS.or_default (VulnData.title vulnData) "Unknown vulnerability";
     Analysis.module := JS.or_default (VulnData.module_name vulnData) "unknown";
     Analysis.versions := JS.or_default (VulnData.vulnerable_versions vulnData) "unknown";
     Analysis.patched := JS.or_default (VulnData.patched_versions vulnData) "none";
     Analysis.url :=
       if JS.truthy_field (VulnData.url vulnData) then VulnData.url vulnData else None |}.

(** The [switch] on the severity inside [calculateSecurityScore]. *)
Definition severity_deduction (severity : string) : Z :=
  if String.eqb severity "critical" then 25
  else if String.eqb severity "high" then 15
  else if String.eqb severity "moderate" then 8
  else if String.eqb severity "low" then 3
  else 0.

(** The body of the [forEach] callback: the score after one vulnerability. *)
Definition score_vuln (score : Z) (vuln : VulnData.t) : Z :=
  let analysis := analyzeVulnerability (VulnData.id vuln) vuln in
  let score := (score - severity_deduction (Analysis.severity analysis))%Z in
  if Analysis.isStale analysis then (score - 10)%Z else score.

(** [Math.round] is the identity on the integers the score runs over. *)
Definition calculateSecurityScore (vulns : Vulns) (outdated : Outdated) : Z :=
  let score := fold_left score_vuln (map snd vulns) 100%Z in
  let outdatedCount := Z.of_nat (length (map fst outdated)) in
  let score := (score - Z.min (outdatedCount * 2) 30)%Z in
  Z.max 0 score.

End Analyzer.

(** *** The world the script runs in *)

(** A manifest ([package.json] after [JSON.parse]): the two dependency maps
    the script reads and rewrites.  The other fields of the file are
    carried along untouched by the script and are left out. *)
Module Manifest.
Record t : Type := mk {
  dependencies : option (gmap string string);
  devDependencies : option (gmap string string)
}.
End Manifest.

(** Effects on the outside that the script performs. *)
Inductive Effect : Type :=
| WriteFile (path : string) (content : Manifest.t)    (* a call of fs.writeFileSync *)
| Exec (command cwd : string).                         (* execSync *)

(** Lines of [console.warn] and [console.error].  Progress lines printed
    with [console.log] are not modelled. *)
Inductive ConsoleLine : Type :=
| WarnAuditFailed (packageDir : string) (error : option string)
| WarnAuditUnparsable (packageDir : string)
| WarnOutdatedUnparsable (packageDir : string)
| WarnNoPackageJson (packageDir : string)
| ErrorWriteFailed (filePath : string)
| ErrorInstallFailed (error : option string).

Record World : Type := mkWorld {
  fs : gmap string Manifest.t;     (* the manifests on disk, by path *)
  answers : nat -> string;         (* the lines the operator types *)
  asked : nat;                     (* how many of them were read *)
  effects : list Effect;           (* oldest first *)
  testLog : list string;           (* the [testLog] array *)
  console : list ConsoleLine
}.

Definition M (A : Type) : Type := World -> A * World.

Definition ret {A : Type} (a : A) : M A := fun w => (a, w).

Definition bind {A B : Type} (m : M A) (k : A -> M B) : M B :=
  fun w => let (a, w') := m w in k a w'.

Notation "x <- c1 ;; c2" := (bind c1 (fun x => c2))
  (at level 100, c1 at next level, right associativity).
Notation "c1 ;; c2" := (bind c1 (fun _ => c2))
  (at level 100, right associativity).

Definition perform (e : Effect) : M unit := fun w =>
  (tt, mkWorld (fs w) (answers w) (asked w) (effects w ++ [e]) (testLog w) (console w)).

Definition testLog_push (line : string) : M unit := fun w =>
  (tt, mkWorld (fs w) (answers w) (asked w) (effects w) (testLog w ++ [line]) (console w)).

Definition console_line (l : ConsoleLine) : M unit := fun w =>
  (tt, mkWorld (fs w) (answers w) (asked w) (effects w) (testLog w) (console w ++ [l])).

Definition store (path : string) (content : Manifest.t) : M unit := fun w =>
  (tt, mkWorld (<[path := content]> (fs w)) (answers w) (asked w) (effects w) (testLog w) (console w)).

(** [ask(query)]: the next line of the operator, trimmed, in lower case. *)
Definition ask : M string := fun w =>
  (JS.toLowerCase (JS.trim (answers w (asked w))),
   mkWorld (fs w) (answers w) (S (asked w)) (effects w) (testLog w) (console w)).

(** [path.join(packageDir, 'package.json')] for a directory path without a
    trailing separator. *)
Definition package_json_path (packageDir : string) : string :=
  packageDir ++ "/package.json".

(** The three update policies ([mode] is 'auto', 'force' or 'interactive'). *)
Inductive Mode : Type := ModeAuto | ModeForce | ModeInteractive.

Inductive UpdateType : Type := security | outdated.

(** An element of the [updates] array. *)
Module Update.
Record t : Type := mk {
  type : UpdateType;
  package : string;
  severity : option string;
  current : option string;
  patched : option string;
  wanted : option string;
  latest : option string;
  reason : string
}.
End Update.

(** What [JSON.parse] makes of the audit report: [null] (reading a property
    of it throws), a value without the three properties (a number, a
    string, a boolean, an array), or an object. *)
Inductive AuditJSON (Metadata : Type) : Type :=
| JsonNull
| JsonOther
| JsonObject (vulnerabilities : option Vulns) (metadata : option Metadata)
             (auditReportVersion : option Z).

Arguments JsonNull {Metadata}.
Arguments JsonOther {Metadata}.
Arguments JsonObject {Metadata} vulnerabilities metadata auditReportVersion.

Module CommandResult.
Record t : Type := mk {
  success : bool;
  output : option string;
  error : option string
}.
End CommandResult.

Module ScanResult.
Record t (Metadata : Type) : Type := mk {
  vulnerabilities : Vulns;
  summary : option Metadata;
  auditLevel : option Z
}.
Arguments mk {Metadata} vulnerabilities summary auditLevel.
Arguments vulnerabilities {Metadata} t.
Arguments summary {Metadata} t.
Arguments auditLevel {Metadata} t.
End ScanResult.

(** *** The functions of the script *)

Section Script.

(** Command-line flags and configuration. *)
Variable isDryRun : bool.            (* --dry-run *)
Variable isAutoUpdate : bool.        (* --auto-update *)
Variable isForceUpdate : bool.       (* --force-update *)
Variable excludePackages : list string.   (* SECURITY_CONFIG.excludePackages *)

(** The host: the clock, what a child process does when it is run in the
    present world, whether a file can be written, and [JSON.parse] on the
    two kinds of report. *)
Variable now : Z.
Variable execSync_outcome : World -> string -> string -> JS.ExecOutcome.
Variable writeFileSync_ok : World -> string -> bool.
Variable Metadata : Type.
Variable JSON_parse_audit : string -> option (AuditJSON Metadata).
Variable JSON_parse_outdated : string -> option Outdated.

Definition execSync (command cwd : string) : M JS.ExecOutcome := fun w =>
  let o := execSync_outcome w command cwd in
  let (_, w') := perform (Exec command cwd) w in
  (o, w').

Definition execCommand (command cwd : string) : M CommandResult.t :=
  o <- execSync command cwd ;;
  match o with
  | JS.Returned result => ret (CommandResult.mk true (Some result) None)
  | JS.Threw message _ _ => ret (CommandResult.mk false None (Some message))
  end.

(** [getPackageJson(filePath)]: [None] stands for [exists: false], a file
    that is missing or that [JSON.parse] rejects. *)
Definition getPackageJson (filePath : string) : M (option Manifest.t) :=
  fun w => (fs w !! filePath, w).

Definition writePackageJson (filePath : string) (content : Manifest.t) : M bool :=
  if isDryRun then
    testLog_push ("[DRY] Would update: " ++ filePath) ;;
    ret true
  else
    fun w =>
      let ok := writeFileSync_ok w filePath in
      (perform (WriteFile filePath content) ;;
       if ok then
         store filePath content ;;
         ret true
       else
         console_line (ErrorWriteFailed filePath) ;;
         ret false) w.

Definition empty_scan : ScanResult.t Metadata := ScanResult.mk [] None None.

Definition scanVulnerabilities (packageDir : string) : M (ScanResult.t Metadata) :=
  result <- execCommand "npm audit --json" packageDir ;;
  if negb (CommandResult.success result) then
    console_line (WarnAuditFailed packageDir (CommandResult.error result)) ;;
    ret empty_scan
  else
    match
      match CommandResult.output result with
      | Some text => JSON_parse_audit text
      | None => Some JsonNull
      end
    with
    | Some (JsonObject vulnerabilities metadata auditReportVersion) =>
        ret (ScanResult.mk
               (default [] vulnerabilities)
               metadata
               (Some (match auditReportVersion with
                      | Some v => if JS.truthy_Z v then v else 1%Z
                      | None => 1%Z
                      end)))
    | Some JsonOther => ret (ScanResult.mk [] None (Some 1%Z))
    | Some JsonNull | None =>
        console_line (WarnAuditUnparsable packageDir) ;;
        ret empty_scan
    end.

Definition checkOutdatedPackages (packageDir : string) : M Outdated :=
  result <- execCommand "npm outdated --json" packageDir ;;
  if JS.truthy_field (CommandResult.output result) then
    match JSON_parse_outdated (default "" (CommandResult.output result)) with
    | Some outdatedData => ret outdatedData
    | None =>
        console_line (WarnOutdatedUnparsable packageDir) ;;
        ret []
    end
  else ret [].

(** A template literal prints a missing field as [undefined]. *)
Definition show (f : option string) : string := default "undefined" f.

Definition security_update (analysis : Analysis.t) (vulnData : VulnData.t) : Update.t :=
  {| Update.type := security;
     Update.package := Analysis.module analysis;
     Update.severity := Some (Analysis.severity analysis);
     Update.current := Some (JS.or_default (VulnData.via vulnData) "unknown");
     Update.patched := Some (Analysis.patched analysis);
     Update.wanted := None;
     Update.latest := None;
     Update.reason :=
       Analysis.severity analysis ++ " vulnerability: " ++ Analysis.title analysis |}.

Definition outdated_update (packageName : string) (packageInfo : OutdatedInfo.t) : Update.t :=
  {| Update.type := outdated;
     Update.package := packageName;
     Update.severity := None;
     Update.current := OutdatedInfo.current packageInfo;
     Update.patched := None;
     Update.wanted := OutdatedInfo.wanted packageInfo;
     Update.latest := OutdatedInfo.latest packageInfo;
     Update.reason :=
       "Outdated package (current: " ++ show (OutdatedInfo.current packageInfo)
       ++ ", latest: " ++ show (OutdatedInfo.latest packageInfo) ++ ")" |}.

Definition is_auto (mode : Mode) : bool :=
  match mode with ModeAuto => true | _ => false end.

Definition is_force (mode : Mode) : bool :=
  match mode with ModeForce => true | _ => false end.

(** The first loop of [updateDependencies]: security updates. *)
Fixpoint collect_security (mode : Mode) (entries : Vulns) (updates : list Update.t)
  : list Update.t :=
  match entries with
  | [] => updates
  | (vulnId, vulnData) :: rest =>
      let analysis := analyzeVulnerability now (Some vulnId) vulnData in
      if is_auto mode && negb (Analysis.shouldAutoUpdate analysis) then
        collect_security mode rest updates
      else if JS.array_includes excludePackages (Analysis.module analysis) then
        collect_security mode rest updates
      else
        collect_security mode rest (updates ++ [security_update analysis vulnData])
  end.

(** The second loop: updates of outdated packages. *)
Fixpoint collect_outdated (mode : Mode) (entries : Outdated) (updates : list Update.t)
  : list Update.t :=
  match entries with
  | [] => updates
  | (packageName, packageInfo) :: rest =>
      if is_auto mode then collect_outdated mode rest updates
      else collect_outdated mode rest (updates ++ [outdated_update packageName packageInfo])
  end.

Definition is_security (u : Update.t) : bool :=
  match Update.type u with security => true | outdated => false end.

(** [deps && deps[name]] followed by [deps[name] = target]: the new map and
    whether the assignment took place. *)
Definition assign_if_listed (deps : option (gmap string string)) (name target : string)
  : option (gmap string string) * bool :=
  match deps with
  | Some d =>
      if JS.truthy_value JS.truthy_string (JS.get d name)
      then (Some (JS.set d name target), true)
      else (deps, false)
  | None => (None, false)
  end.

Definition assign_both (content : Manifest.t) (name target : string) : Manifest.t * bool :=
  let (deps, c1) := assign_if_listed (Manifest.dependencies content) name target in
  let (dev, c2) := assign_if_listed (Manifest.devDependencies content) name target in
  (Manifest.mk deps dev, c1 || c2).

(** One turn of the loop of [applyUpdates] over [pkg.content] and
    [hasChanges]. *)
Definition apply_update (st : Manifest.t * bool) (update : Update.t) : Manifest.t * bool :=
  let (content, hasChanges) := st in
  if is_security update && JS.truthy_field (Update.patched update)
     && negb (String.eqb (default "" (Update.patched update)) "none")
  then
    let targetVersion := default "" (Update.patched update) in
    let (content', changed) := assign_both content (Update.package update) targetVersion in
    (content', hasChanges || changed)
  else if negb (is_security update) && JS.truthy_field (Update.latest update)
  then
    let (content', changed) :=
      assign_both content (Update.package update) ("^" ++ show (Update.latest update)) in
    (content', hasChanges || changed)
  else (content, hasChanges).

Definition applyUpdates (packageDir : string) (updates : list Update.t) : M bool :=
  match updates with
  | [] => ret true
  | _ =>
      let packageJsonPath := package_json_path packageDir in
      pkg <- getPackageJson packageJsonPath ;;
      match pkg with
      | None => ret false
      | Some content0 =>
          let (content, hasChanges) := fold_left apply_update updates (content0, false) in
          if negb hasChanges then ret true
          else
            written <- writePackageJson packageJsonPath content ;;
            if negb written then ret false
            else if negb isDryRun then
              installResult <- execCommand "npm install" packageDir ;;
              if CommandResult.success installResult then ret true
              else
                console_line (ErrorInstallFailed (CommandResult.error installResult)) ;;
                ret false
            else
              testLog_push ("[DRY] Would run npm install in " ++ packageDir) ;;
              ret true
      end
  end.

(** The loop of [interactiveUpdate]: one question per update, [q] leaves
    the loop. *)
Fixpoint select_updates (updates selectedUpdates : list Update.t) : M (list Update.t) :=
  match updates with
  | [] => ret selectedUpdates
  | update :: rest =>
      choice <- ask ;;
      if String.eqb choice "q" then ret selectedUpdates
      else if String.eqb choice "y" then select_updates rest (selectedUpdates ++ [update])
      else select_updates rest selectedUpdates
  end.

Definition interactiveUpdate (packageDir : string) (updates : list Update.t) : M bool :=
  selectedUpdates <- select_updates updates [] ;;
  match selectedUpdates with
  | [] => ret true
  | _ => applyUpdates packageDir selectedUpdates
  end.

Definition updateDependencies (packageDir : string) (vulns : Vulns) (outdated : Outdated)
  (mode : Mode) : M bool :=
  pkg <- getPackageJson (package_json_path packageDir) ;;
  match pkg with
  | None =>
      console_line (WarnNoPackageJson packageDir) ;;
      ret false
  | Some _ =>
      let updates := collect_outdated mode outdated (collect_security mode vulns []) in
      match updates with
      | [] => ret true
      | _ =>
          if is_auto mode || isAutoUpdate then
            applyUpdates packageDir (filter (fun u => is_security u = true) updates)
          else if is_force mode || isForceUpdate then
            applyUpdates packageDir updates
          else
            choice <- ask ;;
            if String.eqb choice "a" then applyUpdates packageDir updates
            else if String.eqb choice "s" then
              applyUpdates packageDir (filter (fun u => is_security u = true) updates)
            else if String.eqb choice "i" then interactiveUpdate packageDir updates
            else ret true
      end
  end.

(** The mode [main] passes to [updateDependencies]. *)
Definition mode_of_flags : Mode :=
  if isAutoUpdate then ModeAuto
  else if isForceUpdate then ModeForce
  else ModeInteractive.

(** The last loop of [main] (skipped under --scan): every package that has
    a finding is passed to [updateDependencies]. *)
Variable scanOnly : bool.

Fixpoint update_each (packages : list (string * Vulns * Outdated)) : M unit :=
  match packages with
  | [] => ret tt
  | (dir, vulns, outdatedData) :: rest =>
      (if (0 <? length vulns)%nat || (0 <? length outdatedData)%nat
       then updateDependencies dir vulns outdatedData mode_of_flags ;; ret tt
       else ret tt) ;;
      update_each rest
  end.

Definition main_updates (packages : list (string * Vulns * Outdated)) : M unit :=
  if negb scanOnly then update_each packages else ret tt.

End Script.

End DependencyManager.

(** ** scripts/security/aikido-branch-manager.mjs *)

Module BranchManager.

Definition LF : string := String (ascii_of_nat 10) EmptyString.

(** The filter of [listSecurityBranches] on the lines of a branch listing. *)
Definition is_security_line (branch : string) : bool :=
  JS.includes branch "aikido" || JS.includes branch "dependabot"
  || JS.includes branch "security" || JS.includes branch "vulnerability".

(** [[...new Set(xs)]]: the first occurrence of every element, in order. *)
Fixpoint unique_go (seen xs : list string) : list string :=
  match xs with
  | [] => []
  | x :: rest =>
      if JS.array_includes seen x then unique_go seen rest
      else x :: unique_go (seen ++ [x]) rest
  end.

Definition unique (xs : list string) : list string := unique_go [] xs.

Definition remote_security_branches (remoteBranches : string) : list string :=
  map JS.trim (List.filter is_security_line (JS.split_lines remoteBranches)).

Definition local_security_branches (localBranches : string) : list string :=
  map (fun branch => JS.replace (JS.trim branch) "* " "")
      (List.filter is_security_line (JS.split_lines localBranches)).

(** "Categorize branches by tool": the three arrays that are printed. *)
Definition aikidoBranches (allBranches : list string) : list string :=
  List.filter (fun b => JS.includes b "aikido") allBranches.

Definition dependabotBranches (allBranches : list string) : list string :=
  List.filter (fun b => JS.includes b "dependabot") allBranches.

Definition otherSecurityBranches (allBranches : list string) : list string :=
  List.filter (fun b => negb (JS.includes b "aikido") && negb (JS.includes b "dependabot"))
              allBranches.

(** Console output that matters below: the three printed groups, each
    branch with its local/remote marker, and the lines printed when a
    command fails. *)
Inductive ConsoleLine : Type :=
| AikidoGroup (branches : list (string * bool))
| DependabotGroup (branches : list (string * bool))
| OtherGroup (branches : list (string * bool))
| ErrorCheckingBranches (message : string)
| ErrorBranchDetails (message : string)
| ErrorSwitchingToMain (message : string)
| ErrorMergeFailed (message : string)
| HintResolveConflictsManually
| NoteCouldNotDelete (message : string).

(** How [mergeAikidoBranch], an async function, completes. *)
Inductive Completion : Type :=
| Resolved (value : bool)
| Rejected (message : string).

Section Script.

(** The repository with its working tree, and what running a command line
    does to it. *)
Variable Repo : Type.
Variable run : string -> Repo -> JS.ExecOutcome * Repo.

Record World : Type := mkWorld {
  repo : Repo;
  answers : nat -> string;      (* the lines the operator types *)
  asked : nat;
  commands : list string;       (* the command lines run, oldest first *)
  console : list ConsoleLine
}.

Definition M (A : Type) : Type := World -> A * World.

Definition ret {A : Type} (a : A) : M A := fun w => (a, w).

Definition bind {A B : Type} (m : M A) (k : A -> M B) : M B :=
  fun w => let (a, w') := m w in k a w'.

Notation "x <- c1 ;; c2" := (bind c1 (fun x => c2))
  (at level 100, c1 at next level, right associativity).
Notation "c1 ;; c2" := (bind c1 (fun _ => c2))
  (at level 100, right associativity).

Definition execSync (command : string) : M JS.ExecOutcome := fun w =>
  let (o, r) := run command (repo w) in
  (o, mkWorld r (answers w) (asked w) (commands w ++ [command]) (console w)).

Definition console_line (l : ConsoleLine) : M unit := fun w =>
  (tt, mkWorld (repo w) (answers w) (asked w) (commands w) (console w ++ [l])).

Definition ask : M string := fun w =>
  (JS.toLowerCase (JS.trim (answers w (asked w))),
   mkWorld (repo w) (answers w) (S (asked w)) (commands w) (console w)).

Definition with_marker (localSecurityBranches : list string) (branch : string)
  : string * bool :=
  (branch, JS.array_includes localSecurityBranches branch).

Definition print_group (group : list (string * bool) -> ConsoleLine)
  (localSecurityBranches branches : list string) : M unit :=
  match branches with
  | [] => ret tt
  | _ => console_line (group (map (with_marker localSecurityBranches) branches))
  end.

Definition listSecurityBranches : M (list string) :=
  o1 <- execSync "git branch -r" ;;
  match o1 with
  | JS.Threw message _ _ => console_line (ErrorCheckingBranches message) ;; ret []
  | JS.Returned remoteBranches =>
      let securityBranches := remote_security_branches remoteBranches in
      o2 <- execSync "git branch" ;;
      match o2 with
      | JS.Threw message _ _ => console_line (ErrorCheckingBranches message) ;; ret []
      | JS.Returned localBranches =>
          let localSecurityBranches := local_security_branches localBranches in
          let allBranches := unique (securityBranches ++ localSecurityBranches) in
          match allBranches with
          | [] => ret []
          | _ =>
              print_group AikidoGroup localSecurityBranches (aikidoBranches allBranches) ;;
              print_group DependabotGroup localSecurityBranches (dependabotBranches allBranches) ;;
              print_group OtherGroup localSecurityBranches (otherSecurityBranches allBranches) ;;
              ret allBranches
          end
      end
  end.

Definition getBranchDetails (branchName : string) : M unit :=
  o1 <- execSync ("git log --oneline " ++ branchName ++ " ^main | head -5") ;;
  match o1 with
  | JS.Threw message _ _ => console_line (ErrorBranchDetails message)
  | JS.Returned _ =>
      o2 <- execSync ("git diff --name-only main..." ++ branchName) ;;
      match o2 with
      | JS.Threw message _ _ => console_line (ErrorBranchDetails message)
      | JS.Returned _ =>
          o3 <- execSync ("git diff --stat main..." ++ branchName) ;;
          match o3 with
          | JS.Threw message _ _ => console_line (ErrorBranchDetails message)
          | JS.Returned _ => ret tt
          end
      end
  end.

Definition merge_command (branchName : string) : string :=
  "git merge " ++ branchName ++ " --no-ff".

Definition delete_command (branchName : string) : string :=
  "git branch -d " ++ JS.replace branchName "origin/" "".

(** The last [try] block of [mergeAikidoBranch]: the merge, then the
    question about deleting the branch; the [catch] clause is reached only
    by a failing merge. *)
Definition merge_step (branchName : string) : M Completion :=
  o <- execSync (merge_command branchName) ;;
  match o with
  | JS.Threw message _ _ =>
      console_line (ErrorMergeFailed message) ;;
      console_line HintResolveConflictsManually ;;
      ret (Resolved false)
  | JS.Returned _ =>
      deleteBranch <- ask ;;
      (if String.eqb deleteBranch "y" then
         od <- execSync (delete_command branchName) ;;
         match od with
         | JS.Threw message _ _ => console_line (NoteCouldNotDelete message)
         | JS.Returned _ => ret tt
         end
       else ret tt) ;;
      ret (Resolved true)
  end.

(** The part of [mergeAikidoBranch] after the current branch is known. *)
Definition merge_after_switch (branchName : string) : M Completion :=
  getBranchDetails branchName ;;
  confirmMerge <- ask ;;
  if negb (String.eqb confirmMerge "y") then ret (Resolved false)
  else merge_step branchName.

Definition mergeAikidoBranch (branchName : string) : M Completion :=
  o <- execSync "git branch --show-current" ;;
  match o with
  | JS.Threw message _ _ => ret (Rejected message)
  | JS.Returned out =>
      let currentBranch := JS.trim out in
      if negb (String.eqb currentBranch "main") && negb (String.eqb currentBranch "develop")
      then
        switchToMain <- ask ;;
        if String.eqb switchToMain "y" then
          oc <- execSync "git checkout main" ;;
          match oc with
          | JS.Threw message _ _ =>
              console_line (ErrorSwitchingToMain message) ;; ret (Resolved false)
          | JS.Returned _ =>
              op <- execSync "git pull origin main" ;;
              match op with
              | JS.Threw message _ _ =>
                  console_line (ErrorSwitchingToMain message) ;; ret (Resolved false)
              | JS.Returned _ => merge_after_switch branchName
              end
          end
        else merge_after_switch branchName
      else merge_after_switch branchName
  end.

End Script.

End BranchManager.

(** ** scripts/security/interactive-aikido-manager.mjs *)

Module InteractiveManager.

Inductive BranchType : Type := aikido | dependabot | security.

Module Branch.
Record t : Type := mk {
  name : string;
  type : BranchType;
  status : string
}.
End Branch.

(** The filter of [loadSecurityBranches] on the lines of [git branch -r]. *)
Definition is_security_line (branch : string) : bool :=
  JS.includes branch "security/" || JS.includes branch "aikido/"
  || JS.includes branch "dependabot/".

(** The conditional expression that gives a branch its [type]. *)
Definition branch_type (branch : string) : BranchType :=
  if JS.includes branch "aikido/" then aikido
  else if JS.includes branch "dependabot/" then dependabot
  else security.

Definition to_branch (branch : string) : Branch.t :=
  Branch.mk branch (branch_type branch) "pending".

(** [loadSecurityBranches]: the value [this.securityBranches] receives,
    from what [execSync] of [git branch -r] does. *)
Definition loadSecurityBranches (o : JS.ExecOutcome) : list Branch.t :=
  match o with
  | JS.Returned out =>
      let branches :=
        map (fun branch => JS.replace (JS.trim branch) "origin/" "")
            (List.filter is_security_line (JS.split_lines out)) in
      map to_branch branches
  | JS.Threw _ _ _ => []
  end.

Section NpmAudit.

Variable Metadata : Type.
Variable JSON_parse : string -> option (DependencyManager.AuditJSON Metadata).

(** [processNpmAuditData(auditData)]: the entries of
    [auditData.vulnerabilities] that are pushed on [pendingFixes]; [None]
    when reading the property throws ([auditData] is [null]). *)
Definition processNpmAuditData (auditData : DependencyManager.AuditJSON Metadata)
  : option DependencyManager.Vulns :=
  match auditData with
  | DependencyManager.JsonNull => None
  | DependencyManager.JsonOther => Some []
  | DependencyManager.JsonObject vulnerabilities _ _ => Some (default [] vulnerabilities)
  end.

(** The [catch] clause of [loadNpmAuditResults]: it parses
    [error.stdout || '{}'], and gives up with a console line when that
    fails too. *)
Definition parse_error_stdout (stdout : string) : DependencyManager.Vulns :=
  match JSON_parse (if JS.truthy_string stdout then stdout else "{}") with
  | Some auditData => default [] (processNpmAuditData auditData)
  | None => []
  end.

(** [loadNpmAuditResults]: the findings it records, from what [execSync]
    of [npm audit --json] does.  An error thrown by [JSON.parse] or by
    [processNpmAuditData] carries no [stdout]. *)
Definition loadNpmAuditResults (o : JS.ExecOutcome) : DependencyManager.Vulns :=
  match o with
  | JS.Returned auditOutput =>
      match JSON_parse auditOutput with
      | Some auditData =>
          match processNpmAuditData auditData with
          | Some found => found
          | None => parse_error_stdout ""
          end
      | None => parse_error_stdout ""
      end
  | JS.Threw _ _ stdout => parse_error_stdout stdout
  end.

End NpmAudit.

End InteractiveManager.

(** ** scripts/security/dependency-manager.mjs: the security report *)

Module SecurityReport.

Import DependencyManager.

Module Summary.
Record t : Type := mk {
  totalVulnerabilities : Z;
  criticalVulnerabilities : Z;
  highVulnerabilities : Z;
  moderateVulnerabilities : Z;
  lowVulnerabilities : Z;
  outdatedPackages : Z;
  overallScore : Z
}.
End Summary.

(** A value of [reportData.packages]. *)
Module PackageReport.
Record t : Type := mk {
  vulnerabilities : Z;
  outdated : Z;
  score : Z;
  details_vulnerabilities : Vulns;
  details_outdated : Outdated
}.
End PackageReport.

Module ReportData.
Record t : Type := mk {
  timestamp : string;
  project : string;
  packages : list (string * PackageReport.t);
  summary : Summary.t
}.
End ReportData.

(** A value of [scanResults], as [main] builds it; the [summary] of the
    audit, which the report does not read, is left out. *)
Module ScanData.
Record t : Type := mk {
  vulnerabilities : Vulns;
  outdated : Outdated
}.
End ScanData.

(** What [generateSecurityReport] does to the file system and to the
    dry-run log. *)
Inductive FileAction : Type :=
| Mkdir (dir : string)                                (* fs.mkdirSync, recursive *)
| WriteReport (file : string) (data : ReportData.t)   (* fs.writeFileSync *)
| TestLogPush (line : string).                        (* testLog.push *)

Section Report.

Variable isDryRun : bool.
Variable now : Z.

(** The callback of the inner [forEach]: count one vulnerability. *)
Definition count_vulnerability (s : Summary.t) (vuln : VulnData.t) : Summary.t :=
  let analysis := analyzeVulnerability now (VulnData.id vuln) vuln in
  let severity := Analysis.severity analysis in
  let total := (Summary.totalVulnerabilities s + 1)%Z in
  if String.eqb severity "critical" then
    Summary.mk total (Summary.criticalVulnerabilities s + 1) (Summary.highVulnerabilities s)
      (Summary.moderateVulnerabilities s) (Summary.lowVulnerabilities s)
      (Summary.outdatedPackages s) (Summary.overallScore s)
  else if String.eqb severity "high" then
    Summary.mk total (Summary.criticalVulnerabilities s) (Summary.highVulnerabilities s + 1)
      (Summary.moderateVulnerabilities s) (Summary.lowVulnerabilities s)
      (Summary.outdatedPackages s) (Summary.overallScore s)
  else if String.eqb severity "moderate" then
    Summary.mk total (Summary.criticalVulnerabilities s) (Summary.highVulnerabilities s)
      (Summary.moderateVulnerabilities s + 1) (Summary.lowVulnerabilities s)
      (Summary.outdatedPackages s) (Summary.overallScore s)
  else if String.eqb severity "low" then
    Summary.mk total (Summary.criticalVulnerabilities s) (Summary.highVulnerabilities s)
      (Summary.moderateVulnerabilities s) (Summary.lowVulnerabilities s + 1)
      (Summary.outdatedPackages s) (Summary.overallScore s)
  else
    Summary.mk total (Summary.criticalVulnerabilities s) (Summary.highVulnerabilities s)
      (Summary.moderateVulnerabilities s) (Summary.lowVulnerabilities s)
      (Summary.outdatedPackages s) (Summary.overallScore s).

(** The variables of the loop over [scanResults]. *)
Record Loop : Type := mkLoop {
  reportData : ReportData.t;
  totalScore : Z;
  packageCount : Z
}.

(** One turn of the loop.  The keys of [scanResults] are distinct, so the
    assignment to [reportData.packages[packageName]] adds an entry. *)
Definition report_package (st : Loop) (entry : string * ScanData.t) : Loop :=
  let (packageName, data) := entry in
  let vulnCount := Z.of_nat (length (map fst (ScanData.vulnerabilities data))) in
  let outdatedCount := Z.of_nat (length (map fst (ScanData.outdated data))) in
  let score :=
    calculateSecurityScore now (ScanData.vulnerabilities data) (ScanData.outdated data) in
  let counted :=
    fold_left count_vulnerability (map snd (ScanData.vulnerabilities data))
              (ReportData.summary (reportData st)) in
  let summary :=
    Summary.mk (Summary.totalVulnerabilities counted) (Summary.criticalVulnerabilities counted)
      (Summary.highVulnerabilities counted) (Summary.moderateVulnerabilities counted)
      (Summary.lowVulnerabilities counted)
      (Summary.outdatedPackages counted + outdatedCount) (Summary.overallScore counted) in
  let packages :=
    (ReportData.packages (reportData st)
     ++ [(packageName,
          PackageReport.mk vulnCount outdatedCount score
            (ScanData.vulnerabilities data) (ScanData.outdated data))])%list in
  mkLoop
    (ReportData.mk (ReportData.timestamp (reportData st)) (ReportData.project (reportData st))
       packages summary)
    (totalScore st + score) (packageCount st + 1).

(** [Math.round(totalScore / packageCount)] for a total that is not
    negative and a positive count: the quotient rounded to the nearest
    integer, a half rounded up. *)
Definition round_quotient (total count : Z) : Z := ((2 * total + count) / (2 * count))%Z.

(** The report, before it is saved. *)
Definition build_report (timestamp : string) (scanResults : list (string * ScanData.t))
  : ReportData.t :=
  let initial :=
    mkLoop (ReportData.mk timestamp "FigmailAPP" [] (Summary.mk 0 0 0 0 0 0 0)) 0 0 in
  let st := fold_left report_package scanResults initial in
  let s := ReportData.summary (reportData st) in
  let overall :=
    if (0 <? packageCount st)%Z then round_quotient (totalScore st) (packageCount st)
    else 100%Z in
  ReportData.mk (ReportData.timestamp (reportData st)) (ReportData.project (reportData st))
    (ReportData.packages (reportData st))
    (Summary.mk (Summary.totalVulnerabilities s) (Summary.criticalVulnerabilities s)
       (Summary.highVulnerabilities s) (Summary.moderateVulnerabilities s)
       (Summary.lowVulnerabilities s) (Summary.outdatedPackages s) overall).

Definition reports_dir (projectRoot : string) : string := projectRoot ++ "/reports".

Definition report_file (projectRoot timestamp : string) : string :=
  reports_dir projectRoot ++ "/security-report-" ++ String.substring 0 10 timestamp ++ ".json".

(** [generateSecurityReport(scanResults)], given the time stamp
    [new Date().toISOString()], whether the reports directory exists, and
    whether [mkdirSync] and [writeFileSync] succeed.  The result is the
    report the function resolves to ([None] when a file-system call
    throws, which the function does not catch) and what it did, in
    order. *)
Definition generateSecurityReport (timestamp projectRoot : string)
  (reportsDirExists mkdir_ok write_ok : bool) (scanResults : list (string * ScanData.t))
  : option ReportData.t * list FileAction :=
  let data := build_report timestamp scanResults in
  let made := if reportsDirExists then [] else [Mkdir (reports_dir projectRoot)] in
  if negb reportsDirExists && negb mkdir_ok then (None, made)
  else if negb isDryRun then
    if write_ok
    then (Some data, made ++ [WriteReport (report_file projectRoot timestamp) data])%list
    else (None, made ++ [WriteReport (report_file projectRoot timestamp) data])%list
  else
    (Some data,
     made ++ [TestLogPush ("[DRY] Would save report: " ++ report_file projectRoot timestamp)])%list.

End Report.

End SecurityReport.

(** ** Reading a number the operator typed *)

Module Global.

(** The value of a character as a digit: [0]-[9], then the letters. *)
Definition digit_value (c : ascii) : option Z :=
  let n := nat_of_ascii c in
  if ((48 <=? n)%nat && (n <=? 57)%nat)%bool then Some (Z.of_nat (n - 48))
  else if ((97 <=? n)%nat && (n <=? 122)%nat)%bool then Some (Z.of_nat (n - 87))
  else if ((65 <=? n)%nat && (n <=? 90)%nat)%bool then Some (Z.of_nat (n - 55))
  else None.

Definition radix_digit (R : Z) (c : ascii) : option Z :=
  match digit_value c with
  | Some d => if (d <? R)%Z then Some d else None
  | None => None
  end.

(** The value of the longest prefix of [s] made of digits of radix [R]. *)
Fixpoint digits_value (R : Z) (acc : Z) (s : string) : Z :=
  match s with
  | String c rest =>
      match radix_digit R c with
      | Some d => digits_value R (acc * R + d)%Z rest
      | None => acc
      end
  | EmptyString => acc
  end.

(** [None] when [s] does not start with a digit of radix [R]. *)
Definition leading_number (R : Z) (s : string) : option Z :=
  match s with
  | String c _ =>
      match radix_digit R c with
      | Some _ => Some (digits_value R 0 s)
      | None => None
      end
  | EmptyString => None
  end.

Definition strip_sign (s : string) : bool * string :=
  match s with
  | String c rest =>
      if Ascii.eqb c "-" then (true, rest)
      else if Ascii.eqb c "+" then (false, rest)
      else (false, s)
  | EmptyString => (false, s)
  end.

(** [parseInt(s)] with no radix given: leading white space is skipped, a
    sign is read, the prefix [0x] or [0X] selects radix 16, and the longest
    run of digits that follows is the result; [None] is NaN.  The result
    is given as an integer: the scripts only subtract one from it and
    compare it with the bounds of an array, where the rounding of a large
    number to a double makes no difference. *)
Definition parseInt (s : string) : option Z :=
  let (negative, body) := strip_sign (JS.trim_start s) in
  let (R, digits) :=
    if (String.prefix "0x" body || String.prefix "0X" body)%bool
    then (16%Z, String.substring 2 (String.length body - 2) body)
    else (10%Z, body) in
  match leading_number R digits with
  | Some n => Some (if negative then (- n)%Z else n)
  | None => None
  end.

End Global.

(** ** scripts/security/aikido-branch-manager.mjs: the menu *)

Module BranchMenu.

Import BranchManager.

(** [parseInt(choice) - 1]; [None] is NaN. *)
Definition index_of_choice (choice : string) : option Z :=
  match Global.parseInt choice with
  | Some n => Some (n - 1)%Z
  | None => None
  end.

(** [index >= 0 && index < length]: false for NaN. *)
Definition in_range (index : option Z) (length : nat) : bool :=
  match index with
  | Some i => ((0 <=? i)%Z && (i <? Z.of_nat length)%Z)%bool
  | None => false
  end.

(** The branch that the [if]/[else if]/[else] chain of the cases [v] and
    [m] passes on: the branch at the index typed, else the name typed when
    it is listed; [None] stands for the last [else], which prints that the
    selection is invalid. *)
Definition select_branch (branches : list string) (choice : string) : option string :=
  let branchIndex := index_of_choice choice in
  if in_range branchIndex (length branches) then
    match branchIndex with
    | Some i => branches !! Z.to_nat i
    | None => None
    end
  else if JS.array_includes branches choice then Some choice
  else None.

Section Script.

Variable Repo : Type.
Variable run : string -> Repo -> JS.ExecOutcome * Repo.

Notation "x <- c1 ;; c2" := (bind Repo c1 (fun x => c2))
  (at level 100, c1 at next level, right associativity).
Notation "c1 ;; c2" := (bind Repo c1 (fun _ => c2))
  (at level 100, right associativity).

(** The loop of the case [a]. *)
Fixpoint details_of_each (branches : list string) : M Repo unit :=
  match branches with
  | [] => ret Repo tt
  | branch :: rest => getBranchDetails Repo run branch ;; details_of_each rest
  end.

(** The [switch] on the action typed; the result is the error that
    escapes it, if any.  The message for an invalid selection is printed
    and not recorded. *)
Definition switch_action (branches : list string) (action : string)
  : M Repo (option string) :=
  if String.eqb action "v" then
    branchChoice <- ask Repo ;;
    match select_branch branches branchChoice with
    | Some branch => getBranchDetails Repo run branch ;; ret Repo None
    | None => ret Repo None
    end
  else if String.eqb action "m" then
    mergeChoice <- ask Repo ;;
    match select_branch branches mergeChoice with
    | Some branch =>
        completion <- mergeAikidoBranch Repo run branch ;;
        match completion with
        | Rejected message => ret Repo (Some message)
        | Resolved _ => ret Repo None
        end
    | None => ret Repo None
    end
  else if String.eqb action "a" then
    details_of_each branches ;; ret Repo None
  else ret Repo None.

(** [manageSecurityBranches]: the result is the error its promise is
    rejected with, [None] when it is fulfilled.  The menu is printed and
    not recorded. *)
Definition manageSecurityBranches : M Repo (option string) :=
  branches <- listSecurityBranches Repo run ;;
  match branches with
  | [] => ret Repo None
  | _ =>
      action <- ask Repo ;;
      switch_action branches action
  end.

(** [main]: the exit code of the process. *)
Definition main : M Repo Z :=
  outcome <- manageSecurityBranches ;;
  match outcome with
  | Some _ => ret Repo 1%Z
  | None => ret Repo 0%Z
  end.

End Script.

End BranchMenu.

(** ** scripts/security/interactive-aikido-manager.mjs: the session *)

Module Dashboard.

Import InteractiveManager.

(** [s.endsWith(suffix)]. *)
Definition endsWith (s suffix : string) : bool :=
  (String.length suffix <=? String.length s)%nat
  && String.eqb (String.substring (String.length s - String.length suffix)
                                  (String.length suffix) s) suffix.

(** [files.sort()]: the default order of strings, by character code. *)
Fixpoint sort_insert (x : string) (sorted : list string) : list string :=
  match sorted with
  | [] => [x]
  | y :: rest => if String.leb x y then x :: sorted else y :: sort_insert x rest
  end.

Definition sort (files : list string) : list string := fold_right sort_insert [] files.

(** The file that [loadAikidoResults] reads, [files[0]], from the entries
    of the reports directory. *)
Definition latest_report (entries : list string) : option string :=
  let files :=
    rev (sort (List.filter (fun file => JS.includes file "aikido" && endsWith file ".json")
                           entries)) in
  head files.

(** What [existsSync] and [readdirSync] find at the reports directory. *)
Inductive Directory : Type :=
| Missing
| Unreadable                         (* [readdirSync] throws *)
| Entries (files : list string).

Section Session.

(** An element of [report.vulnerabilities] other than [null]. *)
Variable AikidoVuln : Type.

(** A report as [processAikidoReport] sees it: [null]; a value without a
    truthy [vulnerabilities]; a truthy [vulnerabilities] that is no array;
    an array, in which [None] is a [null] element. *)
Inductive Report : Type :=
| ReportNull
| ReportPlain
| ReportNotArray
| ReportArray (vulnerabilities : list (option AikidoVuln)).

(** An element of [pendingFixes], by the data it was built from. *)
Inductive Finding : Type :=
| AikidoFinding (vuln : AikidoVuln)
| NpmFinding (pkg : string) (data : DependencyManager.VulnData.t).

(** The machine the session runs on, what a command line does to it, the
    reports directory, reading and parsing a report ([None]: an error is
    thrown), and [JSON.parse] on the output of [npm audit]. *)
Variable Host : Type.
Variable run : string -> Host -> JS.ExecOutcome * Host.
Variable reports_directory : Host -> Directory.
Variable read_report : Host -> string -> option Report.
Variable Metadata : Type.
Variable JSON_parse : string -> option (DependencyManager.AuditJSON Metadata).

(** The object [this] with the world around it.  Console output is not
    recorded. *)
Record World : Type := mkWorld {
  host : Host;
  answers : nat -> string;
  asked : nat;
  commands : list string;
  pendingFixes : list Finding;
  securityBranches : list Branch.t
}.

Definition M (A : Type) : Type := World -> A * World.

Definition ret {A : Type} (a : A) : M A := fun w => (a, w).

Definition bind {A B : Type} (m : M A) (k : A -> M B) : M B :=
  fun w => let (a, w') := m w in k a w'.

Notation "x <- c1 ;; c2" := (bind c1 (fun x => c2))
  (at level 100, c1 at next level, right associativity).
Notation "c1 ;; c2" := (bind c1 (fun _ => c2))
  (at level 100, right associativity).

Definition execSync (command : string) : M JS.ExecOutcome := fun w =>
  let (o, h) := run command (host w) in
  (o, mkWorld h (answers w) (asked w) (commands w ++ [command]) (pendingFixes w)
              (securityBranches w)).

(** [this.prompt(question)]: the line typed, as it is. *)
Definition prompt : M string := fun w =>
  (answers w (asked w),
   mkWorld (host w) (answers w) (S (asked w)) (commands w) (pendingFixes w)
           (securityBranches w)).

Definition push_all (found : list Finding) : M unit := fun w =>
  (tt, mkWorld (host w) (answers w) (asked w) (commands w) (pendingFixes w ++ found)
               (securityBranches w)).

Definition set_securityBranches (branches : list Branch.t) : M unit := fun w =>
  (tt, mkWorld (host w) (answers w) (asked w) (commands w) (pendingFixes w) branches).

Definition loadSecurityBranches : M unit :=
  o <- execSync "git branch -r" ;;
  set_securityBranches (InteractiveManager.loadSecurityBranches o).

(** The elements pushed by the [forEach] of [processAikidoReport] before
    it meets a [null] element, on which it throws. *)
Fixpoint pushed_before_null (vulnerabilities : list (option AikidoVuln)) : list Finding :=
  match vulnerabilities with
  | Some vuln :: rest => AikidoFinding vuln :: pushed_before_null rest
  | None :: _ => []
  | [] => []
  end.

(** [processAikidoReport(report)]: what it pushes on [pendingFixes] before
    it returns or throws. *)
Definition processAikidoReport (report : Report) : M unit :=
  match report with
  | ReportArray vulnerabilities => push_all (pushed_before_null vulnerabilities)
  | ReportNull | ReportPlain | ReportNotArray => ret tt
  end.

(** [loadAikidoResults]: every error is caught and printed. *)
Definition loadAikidoResults : M unit := fun w =>
  match reports_directory (host w) with
  | Entries entries =>
      match latest_report entries with
      | Some file =>
          match read_report (host w) file with
          | Some latestReport => processAikidoReport latestReport w
          | None => (tt, w)
          end
      | None => (tt, w)
      end
  | Missing | Unreadable => (tt, w)
  end.

Definition loadNpmAuditResults : M unit :=
  o <- execSync "npm audit --json" ;;
  push_all (map (fun entry => NpmFinding (fst entry) (snd entry))
                (InteractiveManager.loadNpmAuditResults Metadata JSON_parse o)).

Definition loadSecurityData : M unit :=
  loadSecurityBranches ;;
  loadAikidoResults ;;
  loadNpmAuditResults.

(** The filter of [autoMergeSafeBranches]. *)
Definition is_safe (branch : Branch.t) : bool :=
  match Branch.type branch with
  | dependabot => true
  | aikido | security => false
  end || JS.includes (Branch.name branch) "patch".

Definition auto_merge_command (branch : Branch.t) : string :=
  "git merge origin/" ++ Branch.name branch.

(** The loop of [autoMergeSafeBranches]: a failed merge is printed. *)
Fixpoint merge_each (safeBranches : list Branch.t) : M unit :=
  match safeBranches with
  | [] => ret tt
  | branch :: rest => execSync (auto_merge_command branch) ;; merge_each rest
  end.

Definition autoMergeSafeBranches : M unit := fun w =>
  let safeBranches := List.filter is_safe (securityBranches w) in
  match safeBranches with
  | [] => (tt, w)
  | _ => (merge_each safeBranches ;; prompt ;; ret tt) w
  end.

End Session.

Arguments mkWorld {AikidoVuln Host} host answers asked commands pendingFixes securityBranches.
Arguments host {AikidoVuln Host} w.
Arguments answers {AikidoVuln Host} w n.
Arguments asked {AikidoVuln Host} w.
Arguments commands {AikidoVuln Host} w.
Arguments pendingFixes {AikidoVuln Host} w.
Arguments securityBranches {AikidoVuln Host} w.
Arguments ReportNull {AikidoVuln}.
Arguments ReportPlain {AikidoVuln}.
Arguments ReportNotArray {AikidoVuln}.
Arguments ReportArray {AikidoVuln} vulnerabilities.
Arguments AikidoFinding {AikidoVuln} vuln.
Arguments NpmFinding {AikidoVuln} pkg data.
Arguments ret {AikidoVuln Host A} a w.
Arguments bind {AikidoVuln Host A B} m k w.
Arguments execSync {AikidoVuln Host} run command w.
Arguments prompt {AikidoVuln Host} w.
Arguments push_all {AikidoVuln Host} found w.
Arguments set_securityBranches {AikidoVuln Host} branches w.
Arguments loadSecurityBranches {AikidoVuln Host} run w.
Arguments pushed_before_null {AikidoVuln} vulnerabilities.
Arguments processAikidoReport {AikidoVuln Host} report w.
Arguments loadAikidoResults {AikidoVuln Host} reports_directory read_report w.
Arguments loadNpmAuditResults {AikidoVuln Host} run {Metadata} JSON_parse w.
Arguments loadSecurityData {AikidoVuln Host} run reports_directory read_report
  {Metadata} JSON_parse w.
Arguments merge_each {AikidoVuln Host} run safeBranches w.
Arguments autoMergeSafeBranches {AikidoVuln Host} run w.

End Dashboard.

(** * Vocabulary of the statements, and sample data *)

(** The severities of the table [SECURITY_CONFIG.maxAge]. *)
Definition listed_severity (severity : string) : Prop :=
  severity = "critical" \/ severity = "high" \/ severity = "moderate" \/ severity = "low".

(** Sample data: the time of a scan, in milliseconds, and a record of a
    given severity that was published 400 days before it. *)
Definition scan_time : Z := 1800000000000.

Definition old_record (severity : string) : DependencyManager.VulnData.t :=
  DependencyManager.VulnData.mk None (Some severity)
    (DependencyManager.CreatedAt (scan_time - 400 * DependencyManager.MS_PER_DAY))
    None None None None None None.

(** A computation that leaves the file system and the list of effects as
    they are. *)
Definition quiet {A : Type} (m : DependencyManager.M A) : Prop :=
  forall w,
    DependencyManager.effects (snd (m w)) = DependencyManager.effects w
    /\ DependencyManager.fs (snd (m w)) = DependencyManager.fs w.

(** The constraints a manifest gives a package: in [dependencies] and in
    [devDependencies]. *)
Definition constraints (m : option DependencyManager.Manifest.t) (name : string)
  : option string * option string :=
  match m with
  | Some content =>
      (DependencyManager.Manifest.dependencies content ≫= (fun d => d !! name),
       DependencyManager.Manifest.devDependencies content ≫= (fun d => d !! name))
  | None => (None, None)
  end.

(** The updates [updateDependencies] collects under the Auto policy. *)
Definition auto_plan (excludePackages : list string) (now : Z)
  (vulns : DependencyManager.Vulns) (outdated : DependencyManager.Outdated)
  : list DependencyManager.Update.t :=
  DependencyManager.collect_outdated DependencyManager.ModeAuto outdated
    (DependencyManager.collect_security excludePackages now DependencyManager.ModeAuto vulns []).

(** An update that the Auto policy may apply: a security update of
    severity critical or high, for a package that is not excluded, built
    from one of the scanned vulnerabilities. *)
Definition auto_eligible (excludePackages : list string) (now : Z)
  (vulns : DependencyManager.Vulns) (u : DependencyManager.Update.t) : Prop :=
  DependencyManager.Update.type u = DependencyManager.security
  /\ (DependencyManager.Update.severity u = Some "critical"
      \/ DependencyManager.Update.severity u = Some "high")
  /\ JS.array_includes excludePackages (DependencyManager.Update.package u) = false
  /\ exists vulnId vulnData,
       In (vulnId, vulnData) vulns
       /\ u = DependencyManager.security_update
                (DependencyManager.analyzeVulnerability now (Some vulnId) vulnData) vulnData.

(** The world after a scan of [packageDir] that printed [lines]. *)
Definition scan_world_after (packageDir : string)
  (lines : list DependencyManager.ConsoleLine) (w : DependencyManager.World)
  : DependencyManager.World :=
  DependencyManager.mkWorld
    (DependencyManager.fs w) (DependencyManager.answers w) (DependencyManager.asked w)
    (DependencyManager.effects w ++ [DependencyManager.Exec "npm audit --json" packageDir])
    (DependencyManager.testLog w) (DependencyManager.console w ++ lines).

(** Sample data: a repository at [/repo] whose manifest lists [lodash], a
    host on which every command succeeds and every file can be written,
    and an operator who answers [n] to every question. *)
Definition lodash_manifest (constraint : string) : DependencyManager.Manifest.t :=
  DependencyManager.Manifest.mk (Some (<["lodash" := constraint]> ∅)) None.

Definition repo_world (content : DependencyManager.Manifest.t) : DependencyManager.World :=
  DependencyManager.mkWorld (<["/repo/package.json" := content]> ∅) (fun _ => "n") 0 [] [] [].

Definition every_command_succeeds
  : DependencyManager.World -> string -> string -> JS.ExecOutcome :=
  fun _ _ _ => JS.Returned "".

Definition every_file_writable : DependencyManager.World -> string -> bool :=
  fun _ _ => true.

(** A critical vulnerability of [lodash] that is patched in 2.0.0. *)
Definition lodash_vulnerability : DependencyManager.VulnData.t :=
  DependencyManager.VulnData.mk None (Some "critical") DependencyManager.NoCreated
    (Some "Prototype pollution") (Some "lodash") (Some "<2.0.0") (Some "2.0.0") None None.

(** [lodash] is outdated: 4.17.0 is installed, 4.17.21 is wanted, 5.0.0 is
    the latest. *)
Definition lodash_outdated : DependencyManager.OutdatedInfo.t :=
  DependencyManager.OutdatedInfo.mk (Some "4.17.0") (Some "4.17.21") (Some "5.0.0").

(** The command lines [mergeAikidoBranch] can run for a branch. *)
Definition merge_commands (branchName : string) : list string :=
  [ "git branch --show-current"; "git checkout main"; "git pull origin main";
    "git log --oneline " ++ branchName ++ " ^main | head -5";
    "git diff --name-only main..." ++ branchName;
    "git diff --stat main..." ++ branchName;
    BranchManager.merge_command branchName;
    BranchManager.delete_command branchName ].

(** The commands a computation runs are all in [allowed]. *)
Definition issues {Repo : Type} {A : Type} (allowed : list string)
  (m : BranchManager.M Repo A) : Prop :=
  forall w, exists cmds,
    BranchManager.commands Repo (snd (m w)) = (BranchManager.commands Repo w ++ cmds)%list
    /\ Forall (fun c => In c allowed) cmds.

(** The commands that [mergeAikidoBranch] may run before the merge. *)
Definition commands_before_merge (branchName : string) : list string :=
  [ "git branch --show-current"; "git checkout main"; "git pull origin main";
    "git log --oneline " ++ branchName ++ " ^main | head -5";
    "git diff --name-only main..." ++ branchName;
    "git diff --stat main..." ++ branchName ].

(** A computation ends in the merge step, which it reaches without having
    run the merge command, or it completes without success and without
    having run the merge command. *)
Definition merges_last_or_never {Repo : Type}
  (run : string -> Repo -> JS.ExecOutcome * Repo)
  (branchName : string) (m : BranchManager.M Repo BranchManager.Completion) : Prop :=
  forall w,
    (exists w1 pre,
        m w = BranchManager.merge_step Repo run branchName w1
        /\ BranchManager.commands Repo w1 = (BranchManager.commands Repo w ++ pre)%list
        /\ ~ In (BranchManager.merge_command branchName) pre)
    \/ (fst (m w) <> BranchManager.Resolved true
        /\ exists cmds,
             BranchManager.commands Repo (snd (m w))
             = (BranchManager.commands Repo w ++ cmds)%list
             /\ ~ In (BranchManager.merge_command branchName) cmds).

(** A small git for the samples.  The working tree is clean, or it holds
    the half-done merge of a branch: the state in which [git merge] leaves
    the tree when it stops on a conflict.  Merging [conflicting] stops on a
    conflict, [git merge --abort] restores the tree, every other command
    succeeds and changes nothing. *)
Inductive SampleTree : Type :=
| Clean
| MergeInProgress (branch : string).

Record SampleRepo : Type := mkSampleRepo {
  current_branch : string;
  tree : SampleTree
}.

Definition sample_git (conflicting : string) (command : string) (r : SampleRepo)
  : JS.ExecOutcome * SampleRepo :=
  if String.eqb command "git branch --show-current" then
    (JS.Returned (current_branch r ++ BranchManager.LF), r)
  else if String.eqb command (BranchManager.merge_command conflicting) then
    (JS.Threw ("Command failed: " ++ command) (Some 1%Z) "",
     mkSampleRepo (current_branch r) (MergeInProgress conflicting))
  else if String.eqb command "git merge --abort" then
    (JS.Returned "", mkSampleRepo (current_branch r) Clean)
  else (JS.Returned "", r).

(** On [main], with a clean tree, and an operator who answers [y]. *)
Definition sample_repo_world : BranchManager.World SampleRepo :=
  BranchManager.mkWorld SampleRepo (mkSampleRepo "main" Clean) (fun _ => "y") 0 [] [].

(** The ceilings of the table [SECURITY_CONFIG.maxAge], in days. *)
Definition sla_table : list (string * Z) :=
  [("critical", 7%Z); ("high", 30%Z); ("moderate", 90%Z); ("low", 365%Z)].

(** Sample data: a manifest that lists [lodash] at 1.0.0 and [axios] at
    0.21.0, and an outdated [axios]. *)
Definition two_package_manifest (lodash axios : string) : DependencyManager.Manifest.t :=
  DependencyManager.Manifest.mk (Some (<["lodash" := lodash]> (<["axios" := axios]> ∅))) None.

Definition axios_outdated : DependencyManager.OutdatedInfo.t :=
  DependencyManager.OutdatedInfo.mk (Some "0.21.0") (Some "0.21.4") (Some "1.6.0").

(** The world after one command was run in [cwd] and [lines] were
    printed. *)
Definition world_after_command (command cwd : string)
  (lines : list DependencyManager.ConsoleLine) (w : DependencyManager.World)
  : DependencyManager.World :=
  DependencyManager.mkWorld
    (DependencyManager.fs w) (DependencyManager.answers w) (DependencyManager.asked w)
    (DependencyManager.effects w ++ [DependencyManager.Exec command cwd])
    (DependencyManager.testLog w) (DependencyManager.console w ++ lines).



(** The package names of a dependency map. *)
Definition names_of (deps : option (gmap string string)) : option (gset string) :=
  dom <$> deps.

(** The world after [writePackageJson] wrote [content] to [path]. *)
Definition world_after_write (path : string) (content : DependencyManager.Manifest.t)
  (w : DependencyManager.World) : DependencyManager.World :=
  DependencyManager.mkWorld
    (<[path := content]> (DependencyManager.fs w))
    (DependencyManager.answers w) (DependencyManager.asked w)
    (DependencyManager.effects w ++ [DependencyManager.WriteFile path content])
    (DependencyManager.testLog w) (DependencyManager.console w).

(** Sample hosts: one on which [npm install] fails, one on which no file
    can be written. *)
Definition install_fails
  : DependencyManager.World -> string -> string -> JS.ExecOutcome :=
  fun _ command _ =>
    if String.eqb command "npm install"
    then JS.Threw "Command failed: npm install" (Some 1%Z) ""
    else JS.Returned "".


(** The security update for [lodash_vulnerability]. *)
Definition lodash_update : DependencyManager.Update.t :=
  DependencyManager.security_update
    (DependencyManager.analyzeVulnerability scan_time (Some "GHSA-1") lodash_vulnerability)
    lodash_vulnerability.

(** The version an update writes into the manifest, if it writes one: the
    patched version of a security update, the caret range of the latest
    version of an outdated package. *)
Definition target_of (u : DependencyManager.Update.t) : option string :=
  if DependencyManager.is_security u && JS.truthy_field (DependencyManager.Update.patched u)
     && negb (String.eqb (default "" (DependencyManager.Update.patched u)) "none")
  then Some (default "" (DependencyManager.Update.patched u))
  else if negb (DependencyManager.is_security u)
          && JS.truthy_field (DependencyManager.Update.latest u)
  then Some ("^" ++ DependencyManager.show (DependencyManager.Update.latest u))
  else None.

(** What one update does to one dependency map. *)
Definition assign_map (deps : option (gmap string string)) (u : DependencyManager.Update.t)
  : option (gmap string string) :=
  match target_of u with
  | Some target =>
      fst (DependencyManager.assign_if_listed deps (DependencyManager.Update.package u) target)
  | None => deps
  end.

(** A dependency map has an entry for a name. *)
Definition has_entry (deps : option (gmap string string)) (name : string) : Prop :=
  is_Some (deps ≫= (fun d => d !! name)).

(** A later update of [updates] writes the entry of the package of [u]. *)
Definition overridden (updates : list DependencyManager.Update.t)
  (u : DependencyManager.Update.t) : bool :=
  existsb
    (fun v =>
       String.eqb (DependencyManager.Update.package v) (DependencyManager.Update.package u)
       && bool_decide (is_Some (target_of v)))
    updates.

(** The vulnerabilities for which [updateDependencies] plans a security
    update: under the Auto policy those that the analyzer marks for
    automatic update, and in every mode only those whose module is not
    excluded. *)
Definition planned (excludePackages : list string) (now : Z) (mode : DependencyManager.Mode)
  (entry : string * DependencyManager.VulnData.t) : bool :=
  let analysis := DependencyManager.analyzeVulnerability now (Some (fst entry)) (snd entry) in
  negb (DependencyManager.is_auto mode
        && negb (DependencyManager.Analysis.shouldAutoUpdate analysis))
  && negb (JS.array_includes excludePackages (DependencyManager.Analysis.module analysis)).

Definition planned_update (now : Z) (entry : string * DependencyManager.VulnData.t)
  : DependencyManager.Update.t :=
  DependencyManager.security_update
    (DependencyManager.analyzeVulnerability now (Some (fst entry)) (snd entry)) (snd entry).

(** The answer [ask] returns for the question number [n]. *)
Definition answer_at (w : DependencyManager.World) (n : nat) : string :=
  JS.toLowerCase (JS.trim (DependencyManager.answers w n)).

(** Two worlds that differ at most in the number of questions asked. *)
Definition same_but_asked (w w' : DependencyManager.World) : Prop :=
  DependencyManager.fs w' = DependencyManager.fs w
  /\ DependencyManager.answers w' = DependencyManager.answers w
  /\ DependencyManager.effects w' = DependencyManager.effects w
  /\ DependencyManager.testLog w' = DependencyManager.testLog w
  /\ DependencyManager.console w' = DependencyManager.console w.

(** Vocabulary for the report: the vulnerabilities of all packages, the
    number of those that the analyzer gives a severity, and the entry and
    the score of a package. *)
Definition all_vulnerabilities (scanResults : list (string * SecurityReport.ScanData.t))
  : list DependencyManager.VulnData.t :=
  concat (map (fun e => map snd (SecurityReport.ScanData.vulnerabilities (snd e))) scanResults).

Definition all_outdated (scanResults : list (string * SecurityReport.ScanData.t))
  : list string :=
  concat (map (fun e => map fst (SecurityReport.ScanData.outdated (snd e))) scanResults).

Definition count_severity (now : Z) (severity : string)
  (vulns : list DependencyManager.VulnData.t) : Z :=
  Z.of_nat
    (length
       (List.filter
          (fun v =>
             String.eqb
               (DependencyManager.Analysis.severity
                  (DependencyManager.analyzeVulnerability now
                     (DependencyManager.VulnData.id v) v))
               severity)
          vulns)).

Definition package_score (now : Z) (e : string * SecurityReport.ScanData.t) : Z :=
  DependencyManager.calculateSecurityScore now
    (SecurityReport.ScanData.vulnerabilities (snd e))
    (SecurityReport.ScanData.outdated (snd e)).

Definition package_entry (now : Z) (e : string * SecurityReport.ScanData.t)
  : string * SecurityReport.PackageReport.t :=
  (fst e,
   SecurityReport.PackageReport.mk
     (Z.of_nat (length (SecurityReport.ScanData.vulnerabilities (snd e))))
     (Z.of_nat (length (SecurityReport.ScanData.outdated (snd e))))
     (package_score now e)
     (SecurityReport.ScanData.vulnerabilities (snd e))
     (SecurityReport.ScanData.outdated (snd e))).

Definition sum_Z (l : list Z) : Z := fold_right Z.add 0%Z l.

Definition is_write_report (a : SecurityReport.FileAction) : bool :=
  match a with SecurityReport.WriteReport _ _ => true | _ => false end.

Definition is_mkdir (a : SecurityReport.FileAction) : bool :=
  match a with SecurityReport.Mkdir _ => true | _ => false end.

(** The answer [ask] of the branch manager returns for question [n]. *)
Definition branch_answer_at {Repo : Type} (w : BranchManager.World Repo) (n : nat) : string :=
  JS.toLowerCase (JS.trim (BranchManager.answers Repo w n)).

(** The commands of [getBranchDetails]. *)
Definition details_commands (branchName : string) : list string :=
  [ "git log --oneline " ++ branchName ++ " ^main | head -5";
    "git diff --name-only main..." ++ branchName;
    "git diff --stat main..." ++ branchName ].

(** A sample git whose listings show one remote and one local security
    branch. *)
Definition listing_git (command : string) (r : SampleRepo) : JS.ExecOutcome * SampleRepo :=
  if String.eqb command "git branch -r" then
    (JS.Returned ("  origin/main" ++ BranchManager.LF ++ "  origin/aikido/fix-lodash"
                  ++ BranchManager.LF), r)
  else if String.eqb command "git branch" then
    (JS.Returned ("* main" ++ BranchManager.LF ++ "  security/manual-patch"
                  ++ BranchManager.LF), r)
  else sample_git "" command r.

(** A computation ends in the merge step, reached after the commands
    [pre], or completes without success. *)
Definition merges_after_or_stops {Repo : Type}
  (run : string -> Repo -> JS.ExecOutcome * Repo) (branchName : string)
  (m : BranchManager.M Repo BranchManager.Completion) : Prop :=
  forall w,
    (exists w1 pre,
        m w = BranchManager.merge_step Repo run branchName w1
        /\ BranchManager.commands Repo w1 = (BranchManager.commands Repo w ++ pre)%list)
    \/ fst (m w) <> BranchManager.Resolved true.

(** A sample git that answers from a script: the outcome listed for the
    command, success without output for any other command.  It leaves the
    repository as it is. *)
Fixpoint scripted_outcome (script : list (string * JS.ExecOutcome)) (command : string)
  : JS.ExecOutcome :=
  match script with
  | [] => JS.Returned ""
  | (c, o) :: rest => if String.eqb c command then o else scripted_outcome rest command
  end.

Definition scripted_git (script : list (string * JS.ExecOutcome)) (command : string)
  (r : SampleRepo) : JS.ExecOutcome * SampleRepo :=
  (scripted_outcome script command, r).

Definition on_feature_branch : string * JS.ExecOutcome :=
  ("git branch --show-current", JS.Returned ("feature" ++ BranchManager.LF)).

(** An operator who answers [n] to everything. *)
Definition declining_world : BranchManager.World SampleRepo :=
  BranchManager.mkWorld SampleRepo (mkSampleRepo "feature" Clean) (fun _ => "n") 0 [] [].

(** An operator who answers [y] to everything, on the branch [feature]. *)
Definition agreeing_world : BranchManager.World SampleRepo :=
  BranchManager.mkWorld SampleRepo (mkSampleRepo "feature" Clean) (fun _ => "y") 0 [] [].

(** The two listing commands of [listSecurityBranches]. *)
Definition listing_commands : list string := ["git branch -r"; "git branch"].

(** The numeral with the decimal digits [ds], and the number it denotes. *)
Definition digit_char (d : nat) : ascii := ascii_of_nat (48 + d).

Fixpoint numeral (ds : list nat) : string :=
  match ds with
  | [] => EmptyString
  | d :: rest => String (digit_char d) (numeral rest)
  end.

Definition number_of (ds : list nat) : Z :=
  fold_left (fun acc d => (acc * 10 + Z.of_nat d)%Z) ds 0%Z.

Definition is_decimal_digit (c : ascii) : bool :=
  ((48 <=? nat_of_ascii c)%nat && (nat_of_ascii c <=? 57)%nat)%bool.

(** The string starts with a decimal digit. *)
Definition starts_with_digit (rest : string) : bool :=
  match rest with
  | EmptyString => false
  | String c _ => is_decimal_digit c
  end.


(** A session on the host [h] that has loaded nothing yet. *)
Definition new_session {AikidoVuln Host : Type} (h : Host) : Dashboard.World AikidoVuln Host :=
  Dashboard.mkWorld h (fun _ => "") 0 [] [] [].

(** What [loadSecurityData] finds on the host [h]. *)
Definition findings_on {AikidoVuln Host Metadata : Type}
  (run : string -> Host -> JS.ExecOutcome * Host)
  (reports_directory : Host -> Dashboard.Directory)
  (read_report : Host -> string -> option (Dashboard.Report AikidoVuln))
  (JSON_parse : string -> option (DependencyManager.AuditJSON Metadata))
  (h : Host) : list (Dashboard.Finding AikidoVuln) :=
  Dashboard.pendingFixes
    (snd (Dashboard.loadSecurityData run reports_directory read_report JSON_parse
            (new_session h))).


(** A sample host: one remote Dependabot branch, two Aikido reports, and
    an audit that exits with code 1 and reports one vulnerability.  No
    command changes it. *)
Definition sample_host (command : string) (h : unit) : JS.ExecOutcome * unit :=
  if String.eqb command "git branch -r" then
    (JS.Returned ("  origin/main" ++ BranchManager.LF
                  ++ "  origin/dependabot/npm_and_yarn/lodash-4.17.21" ++ BranchManager.LF), h)
  else if String.eqb command "npm audit --json" then
    (JS.Threw "Command failed: npm audit --json" (Some 1%Z) "{vulnerabilities:{lodash:{}}}", h)
  else (JS.Returned "", h).

Definition sample_reports (h : unit) : Dashboard.Directory :=
  Dashboard.Entries ["aikido-2026-01.json"; "summary.txt"; "aikido-2026-02.json"].

Definition sample_read_report (h : unit) (file : string) : option (Dashboard.Report string) :=
  if String.eqb file "aikido-2026-02.json"
  then Some (Dashboard.ReportArray [Some "SQL injection"; None; Some "Open redirect"])
  else None.

Definition sample_JSON_parse (text : string) : option (DependencyManager.AuditJSON unit) :=
  if String.eqb text "{vulnerabilities:{lodash:{}}}"
  then Some (DependencyManager.JsonObject (Some [("lodash", lodash_vulnerability)]) None None)
  else None.


(** The commands that [mergeAikidoBranch] may run once the question of
    the switch is settled. *)
Definition commands_after_switch (branchName : string) : list string :=
  (details_commands branchName
   ++ [BranchManager.merge_command branchName; BranchManager.delete_command branchName])%list.

(** The encoding of U+00A0, the no-break space. *)
Definition no_break_space : string :=
  String (ascii_of_nat 194) (String (ascii_of_nat 160) EmptyString).

(** * Properties *)

(** ** The security score *)

Section Score.

Import DependencyManager.

Variable now : Z.

Lemma severity_deduction_range severity :
  (0 <= severity_deduction severity <= 25)%Z.
Proof.
  unfold severity_deduction.
  repeat (destruct (String.eqb severity _); [lia|]); lia.
Qed.

(** One vulnerability lowers the running score by an amount that depends
    on the vulnerability alone. *)
Lemma score_vuln_deduction vuln :
  exists d, (0 <= d <= 35)%Z /\ forall score, score_vuln now score vuln = (score - d)%Z.
Proof.
  unfold score_vuln.
  pose proof (severity_deduction_range (Analysis.severity (analyzeVulnerability now (VulnData.id vuln) vuln))) as Hr.
  destruct (Analysis.isStale (analyzeVulnerability now (VulnData.id vuln) vuln)).
  - eexists; split; [|intros score; rewrite <- Z.sub_add_distr; reflexivity]. lia.
  - eexists; split; [|intros score; reflexivity]. lia.
Qed.

(** The [forEach] loop subtracts the sum of the deductions. *)
Lemma score_loop_deduction (vulns : list VulnData.t) :
  exists d, (0 <= d)%Z /\ forall score, fold_left (score_vuln now) vulns score = (score - d)%Z.
Proof.
  induction vulns as [|vuln vulns IH]; simpl.
  - exists 0%Z. split; [lia|]. intros; lia.
  - destruct IH as (d & Hd & IH).
    destruct (score_vuln_deduction vuln) as (d1 & Hd1 & H1).
    exists (d1 + d)%Z. split; [lia|].
    intros score. rewrite IH, H1. lia.
Qed.

Lemma score_loop_app (l1 l2 : list VulnData.t) score :
  fold_left (score_vuln now) (l1 ++ l2) score
  = fold_left (score_vuln now) l2 (fold_left (score_vuln now) l1 score).
Proof. apply fold_left_app. Qed.

(** C2. For every vulnerability set and every map of outdated packages,
    [calculateSecurityScore] returns an integer between 0 and 100, and it
    returns exactly 100 when there is no vulnerability and no outdated
    package. *)
Theorem calculateSecurityScore_range :
  forall (vulns : Vulns) (outdated : Outdated),
    (0 <= calculateSecurityScore now vulns outdated <= 100)%Z
    /\ calculateSecurityScore now [] [] = 100%Z.
Proof.
  intros vulns outdated. split; [|reflexivity].
  unfold calculateSecurityScore.
  destruct (score_loop_deduction (map snd vulns)) as (d & Hd & ->).
  lia.
Qed.

(** C9. Adding one more vulnerability, of any severity and at any place
    of the vulnerability object, never increases the score. *)
Theorem calculateSecurityScore_monotone :
  forall (before after : Vulns) (key : string) (vuln : VulnData.t) (outdated : Outdated),
    (calculateSecurityScore now (before ++ (key, vuln) :: after)%list outdated
     <= calculateSecurityScore now (before ++ after)%list outdated)%Z.
Proof.
  intros before after key vuln outdated.
  unfold calculateSecurityScore.
  rewrite !map_app. simpl. rewrite !score_loop_app. simpl.
  destruct (score_vuln_deduction vuln) as (d1 & Hd1 & ->).
  destruct (score_loop_deduction (map snd after)) as (d & Hd & Hl).
  rewrite !Hl. lia.
Qed.

End Score.

(** ** Severities outside the table *)

Section UnlistedSeverity.

Import DependencyManager.

Variable now : Z.

Lemma maxAge_low : JS.get SECURITY_CONFIG_maxAge "low" = JS.Own 365%Z.
Proof. reflexivity. Qed.

Lemma maxAge_unlisted severity :
  ~ listed_severity severity ->
  JS.get SECURITY_CONFIG_maxAge severity
  = if JS.inherited severity then JS.Proto else JS.Undefined.
Proof.
  intros Hn. unfold listed_severity in Hn.
  unfold JS.get, SECURITY_CONFIG_maxAge.
  rewrite !lookup_insert_ne by (intros <-; tauto).
  rewrite lookup_empty. reflexivity.
Qed.

Lemma severity_deduction_unlisted severity :
  ~ listed_severity severity -> severity_deduction severity = 0%Z.
Proof.
  intros Hn. unfold listed_severity in Hn. unfold severity_deduction.
  repeat match goal with
         | |- context [String.eqb ?a ?b] =>
             destruct (String.eqb_spec a b) as [Heq|_]; [exfalso; apply Hn; auto 10|]
         end.
  reflexivity.
Qed.

Lemma shouldAutoUpdate_unlisted severity :
  ~ listed_severity severity ->
  JS.array_includes SECURITY_CONFIG_autoUpdateLevels severity = false.
Proof.
  intros Hn. unfold listed_severity in Hn.
  unfold JS.array_includes, SECURITY_CONFIG_autoUpdateLevels. simpl.
  repeat match goal with
         | |- context [String.eqb ?a ?b] =>
             destruct (String.eqb_spec a b) as [Heq|_]; [exfalso; apply Hn; auto 10|]
         end.
  reflexivity.
Qed.

(** A severity that is neither in the table nor the name of a member of
    [Object.prototype] gets the ceiling of [low], is not eligible for
    automatic updates, and costs nothing but the deduction for a stale
    record. *)
Lemma unlisted_severity_analysis (vulnId : option string) (vulnData : VulnData.t) :
  let analysis := analyzeVulnerability now vulnId vulnData in
  ~ listed_severity (Analysis.severity analysis) ->
  JS.inherited (Analysis.severity analysis) = false ->
  Analysis.maxAge analysis = JS.Own 365%Z
  /\ Analysis.isStale analysis = js_gt (Analysis.ageInDays analysis) (JS.Own 365%Z)
  /\ Analysis.shouldAutoUpdate analysis = false
  /\ forall score,
       score_vuln now score vulnData
       = if js_gt (Analysis.ageInDays analysis) (JS.Own 365%Z)
         then (score - 10)%Z else score.
Proof.
  intros analysis Hn Hi. subst analysis.
  unfold score_vuln, analyzeVulnerability in *.
  cbn [Analysis.severity Analysis.maxAge Analysis.isStale
       Analysis.shouldAutoUpdate Analysis.ageInDays] in *.
  set (severity := JS.or_default (VulnData.severity vulnData) "unknown") in *.
  rewrite (maxAge_unlisted _ Hn), Hi, maxAge_low.
  rewrite (shouldAutoUpdate_unlisted _ Hn), (severity_deduction_unlisted _ Hn).
  change (or_value JS.Undefined (JS.Own 365%Z)) with (JS.Own 365%Z).
  repeat split; try reflexivity.
  intros score. rewrite Z.sub_0_r. reflexivity.
Qed.

(** An absent severity is read as [unknown], which is such a severity. *)
Lemma absent_severity_unknown (vulnId : option string) (vulnData : VulnData.t) :
  VulnData.severity vulnData = None ->
  Analysis.severity (analyzeVulnerability now vulnId vulnData) = "unknown"
  /\ Analysis.maxAge (analyzeVulnerability now vulnId vulnData) = JS.Own 365%Z.
Proof.
  intros H. unfold analyzeVulnerability. simpl. rewrite H. split; reflexivity.
Qed.

End UnlistedSeverity.

(** C10. At the severity [constructor], which is none of critical, high,
    moderate and low, the analyzer does not use the ceiling of 365 days:
    the table lookup yields a member of [Object.prototype], the record is
    400 days old and is not stale, and the score stays at 100.  With the
    severity [info] the same record has the ceiling 365, is stale and
    costs 10 points. *)
Theorem unlisted_severity_prototype_member :
  let a := DependencyManager.analyzeVulnerability scan_time None (old_record "constructor") in
  let b := DependencyManager.analyzeVulnerability scan_time None (old_record "info") in
  DependencyManager.Analysis.ageInDays a = Some 400%Z
  /\ DependencyManager.Analysis.maxAge a = JS.Proto
  /\ DependencyManager.Analysis.isStale a = false
  /\ DependencyManager.calculateSecurityScore scan_time [("GHSA-1", old_record "constructor")] [] = 100%Z
  /\ DependencyManager.Analysis.maxAge b = JS.Own 365%Z
  /\ DependencyManager.Analysis.isStale b = true
  /\ DependencyManager.calculateSecurityScore scan_time [("GHSA-1", old_record "info")] [] = 90%Z.
Proof. vm_compute. repeat split; reflexivity. Qed.

(** ** Scanning *)

Section Scanning.

Import DependencyManager.

Variable execSync_outcome : World -> string -> string -> JS.ExecOutcome.
Variable Metadata : Type.
Variable JSON_parse_audit : string -> option (AuditJSON Metadata).

(** [execCommand] keeps the output of a process only when [execSync]
    returns. *)
Lemma execCommand_threw command cwd w message status stdout :
  execSync_outcome w command cwd = JS.Threw message status stdout ->
  fst (execCommand execSync_outcome command cwd w)
  = CommandResult.mk false None (Some message).
Proof.
  intros H. unfold execCommand, bind, execSync, perform, ret. rewrite H. reflexivity.
Qed.

(** A scan whose audit process exits with code 0 and prints a report
    that [JSON.parse] reads as an object returns the vulnerabilities of
    that report, without a warning. *)
Lemma scanVulnerabilities_exit_zero packageDir w text vulnerabilities metadata version :
  execSync_outcome w "npm audit --json" packageDir = JS.Returned text ->
  JSON_parse_audit text = Some (JsonObject (Some vulnerabilities) metadata version) ->
  ScanResult.vulnerabilities
    (fst (scanVulnerabilities execSync_outcome Metadata JSON_parse_audit packageDir w))
  = vulnerabilities
  /\ snd (scanVulnerabilities execSync_outcome Metadata JSON_parse_audit packageDir w)
     = scan_world_after packageDir [] w.
Proof.
  intros Ho Hp.
  unfold scanVulnerabilities, execCommand, bind, execSync, perform, ret. rewrite Ho.
  simpl. rewrite Hp. simpl. unfold scan_world_after. rewrite app_nil_r.
  split; reflexivity.
Qed.

(** Output that [JSON.parse] rejects gives the empty set and a warning. *)
Lemma scanVulnerabilities_unparsable packageDir w text :
  execSync_outcome w "npm audit --json" packageDir = JS.Returned text ->
  JSON_parse_audit text = None ->
  scanVulnerabilities execSync_outcome Metadata JSON_parse_audit packageDir w
  = (empty_scan Metadata, scan_world_after packageDir [WarnAuditUnparsable packageDir] w).
Proof.
  intros Ho Hp.
  unfold scanVulnerabilities, execCommand, bind, execSync, perform, ret, console_line.
  rewrite Ho. simpl. rewrite Hp. reflexivity.
Qed.

(** C1. Whenever [execSync] throws for the audit command, be it for a
    process that could not be launched or for one that exits with a
    non-zero code after printing a report, [scanVulnerabilities] returns
    the empty vulnerability set with the warning that the audit failed:
    what the process printed is never handed to [JSON.parse].  The sibling
    [loadNpmAuditResults] of the interactive manager reads the report of
    such a process from the error. *)
Theorem scanVulnerabilities_discards_failed_audit :
  forall (packageDir : string) (w : World),
    match execSync_outcome w "npm audit --json" packageDir with
    | JS.Threw message status stdout =>
        scanVulnerabilities execSync_outcome Metadata JSON_parse_audit packageDir w
        = (empty_scan Metadata,
           scan_world_after packageDir [WarnAuditFailed packageDir (Some message)] w)
        /\ forall vulnerabilities metadata version,
             JS.truthy_string stdout = true ->
             JSON_parse_audit stdout
             = Some (JsonObject (Some vulnerabilities) metadata version) ->
             InteractiveManager.loadNpmAuditResults Metadata JSON_parse_audit
               (JS.Threw message status stdout) = vulnerabilities
    | JS.Returned _ => True
    end.
Proof.
  intros packageDir w.
  destruct (execSync_outcome w "npm audit --json" packageDir) as [text|message status stdout] eqn:Ho;
    [exact I|].
  split.
  - unfold scanVulnerabilities, execCommand, bind, execSync, perform, ret, console_line.
    rewrite Ho. reflexivity.
  - intros vulnerabilities metadata version Ht Hp.
    unfold InteractiveManager.loadNpmAuditResults, InteractiveManager.parse_error_stdout.
    rewrite Ht, Hp. reflexivity.
Qed.

End Scanning.

(** ** Dry runs *)

Section DryRun.

Import DependencyManager.

Variable isAutoUpdate isForceUpdate scanOnly : bool.
Variable excludePackages : list string.
Variable now : Z.
Variable execSync_outcome : World -> string -> string -> JS.ExecOutcome.
Variable writeFileSync_ok : World -> string -> bool.
Variable Metadata : Type.
Variable JSON_parse_audit : string -> option (AuditJSON Metadata).
Variable JSON_parse_outdated : string -> option Outdated.

(** Scanning, with or without --dry-run, runs one command, which is not
    [npm install], and writes no file. *)
Lemma scanVulnerabilities_effects packageDir w :
  effects (snd (scanVulnerabilities execSync_outcome Metadata JSON_parse_audit packageDir w))
  = (effects w ++ [Exec "npm audit --json" packageDir])%list
  /\ fs (snd (scanVulnerabilities execSync_outcome Metadata JSON_parse_audit packageDir w)) = fs w.
Proof.
  unfold scanVulnerabilities, execCommand, execSync, console_line, ret.
  cbv beta iota delta [bind perform].
  destruct (execSync_outcome w "npm audit --json" packageDir) as [text|message status stdout];
    cbn; [|split; reflexivity].
  destruct (JSON_parse_audit text) as [[| |vulnerabilities metadata version]|];
    split; reflexivity.
Qed.

Lemma checkOutdatedPackages_effects packageDir w :
  effects (snd (checkOutdatedPackages execSync_outcome JSON_parse_outdated packageDir w))
  = (effects w ++ [Exec "npm outdated --json" packageDir])%list
  /\ fs (snd (checkOutdatedPackages execSync_outcome JSON_parse_outdated packageDir w)) = fs w.
Proof.
  unfold checkOutdatedPackages, execCommand, execSync, console_line, ret.
  cbv beta iota delta [bind perform].
  destruct (execSync_outcome w "npm outdated --json" packageDir) as [text|message status stdout];
    cbn; [|split; reflexivity].
  destruct (JS.truthy_string text); [|split; reflexivity].
  destruct (JSON_parse_outdated text); split; reflexivity.
Qed.

Lemma quiet_ret {A : Type} (a : A) : quiet (ret a).
Proof. intros w. split; reflexivity. Qed.

Lemma quiet_bind {A B : Type} (m : M A) (k : A -> M B) :
  quiet m -> (forall a, quiet (k a)) -> quiet (bind m k).
Proof.
  intros Hm Hk w. unfold bind.
  destruct (m w) as [a w1] eqn:E.
  destruct (Hm w) as [H1 H2]. rewrite E in H1, H2. simpl in H1, H2.
  destruct (Hk a w1) as [H3 H4]. split; congruence.
Qed.

Lemma quiet_testLog_push line : quiet (testLog_push line).
Proof. intros w. split; reflexivity. Qed.

Lemma quiet_console_line l : quiet (console_line l).
Proof. intros w. split; reflexivity. Qed.

Lemma quiet_ask : quiet ask.
Proof. intros w. split; reflexivity. Qed.

Lemma quiet_getPackageJson filePath : quiet (getPackageJson filePath).
Proof. intros w. split; reflexivity. Qed.

Create HintDb quiet.

#[local] Hint Resolve quiet_ret quiet_testLog_push quiet_console_line quiet_ask
  quiet_getPackageJson : quiet.

Ltac quiet_step :=
  repeat first
    [ solve [auto with quiet]
    | apply quiet_bind; [auto with quiet | intros ?]
    | match goal with
      | |- quiet (match ?x with _ => _ end) => destruct x
      | |- quiet (if ?b then _ else _) => destruct b
      | |- quiet (let (_, _) := ?p in _) => destruct p
      end ].

(** In a dry run [writePackageJson] pushes one line on [testLog] and does
    nothing else. *)
Lemma writePackageJson_dry filePath content w :
  writePackageJson true writeFileSync_ok filePath content w
  = (true,
     mkWorld (fs w) (answers w) (asked w) (effects w)
             (testLog w ++ ["[DRY] Would update: " ++ filePath]) (console w)).
Proof. reflexivity. Qed.

Lemma quiet_writePackageJson_dry filePath content :
  quiet (writePackageJson true writeFileSync_ok filePath content).
Proof. intros w. rewrite writePackageJson_dry. split; reflexivity. Qed.

Lemma quiet_applyUpdates_dry packageDir updates :
  quiet (applyUpdates true execSync_outcome writeFileSync_ok packageDir updates).
Proof.
  unfold applyUpdates. destruct updates as [|u us]; [apply quiet_ret|].
  pose proof quiet_writePackageJson_dry as Hw.
  cbn [negb]. quiet_step.
Qed.

Lemma quiet_select_updates updates selected :
  quiet (select_updates updates selected).
Proof.
  revert selected. induction updates as [|u us IH]; intros selected; simpl.
  - apply quiet_ret.
  - quiet_step; apply IH.
Qed.

Lemma quiet_interactiveUpdate_dry packageDir updates :
  quiet (interactiveUpdate true execSync_outcome writeFileSync_ok packageDir updates).
Proof.
  unfold interactiveUpdate.
  apply quiet_bind; [apply quiet_select_updates|]. intros sel.
  destruct sel; [apply quiet_ret | apply quiet_applyUpdates_dry].
Qed.

Lemma quiet_updateDependencies_dry packageDir vulns outdated mode :
  quiet (updateDependencies true isAutoUpdate isForceUpdate excludePackages now
           execSync_outcome writeFileSync_ok packageDir vulns outdated mode).
Proof.
  unfold updateDependencies.
  pose proof quiet_applyUpdates_dry as Ha.
  pose proof quiet_interactiveUpdate_dry as Hi.
  quiet_step.
Qed.

Lemma quiet_update_each_dry packages :
  quiet (update_each true isAutoUpdate isForceUpdate excludePackages now
           execSync_outcome writeFileSync_ok packages).
Proof.
  induction packages as [|[[dir vulns] outdatedData] rest IH]; simpl.
  - apply quiet_ret.
  - pose proof quiet_updateDependencies_dry as Hu.
    apply quiet_bind; [|intros _; exact IH].
    quiet_step.
Qed.

(** C7. With --dry-run, whatever the policy, the findings, the manifests
    on disk and the answers of the operator: [writePackageJson] only adds
    a line to the dry-run log, and [applyUpdates], [updateDependencies] and
    the update loop of [main] call neither [fs.writeFileSync] nor
    [execSync]: the list of effects (manifest writes and child processes,
    [npm install] among them) and the manifests are as they were.  The two
    scanning functions run their query, [npm audit --json] or
    [npm outdated --json], and nothing else. *)
Theorem dry_run_writes_and_installs_nothing :
  forall (packageDir filePath : string) (content : Manifest.t)
         (updates : list Update.t) (vulns : Vulns) (outdated : Outdated) (mode : Mode)
         (packages : list (string * Vulns * Outdated)) (w : World),
    writePackageJson true writeFileSync_ok filePath content w
    = (true,
       mkWorld (fs w) (answers w) (asked w) (effects w)
               (testLog w ++ ["[DRY] Would update: " ++ filePath]) (console w))
    /\ quiet (applyUpdates true execSync_outcome writeFileSync_ok packageDir updates)
    /\ quiet (updateDependencies true isAutoUpdate isForceUpdate excludePackages now
                execSync_outcome writeFileSync_ok packageDir vulns outdated mode)
    /\ quiet (main_updates true isAutoUpdate isForceUpdate excludePackages now
                execSync_outcome writeFileSync_ok scanOnly packages)
    /\ effects (snd (scanVulnerabilities execSync_outcome Metadata JSON_parse_audit packageDir w))
       = (effects w ++ [Exec "npm audit --json" packageDir])%list
    /\ effects (snd (checkOutdatedPackages execSync_outcome JSON_parse_outdated packageDir w))
       = (effects w ++ [Exec "npm outdated --json" packageDir])%list.
Proof.
  intros. split; [apply writePackageJson_dry|].
  split; [apply quiet_applyUpdates_dry|].
  split; [apply quiet_updateDependencies_dry|].
  split; [|split; [apply scanVulnerabilities_effects | apply checkOutdatedPackages_effects]].
  unfold main_updates. destruct scanOnly; simpl.
  - apply quiet_ret.
  - apply quiet_update_each_dry.
Qed.

End DryRun.

(** ** The Auto policy *)

Section AutoPolicy.

Import DependencyManager.

Variable isDryRun isAutoUpdate isForceUpdate : bool.
Variable excludePackages : list string.
Variable now : Z.
Variable execSync_outcome : World -> string -> string -> JS.ExecOutcome.
Variable writeFileSync_ok : World -> string -> bool.

Lemma autoUpdateLevels_includes severity :
  JS.array_includes SECURITY_CONFIG_autoUpdateLevels severity = true ->
  severity = "critical" \/ severity = "high".
Proof.
  unfold JS.array_includes, SECURITY_CONFIG_autoUpdateLevels. simpl.
  destruct (String.eqb_spec severity "critical"); [auto|].
  destruct (String.eqb_spec severity "high"); [auto|].
  discriminate.
Qed.

Lemma collect_outdated_auto outdated updates :
  collect_outdated ModeAuto outdated updates = updates.
Proof.
  revert updates. induction outdated as [|[packageName packageInfo] rest IH]; intros updates.
  - reflexivity.
  - simpl. apply IH.
Qed.

Lemma collect_security_auto_eligible (all entries : Vulns) (updates : list Update.t) :
  (forall e, In e entries -> In e all) ->
  Forall (auto_eligible excludePackages now all) updates ->
  Forall (auto_eligible excludePackages now all)
         (collect_security excludePackages now ModeAuto entries updates).
Proof.
  revert updates. induction entries as [|[vulnId vulnData] rest IH]; intros updates Hsub Hacc.
  - exact Hacc.
  - assert (Hrest : forall e, In e rest -> In e all) by (intros e He; apply Hsub; right; exact He).
    cbn [collect_security is_auto andb].
    destruct (Analysis.shouldAutoUpdate (analyzeVulnerability now (Some vulnId) vulnData)) eqn:Hs;
      cbn [negb]; [|apply IH; assumption].
    destruct (JS.array_includes excludePackages
                (Analysis.module (analyzeVulnerability now (Some vulnId) vulnData))) eqn:He;
      [apply IH; assumption|].
    apply IH; [assumption|].
    apply Forall_app. split; [exact Hacc|].
    constructor; [|constructor].
    unfold auto_eligible. split; [reflexivity|]. split.
    + apply autoUpdateLevels_includes in Hs.
      destruct Hs as [Hs|Hs]; [left|right]; simpl; f_equal; exact Hs.
    + split; [exact He|].
      exists vulnId, vulnData. split; [apply Hsub; left; reflexivity | reflexivity].
Qed.

Lemma auto_plan_eligible vulns outdated :
  Forall (auto_eligible excludePackages now vulns) (auto_plan excludePackages now vulns outdated).
Proof.
  unfold auto_plan. rewrite collect_outdated_auto.
  apply collect_security_auto_eligible; [auto | constructor].
Qed.

Lemma filter_all_security (updates : list Update.t) :
  Forall (fun u => Update.type u = security) updates ->
  filter (fun u => is_security u = true) updates = updates.
Proof.
  induction 1 as [|u us Hu _ IH]; [reflexivity|].
  rewrite filter_cons_True by (unfold is_security; rewrite Hu; reflexivity).
  rewrite IH. reflexivity.
Qed.

(** Assignments touch the entry of the updated package only. *)
Lemma set_lookup_other (d : gmap string string) name target other :
  name <> other -> JS.set d name target !! other = d !! other.
Proof.
  intros Hne. unfold JS.set.
  destruct (d !! name); [apply lookup_insert_ne; exact Hne|].
  destruct (String.eqb name "__proto__"); [reflexivity|].
  apply lookup_insert_ne; exact Hne.
Qed.

Lemma assign_if_listed_other deps name target other :
  name <> other ->
  fst (assign_if_listed deps name target) ≫= (fun d => d !! other)
  = deps ≫= (fun d => d !! other).
Proof.
  intros Hne. unfold assign_if_listed.
  destruct deps as [d|]; [|reflexivity].
  destruct (JS.truthy_value JS.truthy_string (JS.get d name)); [|reflexivity].
  simpl. apply set_lookup_other; exact Hne.
Qed.

Lemma assign_both_other content name target other :
  name <> other ->
  constraints (Some (fst (assign_both content name target))) other
  = constraints (Some content) other.
Proof.
  intros Hne. unfold assign_both.
  pose proof (assign_if_listed_other (Manifest.dependencies content) name target other Hne) as H1.
  pose proof (assign_if_listed_other (Manifest.devDependencies content) name target other Hne) as H2.
  destruct (assign_if_listed (Manifest.dependencies content) name target) as [deps c1].
  destruct (assign_if_listed (Manifest.devDependencies content) name target) as [dev c2].
  simpl in *. rewrite H1, H2. reflexivity.
Qed.

Lemma apply_update_other st update other :
  Update.package update <> other ->
  constraints (Some (fst (apply_update st update))) other
  = constraints (Some (fst st)) other.
Proof.
  intros Hne. destruct st as [content hasChanges]. unfold apply_update.
  repeat match goal with
         | |- context [if ?b then _ else _] => destruct b
         end;
    try reflexivity.
  - pose proof (assign_both_other content (Update.package update)
                  (default "" (Update.patched update)) other Hne) as H.
    destruct (assign_both _ _ _). exact H.
  - pose proof (assign_both_other content (Update.package update)
                  ("^" ++ show (Update.latest update)) other Hne) as H.
    destruct (assign_both _ _ _). exact H.
Qed.

Lemma apply_updates_other updates st other :
  (forall u, In u updates -> Update.package u <> other) ->
  constraints (Some (fst (fold_left apply_update updates st))) other
  = constraints (Some (fst st)) other.
Proof.
  revert st. induction updates as [|u us IH]; intros st Hne; [reflexivity|].
  cbn [fold_left]. rewrite IH by (intros u' Hu'; apply Hne; right; exact Hu').
  apply apply_update_other. apply Hne. left. reflexivity.
Qed.

(** The manifests after [applyUpdates]: nothing changed, or the manifest
    of the package holds the result of the loop. *)
Lemma applyUpdates_fs packageDir updates w :
  fs (snd (applyUpdates isDryRun execSync_outcome writeFileSync_ok packageDir updates w)) = fs w
  \/ exists content0,
       fs w !! package_json_path packageDir = Some content0
       /\ fs (snd (applyUpdates isDryRun execSync_outcome writeFileSync_ok packageDir updates w))
          = <[package_json_path packageDir := fst (fold_left apply_update updates (content0, false))]> (fs w).
Proof.
  unfold applyUpdates. destruct updates as [|u us]; [left; reflexivity|].
  cbv beta iota delta [bind getPackageJson].
  destruct (fs w !! package_json_path packageDir) as [content0|] eqn:Hc; [|left; reflexivity].
  destruct (fold_left apply_update (u :: us) (content0, false)) as [content hasChanges] eqn:Hf.
  destruct hasChanges; [|left; reflexivity].
  cbn [negb].
  unfold writePackageJson, execCommand, execSync, testLog_push, console_line, ret.
  cbv beta iota delta [bind perform store].
  destruct isDryRun; cbn [negb]; [left; reflexivity|].
  destruct (writeFileSync_ok w (package_json_path packageDir)); [|left; reflexivity].
  right. exists content0. split; [reflexivity|].
  rewrite Hf. cbn [negb fst].
  match goal with
  | |- context [execSync_outcome ?w' ?c ?d] => destruct (execSync_outcome w' c d)
  end; reflexivity.
Qed.

Lemma applyUpdates_frame packageDir updates w path other :
  (forall u, In u updates -> Update.package u <> other) ->
  constraints
    (fs (snd (applyUpdates isDryRun execSync_outcome writeFileSync_ok packageDir updates w)) !! path)
    other
  = constraints (fs w !! path) other.
Proof.
  intros Hne.
  destruct (applyUpdates_fs packageDir updates w) as [->|(content0 & Hc & ->)]; [reflexivity|].
  destruct (decide (package_json_path packageDir = path)) as [<-|Hp].
  - rewrite lookup_insert_eq, Hc.
    apply (apply_updates_other updates (content0, false) other Hne).
  - rewrite lookup_insert_ne by exact Hp. reflexivity.
Qed.

(** Under the Auto policy the updates collected are handed to
    [applyUpdates] as they are. *)
Lemma updateDependencies_auto packageDir vulns outdated w :
  updateDependencies isDryRun isAutoUpdate isForceUpdate excludePackages now
    execSync_outcome writeFileSync_ok packageDir vulns outdated ModeAuto w
  = match fs w !! package_json_path packageDir with
    | Some _ =>
        applyUpdates isDryRun execSync_outcome writeFileSync_ok packageDir
          (auto_plan excludePackages now vulns outdated) w
    | None =>
        (false,
         mkWorld (fs w) (answers w) (asked w) (effects w) (testLog w)
                 (console w ++ [WarnNoPackageJson packageDir]))
    end.
Proof.
  unfold updateDependencies, bind at 1. unfold getPackageJson at 1.
  destruct (fs w !! package_json_path packageDir) as [content0|]; [|reflexivity].
  fold (auto_plan excludePackages now vulns outdated).
  pose proof (auto_plan_eligible vulns outdated) as He.
  destruct (auto_plan excludePackages now vulns outdated) as [|u us] eqn:Hplan; [reflexivity|].
  cbn [is_auto orb].
  rewrite filter_all_security; [reflexivity|].
  eapply Forall_impl; [exact He|]. intros u' Hu'. apply Hu'.
Qed.

(** C5. Under the Auto policy [updateDependencies] applies the updates of
    [auto_plan] and nothing else.  Each of them is a security update of
    severity critical or high, for a package that is not excluded, built
    from a scanned vulnerability: no update of an outdated package is
    among them.  The constraints of every package that is not the package
    of such an update, and so of every excluded package, are after the
    run what they were before, in every manifest. *)
Theorem auto_policy_applies_only_eligible_security_updates :
  forall (packageDir : string) (vulns : Vulns) (outdated : Outdated) (w : World),
    let plan := auto_plan excludePackages now vulns outdated in
    let run :=
      updateDependencies isDryRun isAutoUpdate isForceUpdate excludePackages now
        execSync_outcome writeFileSync_ok packageDir vulns outdated ModeAuto in
    run w
    = match fs w !! package_json_path packageDir with
      | Some _ =>
          applyUpdates isDryRun execSync_outcome writeFileSync_ok packageDir plan w
      | None =>
          (false,
           mkWorld (fs w) (answers w) (asked w) (effects w) (testLog w)
                   (console w ++ [WarnNoPackageJson packageDir]))
      end
    /\ Forall (auto_eligible excludePackages now vulns) plan
    /\ (forall path name,
          (forall u, In u plan -> Update.package u <> name) ->
          constraints (fs (snd (run w)) !! path) name = constraints (fs w !! path) name)
    /\ (forall path name,
          JS.array_includes excludePackages name = true ->
          constraints (fs (snd (run w)) !! path) name = constraints (fs w !! path) name).
Proof.
  intros packageDir vulns outdated w plan run.
  pose proof (auto_plan_eligible vulns outdated) as He. fold plan in He.
  assert (Hframe : forall path name,
             (forall u, In u plan -> Update.package u <> name) ->
             constraints (fs (snd (run w)) !! path) name = constraints (fs w !! path) name).
  { intros path name Hne. unfold run. rewrite updateDependencies_auto. fold plan.
    destruct (fs w !! package_json_path packageDir); [|reflexivity].
    apply applyUpdates_frame. exact Hne. }
  split; [apply updateDependencies_auto|].
  split; [exact He|].
  split; [exact Hframe|].
  intros path name Hex. apply Hframe.
  intros u Hu Heq.
  rewrite Forall_forall in He. apply list_elem_of_In in Hu.
  destruct (He u Hu) as (_ & _ & Hnot & _).
  rewrite Heq in Hnot. congruence.
Qed.

End AutoPolicy.

(** ** Applying updates *)

Section Applying.

Import DependencyManager.

Variable execSync_outcome : World -> string -> string -> JS.ExecOutcome.
Variable writeFileSync_ok : World -> string -> bool.

Lemma truthy_string_nonempty (s : string) : s <> "" -> JS.truthy_string s = true.
Proof.
  intros H. unfold JS.truthy_string.
  destruct (String.eqb_spec s ""); [contradiction | reflexivity].
Qed.

Lemma assign_if_listed_own (d : gmap string string) name current target :
  d !! name = Some current -> current <> "" ->
  assign_if_listed (Some d) name target = (Some (<[name := target]> d), true).
Proof.
  intros Hl Hne. unfold assign_if_listed, JS.get, JS.set. rewrite Hl. simpl.
  rewrite (truthy_string_nonempty _ Hne). reflexivity.
Qed.

(** An update of an outdated package whose [latest] is known sets the
    constraint of a listed package to the caret range of [latest],
    whatever [wanted] is. *)
Lemma outdated_update_sets_caret_latest content deps name current latest update hasChanges :
  Manifest.dependencies content = Some deps ->
  deps !! name = Some current -> current <> "" ->
  Update.type update = outdated -> Update.package update = name ->
  Update.latest update = Some latest -> latest <> "" ->
  Manifest.dependencies (fst (apply_update (content, hasChanges) update))
  = Some (<[name := "^" ++ latest]> deps)
  /\ snd (apply_update (content, hasChanges) update) = true.
Proof.
  intros Hd Hl Hc Ht Hp Hlat Hne.
  unfold apply_update, is_security. rewrite Ht, Hlat, Hp. cbn [andb negb JS.truthy_field].
  rewrite (truthy_string_nonempty _ Hne).
  unfold assign_both. rewrite Hd, (assign_if_listed_own deps name current _ Hl Hc).
  destruct (assign_if_listed (Manifest.devDependencies content) name _) as [dev c2].
  cbn. rewrite orb_true_r. split; reflexivity.
Qed.

(** An update of an outdated package without [latest] changes nothing,
    even when [wanted] is known. *)
Lemma outdated_update_without_latest st update :
  Update.type update = outdated -> Update.latest update = None ->
  apply_update st update = st.
Proof.
  intros Ht Hlat. destruct st as [content hasChanges].
  unfold apply_update, is_security. rewrite Ht, Hlat. reflexivity.
Qed.

(** C8. The manifest lists [lodash] at [^4.17.0]; the entry for the
    outdated [lodash] has the wanted version 4.17.21 and the latest
    version 5.0.0.  Applied under the Forced policy, the entry sets the
    constraint to [^5.0.0], not to the wanted version, and the manifest
    written to disk holds [^5.0.0]. *)
Theorem outdated_entry_applies_latest_not_wanted :
  let update := outdated_update "lodash" lodash_outdated in
  let run :=
    updateDependencies false false true [] scan_time every_command_succeeds
      every_file_writable "/repo" [] [("lodash", lodash_outdated)] ModeForce
      (repo_world (lodash_manifest "^4.17.0")) in
  Update.wanted update = Some "4.17.21"
  /\ apply_update (lodash_manifest "^4.17.0", false) update = (lodash_manifest "^5.0.0", true)
  /\ fst run = true
  /\ fs (snd run) !! "/repo/package.json" = Some (lodash_manifest "^5.0.0")
  /\ effects (snd run)
     = [WriteFile "/repo/package.json" (lodash_manifest "^5.0.0"); Exec "npm install" "/repo"].
Proof. vm_compute. repeat split; reflexivity. Qed.


End Applying.



(** ** Merging a branch *)

Section Merging.

Import BranchManager.

Variable Repo : Type.
Variable run : string -> Repo -> JS.ExecOutcome * Repo.

Lemma issues_ret {A : Type} allowed (a : A) : issues allowed (ret Repo a).
Proof. intros w. exists []. rewrite app_nil_r. split; [reflexivity | constructor]. Qed.

Lemma issues_bind {A B : Type} allowed (m : M Repo A) (k : A -> M Repo B) :
  issues allowed m -> (forall a, issues allowed (k a)) -> issues allowed (bind Repo m k).
Proof.
  intros Hm Hk w. unfold bind.
  destruct (m w) as [a w1] eqn:E.
  destruct (Hm w) as (c1 & H1 & F1). rewrite E in H1. simpl in H1.
  destruct (Hk a w1) as (c2 & H2 & F2).
  exists (c1 ++ c2)%list. split.
  - rewrite H2, H1, app_assoc. reflexivity.
  - apply Forall_app. split; assumption.
Qed.

Lemma issues_execSync allowed command :
  In command allowed -> issues allowed (execSync Repo run command).
Proof.
  intros Hin w. unfold execSync.
  destruct (run command (repo Repo w)) as [o r].
  exists [command]. split; [reflexivity | constructor; [exact Hin | constructor]].
Qed.

Lemma issues_console_line allowed l : issues allowed (console_line Repo l).
Proof. intros w. exists []. rewrite app_nil_r. split; [reflexivity | constructor]. Qed.

Lemma issues_ask allowed : issues allowed (ask Repo).
Proof. intros w. exists []. rewrite app_nil_r. split; [reflexivity | constructor]. Qed.

Ltac issues_step :=
  repeat first
    [ apply issues_ret
    | apply issues_console_line
    | apply issues_ask
    | apply issues_execSync; unfold merge_commands; simpl; tauto
    | apply issues_bind; [|intros ?]
    | match goal with
      | |- issues _ (match ?x with _ => _ end) => destruct x
      | |- issues _ (if ?b then _ else _) => destruct b
      end ].

Lemma issues_getBranchDetails branchName :
  issues (merge_commands branchName) (getBranchDetails Repo run branchName).
Proof. unfold getBranchDetails. issues_step. Qed.

Lemma issues_merge_step branchName :
  issues (merge_commands branchName) (merge_step Repo run branchName).
Proof. unfold merge_step. issues_step. Qed.

Lemma issues_merge_after_switch branchName :
  issues (merge_commands branchName) (merge_after_switch Repo run branchName).
Proof.
  unfold merge_after_switch.
  apply issues_bind; [apply issues_getBranchDetails | intros _].
  apply issues_bind; [apply issues_ask | intros confirmMerge].
  destruct (negb _); [apply issues_ret | apply issues_merge_step].
Qed.

Lemma issues_mergeAikidoBranch branchName :
  issues (merge_commands branchName) (mergeAikidoBranch Repo run branchName).
Proof.
  unfold mergeAikidoBranch.
  pose proof (issues_merge_after_switch branchName) as Hm.
  apply issues_bind; [issues_step | intros o].
  destruct o as [out|message status stdout]; [|apply issues_ret].
  destruct (_ && _); [|exact Hm].
  apply issues_bind; [apply issues_ask | intros switchToMain].
  destruct (String.eqb switchToMain "y"); [|exact Hm].
  apply issues_bind; [issues_step | intros oc].
  destruct oc; [|issues_step].
  apply issues_bind; [issues_step | intros op].
  destruct op; [exact Hm | issues_step].
Qed.

Lemma string_length_app (a b : string) :
  String.length (a ++ b) = (String.length a + String.length b)%nat.
Proof. induction a as [|c a IH]; simpl; [reflexivity | rewrite IH; reflexivity]. Qed.

Lemma merge_command_not_before branchName :
  ~ In (merge_command branchName) (commands_before_merge branchName).
Proof.
  unfold commands_before_merge, merge_command. simpl.
  intros [H|[H|[H|[H|[H|[H|[]]]]]]]; discriminate H.
Qed.

Lemma issues_before_merge_getBranchDetails branchName :
  issues (commands_before_merge branchName) (getBranchDetails Repo run branchName).
Proof.
  unfold getBranchDetails.
  repeat first
    [ apply issues_ret
    | apply issues_console_line
    | apply issues_execSync; unfold commands_before_merge; simpl; tauto
    | apply issues_bind; [|intros ?]
    | match goal with
      | |- issues _ (match ?x with _ => _ end) => destruct x
      end ].
Qed.

Lemma merges_last_bind {A : Type} branchName (m : M Repo A)
  (k : A -> M Repo Completion) :
  issues (commands_before_merge branchName) m ->
  (forall a, merges_last_or_never run branchName (k a)) ->
  merges_last_or_never run branchName (bind Repo m k).
Proof.
  intros Hm Hk w. unfold bind.
  destruct (Hm w) as (c1 & Hc1 & Hall).
  destruct (m w) as [a w0]. cbn [snd] in Hc1.
  assert (Hn : ~ In (merge_command branchName) c1).
  { intros Hin. rewrite Forall_forall in Hall. apply list_elem_of_In in Hin.
    exact (merge_command_not_before branchName (Hall _ Hin)). }
  destruct (Hk a w0) as [(w1 & pre & He & Hp & Hpre)|(Hf & cmds & Hc & Hcmds)].
  - left. exists w1, (c1 ++ pre)%list. split; [exact He|]. split.
    + rewrite Hp, Hc1, app_assoc. reflexivity.
    + rewrite in_app_iff. tauto.
  - right. split; [exact Hf|]. exists (c1 ++ cmds)%list. split.
    + rewrite Hc, Hc1, app_assoc. reflexivity.
    + rewrite in_app_iff. tauto.
Qed.

Lemma merges_last_ret branchName (c : Completion) :
  c <> Resolved true -> merges_last_or_never run branchName (ret Repo c).
Proof.
  intros Hc w. right. split; [exact Hc|]. exists []. rewrite app_nil_r.
  split; [reflexivity | intros []].
Qed.

Lemma merges_last_merge_step branchName :
  merges_last_or_never run branchName (merge_step Repo run branchName).
Proof.
  intros w. left. exists w, []. rewrite app_nil_r.
  split; [reflexivity|]. split; [reflexivity | intros []].
Qed.

Lemma merges_last_mergeAikidoBranch branchName :
  merges_last_or_never run branchName (mergeAikidoBranch Repo run branchName).
Proof.
  assert (Hexec : forall c, In c (commands_before_merge branchName) ->
            issues (commands_before_merge branchName) (execSync Repo run c)).
  { intros c Hc. apply issues_execSync. exact Hc. }
  assert (Hm : merges_last_or_never run branchName (merge_after_switch Repo run branchName)).
  { unfold merge_after_switch.
    apply merges_last_bind; [apply issues_before_merge_getBranchDetails | intros _].
    apply merges_last_bind; [apply issues_ask | intros confirmMerge].
    destruct (negb _); [apply merges_last_ret; discriminate|].
    apply merges_last_merge_step. }
  unfold mergeAikidoBranch.
  apply merges_last_bind; [apply Hexec; cbn; tauto | intros o].
  destruct o as [out|message status stdout]; [|apply merges_last_ret; discriminate].
  destruct (_ && _); [|exact Hm].
  apply merges_last_bind; [apply issues_ask | intros switchToMain].
  destruct (String.eqb switchToMain "y"); [|exact Hm].
  apply merges_last_bind; [apply Hexec; cbn; tauto | intros oc].
  destruct oc.
  - apply merges_last_bind; [apply Hexec; cbn; tauto | intros op].
    destruct op; [exact Hm|].
    apply merges_last_bind; [apply issues_console_line | intros _].
    apply merges_last_ret; discriminate.
  - apply merges_last_bind; [apply issues_console_line | intros _].
    apply merges_last_ret; discriminate.
Qed.

(** C3, as the code has it.  In a run of [mergeAikidoBranch] the merge
    command is run at most once, and a run without it does not resolve to
    [true].  When the merge command fails, it is the last command of the
    run: no command follows it (no [git merge --abort], no reset), the
    failure is printed with the advice to resolve conflicts manually, the
    function resolves to [false], and the repository is the one that the
    failed [git merge] left.  When the merge command succeeds, the
    function resolves to [true]. *)
Theorem failed_merge_is_left_as_git_left_it :
  forall (branchName : string) (w : World Repo),
    let result := mergeAikidoBranch Repo run branchName w in
    exists cmds,
      commands Repo (snd result) = (commands Repo w ++ cmds)%list
      /\ ((~ In (merge_command branchName) cmds /\ fst result <> Resolved true)
          \/ exists pre w1,
               commands Repo w1 = (commands Repo w ++ pre)%list
               /\ ~ In (merge_command branchName) pre
               /\ match run (merge_command branchName) (repo Repo w1) with
                  | (JS.Threw message _ _, r) =>
                      cmds = (pre ++ [merge_command branchName])%list
                      /\ result
                         = (Resolved false,
                            mkWorld Repo r (answers Repo w1) (asked Repo w1)
                              (commands Repo w ++ cmds)
                              (console Repo w1
                               ++ [ErrorMergeFailed message; HintResolveConflictsManually]))
                  | (JS.Returned _, _) =>
                      fst result = Resolved true
                      /\ exists post,
                           cmds = (pre ++ merge_command branchName :: post)%list
                  end).
Proof.
  intros branchName w result. subst result.
  destruct (merges_last_mergeAikidoBranch branchName w)
    as [(w1 & pre & He & Hp & Hpre)|(Hf & cmds & Hc & Hcmds)].
  - rewrite He. clear He.
    unfold merge_step, execSync, ask, console_line, ret.
    cbv beta iota delta [bind].
    destruct (run (merge_command branchName) (repo Repo w1))
      as [[out|message status stdout] r] eqn:Hrun.
    + cbn [answers asked repo commands console].
      destruct (String.eqb _ "y").
      * cbn [answers asked repo commands console].
        destruct (run (delete_command branchName) r) as [[o|m s e] r2];
          cbn [fst snd answers asked repo commands console];
          exists (pre ++ [merge_command branchName; delete_command branchName])%list;
          (split; [rewrite Hp, <- !app_assoc; reflexivity|]);
          right; exists pre, w1; (split; [exact Hp|]); (split; [exact Hpre|]);
          rewrite Hrun; (split; [reflexivity|]);
          exists [delete_command branchName]; reflexivity.
      * cbn [fst snd answers asked repo commands console].
        exists (pre ++ [merge_command branchName])%list.
        split; [rewrite Hp, <- !app_assoc; reflexivity|].
        right. exists pre, w1. split; [exact Hp|]. split; [exact Hpre|].
        rewrite Hrun. split; [reflexivity|]. exists []. reflexivity.
    + cbn [fst snd answers asked repo commands console].
      exists (pre ++ [merge_command branchName])%list.
      split; [rewrite Hp, <- !app_assoc; reflexivity|].
      right. exists pre, w1. split; [exact Hp|]. split; [exact Hpre|].
      rewrite Hrun. split; [reflexivity|].
      rewrite Hp, <- !app_assoc. reflexivity.
  - exists cmds. split; [exact Hc|]. left. split; assumption.
Qed.

End Merging.

(** C3, as the claim states it, fails: on [main] with a clean tree, the
    operator confirms the merge of [aikido/fix-lodash], the merge stops on
    a conflict, and [mergeAikidoBranch] resolves to [false] after running
    five commands, none of them an abort: the tree is no longer clean but
    holds the half-done merge. *)
Lemma conflicting_merge_leaves_tree_half_merged :
  let run :=
    BranchManager.mergeAikidoBranch SampleRepo (sample_git "aikido/fix-lodash")
      "aikido/fix-lodash" sample_repo_world in
  tree (BranchManager.repo SampleRepo sample_repo_world) = Clean
  /\ fst run = BranchManager.Resolved false
  /\ tree (BranchManager.repo SampleRepo (snd run)) = MergeInProgress "aikido/fix-lodash"
  /\ BranchManager.commands SampleRepo (snd run)
     = [ "git branch --show-current";
         "git log --oneline aikido/fix-lodash ^main | head -5";
         "git diff --name-only main...aikido/fix-lodash";
         "git diff --stat main...aikido/fix-lodash";
         "git merge aikido/fix-lodash --no-ff" ]
  /\ BranchManager.console SampleRepo (snd run)
     = [ BranchManager.ErrorMergeFailed "Command failed: git merge aikido/fix-lodash --no-ff";
         BranchManager.HintResolveConflictsManually ].
Proof. vm_compute. repeat split; reflexivity. Qed.

(** ** Classifying branches *)

Section Classification.

Lemma filter_In_split {A : Type} (f g h : A -> bool) (l : list A) (x : A) :
  (forall a, f a || g a || h a = true) ->
  In x l -> In x (List.filter f l) \/ In x (List.filter g l) \/ In x (List.filter h l).
Proof.
  intros Hcover Hin.
  specialize (Hcover x).
  destruct (f x) eqn:Hf; [left; apply filter_In; auto|].
  destruct (g x) eqn:Hg; [right; left; apply filter_In; auto|].
  simpl in Hcover. right; right; apply filter_In; auto.
Qed.

(** In the interactive manager the type of a listed branch is a function
    of its name alone, by precedence: a name that contains [aikido/] is of
    type aikido (the scanner bot), otherwise a name that contains
    [dependabot/] is of type dependabot, otherwise the type is security.
    In the branch manager the three groups are filtered independently:
    every branch is in at least one of them, and the third group holds
    the names with neither marker. *)
Lemma branch_type_by_precedence :
  forall (o : JS.ExecOutcome) (allBranches : list string) (name : string),
    (forall b, In b (InteractiveManager.loadSecurityBranches o) ->
               InteractiveManager.Branch.type b
               = InteractiveManager.branch_type (InteractiveManager.Branch.name b))
    /\ (JS.includes name "aikido/" = true ->
        InteractiveManager.branch_type name = InteractiveManager.aikido)
    /\ (JS.includes name "aikido/" = false -> JS.includes name "dependabot/" = true ->
        InteractiveManager.branch_type name = InteractiveManager.dependabot)
    /\ (JS.includes name "aikido/" = false -> JS.includes name "dependabot/" = false ->
        InteractiveManager.branch_type name = InteractiveManager.security)
    /\ (In name allBranches ->
        In name (BranchManager.aikidoBranches allBranches)
        \/ In name (BranchManager.dependabotBranches allBranches)
        \/ In name (BranchManager.otherSecurityBranches allBranches))
    /\ (In name (BranchManager.otherSecurityBranches allBranches) <->
        In name allBranches
        /\ JS.includes name "aikido" = false /\ JS.includes name "dependabot" = false).
Proof.
  intros o allBranches name.
  split.
  { intros b Hb. unfold InteractiveManager.loadSecurityBranches in Hb.
    destruct o as [out|message status stdout]; [|destruct Hb].
    apply in_map_iff in Hb. destruct Hb as (branch & <- & _). reflexivity. }
  unfold InteractiveManager.branch_type.
  repeat split.
  - intros ->. reflexivity.
  - intros -> ->. reflexivity.
  - intros -> ->. reflexivity.
  - apply filter_In_split. intros a.
    destruct (JS.includes a "aikido"), (JS.includes a "dependabot"); reflexivity.
  - apply filter_In in H. tauto.
  - apply filter_In in H. destruct H as [_ H].
    destruct (JS.includes name "aikido"); [discriminate | reflexivity].
  - apply filter_In in H. destruct H as [_ H].
    destruct (JS.includes name "dependabot"); [|reflexivity].
    destruct (JS.includes name "aikido"); discriminate.
  - intros (Hin & Ha & Hd). apply filter_In. rewrite Ha, Hd. auto.
Qed.

End Classification.

(** C6.  The remote holds a branch named as Dependabot names its
    branches, for a package [@aikido/zen]:
    [dependabot/npm_and_yarn/aikido/zen-1.0.0].  Its name
    carries the marker of the scanner bot and the marker of the
    dependency bot.  [loadSecurityBranches] gives it one type, by
    precedence: aikido.  [listSecurityBranches] filters its groups
    independently and prints the branch twice, in the group of the
    scanner bot and in the group of the dependency bot: the branch does
    not receive exactly one classification. *)
Theorem branch_with_both_markers_is_printed_in_two_groups :
  let name := "dependabot/npm_and_yarn/aikido/zen-1.0.0" in
  let listing := "  origin/main" ++ BranchManager.LF ++ "  origin/" ++ name ++ BranchManager.LF in
  let git := scripted_git [("git branch -r", JS.Returned listing)] in
  let result := BranchManager.listSecurityBranches SampleRepo git sample_repo_world in
  InteractiveManager.loadSecurityBranches (JS.Returned listing)
  = [InteractiveManager.Branch.mk name InteractiveManager.aikido "pending"]
  /\ fst result = ["origin/" ++ name]
  /\ BranchManager.console SampleRepo (snd result)
     = [ BranchManager.AikidoGroup [("origin/" ++ name, false)];
         BranchManager.DependabotGroup [("origin/" ++ name, false)] ].
Proof. vm_compute. repeat split; reflexivity. Qed.

(** ** Further properties of the analyzer and of the policies *)

(** A record of a severity of the table, with a readable date, is stale
    exactly when its age in days exceeds the ceiling of its severity; at
    the ceiling it is not stale. *)
Theorem stale_iff_age_exceeds_ceiling :
  forall (now : Z) (vulnId : option string) (vulnData : DependencyManager.VulnData.t)
         (severity : string) (ceiling t : Z),
    DependencyManager.VulnData.severity vulnData = Some severity ->
    In (severity, ceiling) sla_table ->
    DependencyManager.VulnData.created vulnData = DependencyManager.CreatedAt t ->
    let analysis := DependencyManager.analyzeVulnerability now vulnId vulnData in
    DependencyManager.Analysis.ageInDays analysis
    = Some ((now - t) / DependencyManager.MS_PER_DAY)%Z
    /\ DependencyManager.Analysis.maxAge analysis = JS.Own ceiling
    /\ (DependencyManager.Analysis.isStale analysis = true
        <-> (ceiling < (now - t) / DependencyManager.MS_PER_DAY)%Z).
Proof.
  intros now vulnId vulnData severity ceiling t Hs Hin Hc analysis.
  subst analysis. unfold DependencyManager.analyzeVulnerability.
  cbn [DependencyManager.Analysis.ageInDays DependencyManager.Analysis.maxAge
       DependencyManager.Analysis.isStale].
  rewrite Hs, Hc. cbn [DependencyManager.getTime].
  assert (Hm : DependencyManager.or_value
                 (JS.get DependencyManager.SECURITY_CONFIG_maxAge (JS.or_default (Some severity) "unknown"))
                 (JS.get DependencyManager.SECURITY_CONFIG_maxAge "low")
               = JS.Own ceiling).
  { unfold sla_table in Hin. simpl in Hin.
    destruct Hin as [H|[H|[H|[H|[]]]]]; injection H as <- <-; reflexivity. }
  rewrite Hm. split; [reflexivity|]. split; [reflexivity|].
  unfold DependencyManager.js_gt. apply Z.ltb_lt.
Qed.

Lemma stale_iff_age_exceeds_ceiling_witness :
  let analysis :=
    DependencyManager.analyzeVulnerability scan_time None
      (DependencyManager.VulnData.mk None (Some "critical")
         (DependencyManager.CreatedAt (scan_time - 7 * DependencyManager.MS_PER_DAY))
         None None None None None None) in
  DependencyManager.Analysis.ageInDays analysis
  = Some ((scan_time - (scan_time - 7 * DependencyManager.MS_PER_DAY))
          / DependencyManager.MS_PER_DAY)%Z
  /\ DependencyManager.Analysis.maxAge analysis = JS.Own 7%Z
  /\ (DependencyManager.Analysis.isStale analysis = true
      <-> (7 < (scan_time - (scan_time - 7 * DependencyManager.MS_PER_DAY))
               / DependencyManager.MS_PER_DAY)%Z).
Proof.
  apply (stale_iff_age_exceeds_ceiling scan_time None
           (DependencyManager.VulnData.mk None (Some "critical")
              (DependencyManager.CreatedAt (scan_time - 7 * DependencyManager.MS_PER_DAY))
              None None None None None None)
           "critical" 7%Z (scan_time - 7 * DependencyManager.MS_PER_DAY)%Z).
  - reflexivity.
  - left. reflexivity.
  - reflexivity.
Defined.

(** The scenario of the specification: the manifest lists [lodash] at
    1.0.0 and [axios] at 0.21.0, [lodash] has a critical vulnerability
    patched in 2.0.0 and [axios] is outdated.  Under the Auto policy the
    run sets [lodash] to 2.0.0 and leaves [axios] as it is. *)
Theorem auto_policy_scenario :
  let run :=
    DependencyManager.updateDependencies false true false [] scan_time
      every_command_succeeds every_file_writable "/repo"
      [("GHSA-1", lodash_vulnerability)] [("axios", axios_outdated)]
      DependencyManager.ModeAuto (repo_world (two_package_manifest "1.0.0" "0.21.0")) in
  fst run = true
  /\ DependencyManager.fs (snd run) !! "/repo/package.json"
     = Some (two_package_manifest "2.0.0" "0.21.0")
  /\ DependencyManager.effects (snd run)
     = [DependencyManager.WriteFile "/repo/package.json" (two_package_manifest "2.0.0" "0.21.0");
        DependencyManager.Exec "npm install" "/repo"].
Proof. vm_compute. repeat split; reflexivity. Qed.

(** Without findings the score is 100, no update is collected under any
    policy, and [updateDependencies] returns [true] without an effect. *)
Theorem no_findings_scenario :
  forall (isDryRun isAutoUpdate isForceUpdate : bool) (excludePackages : list string)
         (now : Z)
         (execSync_outcome : DependencyManager.World -> string -> string -> JS.ExecOutcome)
         (writeFileSync_ok : DependencyManager.World -> string -> bool)
         (mode : DependencyManager.Mode) (packageDir : string)
         (content : DependencyManager.Manifest.t) (w : DependencyManager.World),
    DependencyManager.calculateSecurityScore now [] [] = 100%Z
    /\ DependencyManager.collect_outdated mode []
         (DependencyManager.collect_security excludePackages now mode [] []) = []
    /\ (DependencyManager.fs w !! DependencyManager.package_json_path packageDir = Some content ->
        DependencyManager.updateDependencies isDryRun isAutoUpdate isForceUpdate
          excludePackages now execSync_outcome writeFileSync_ok packageDir [] [] mode w
        = (true, w)).
Proof.
  intros. split; [reflexivity|]. split; [reflexivity|].
  intros Hc. unfold DependencyManager.updateDependencies.
  cbv beta iota delta [DependencyManager.bind DependencyManager.getPackageJson].
  rewrite Hc. reflexivity.
Qed.

(** * Further properties *)

(** ** Scanning: the remaining cases *)

Section ScanningCases.

Import DependencyManager.

Variable execSync_outcome : World -> string -> string -> JS.ExecOutcome.
Variable Metadata : Type.
Variable JSON_parse_audit : string -> option (AuditJSON Metadata).
Variable JSON_parse_outdated : string -> option Outdated.

(** [checkOutdatedPackages] reads a report only from a process that exits
    with code 0.  When [execSync] throws, exit code 1 of [npm outdated]
    included, it returns the empty object without a warning and without
    calling [JSON.parse].  Empty output gives the empty object as well;
    output that [JSON.parse] rejects gives it with a warning. *)
Theorem checkOutdatedPackages_cases :
  forall (packageDir : string) (w : World),
    let result := checkOutdatedPackages execSync_outcome JSON_parse_outdated packageDir w in
    match execSync_outcome w "npm outdated --json" packageDir with
    | JS.Threw _ _ _ =>
        result = ([], world_after_command "npm outdated --json" packageDir [] w)
    | JS.Returned text =>
        if JS.truthy_string text then
          match JSON_parse_outdated text with
          | Some outdatedData =>
              result = (outdatedData,
                        world_after_command "npm outdated --json" packageDir [] w)
          | None =>
              result = ([], world_after_command "npm outdated --json" packageDir
                              [WarnOutdatedUnparsable packageDir] w)
          end
        else result = ([], world_after_command "npm outdated --json" packageDir [] w)
    end.
Proof.
  intros packageDir w result. subst result.
  unfold checkOutdatedPackages, execCommand, execSync, console_line, ret, world_after_command.
  cbv beta iota delta [bind perform].
  destruct (execSync_outcome w "npm outdated --json" packageDir) as [text|message status stdout];
    cbn.
  - destruct (JS.truthy_string text); [|rewrite app_nil_r; reflexivity].
    destruct (JSON_parse_outdated text); [rewrite app_nil_r|]; reflexivity.
  - rewrite app_nil_r. reflexivity.
Qed.

(** When the audit process exits with code 0, [scanVulnerabilities]
    returns the [vulnerabilities] of a report object (the empty list when
    the property is missing), with the report version defaulting to 1 when
    it is missing or 0; a report that is not an object gives an empty
    result without a warning; the text [null] and text that [JSON.parse]
    rejects give the empty result with a warning.  In every case exactly
    the audit command was run. *)
Theorem scanVulnerabilities_exit_zero_cases :
  forall (packageDir : string) (w : World) (text : string),
    execSync_outcome w "npm audit --json" packageDir = JS.Returned text ->
    scanVulnerabilities execSync_outcome Metadata JSON_parse_audit packageDir w
    = match JSON_parse_audit text with
      | Some (JsonObject vulnerabilities metadata version) =>
          (ScanResult.mk (default [] vulnerabilities) metadata
             (Some (match version with
                    | Some v => if (v =? 0)%Z then 1%Z else v
                    | None => 1%Z
                    end)),
           scan_world_after packageDir [] w)
      | Some JsonOther =>
          (ScanResult.mk [] None (Some 1%Z), scan_world_after packageDir [] w)
      | Some JsonNull | None =>
          (empty_scan Metadata,
           scan_world_after packageDir [WarnAuditUnparsable packageDir] w)
      end.
Proof.
  intros packageDir w text Ho.
  unfold scanVulnerabilities, execCommand, execSync, console_line, ret, scan_world_after.
  cbv beta iota delta [bind perform]. rewrite Ho. cbn.
  destruct (JSON_parse_audit text) as [[| |vulnerabilities metadata version]|];
    try reflexivity; rewrite app_nil_r; try reflexivity.
  destruct version as [v|]; [|reflexivity].
  unfold JS.truthy_Z. destruct (v =? 0)%Z; reflexivity.
Qed.

End ScanningCases.

(** A sample for the statement above: the audit prints a report that is
    read as an object with one vulnerability. *)
Lemma scanVulnerabilities_exit_zero_cases_witness :
  DependencyManager.scanVulnerabilities (fun _ _ _ => JS.Returned "report") unit
    (fun _ => Some (DependencyManager.JsonObject
                      (Some [("lodash", lodash_vulnerability)]) None None))
    "/repo" (repo_world (lodash_manifest "1.0.0"))
  = (DependencyManager.ScanResult.mk
       (default [] (Some [("lodash", lodash_vulnerability)])) None (Some 1%Z),
     scan_world_after "/repo" [] (repo_world (lodash_manifest "1.0.0"))).
Proof.
  apply (scanVulnerabilities_exit_zero_cases (fun _ _ _ => JS.Returned "report") unit
           (fun _ => Some (DependencyManager.JsonObject
                             (Some [("lodash", lodash_vulnerability)]) None None))
           "/repo" (repo_world (lodash_manifest "1.0.0")) "report").
  reflexivity.
Defined.

(** ** Applying updates: failures, packages that are not listed, names *)

Section ApplyingOutcomes.

Import DependencyManager.

Variable isDryRun : bool.
Variable execSync_outcome : World -> string -> string -> JS.ExecOutcome.
Variable writeFileSync_ok : World -> string -> bool.

(** When [npm install] fails, [applyUpdates] returns [false], and the
    manifest on disk already holds the updated content: the write is not
    undone. *)
Theorem applyUpdates_failed_install_keeps_written_manifest :
  forall (packageDir : string) (updates : list Update.t) (w : World)
         (content0 content : Manifest.t) (message : string) (status : option Z)
         (stdout : string),
    fs w !! package_json_path packageDir = Some content0 ->
    updates <> [] ->
    fold_left apply_update updates (content0, false) = (content, true) ->
    writeFileSync_ok w (package_json_path packageDir) = true ->
    execSync_outcome (world_after_write (package_json_path packageDir) content w)
      "npm install" packageDir
    = JS.Threw message status stdout ->
    let result := applyUpdates false execSync_outcome writeFileSync_ok packageDir updates w in
    fst result = false
    /\ fs (snd result) !! package_json_path packageDir = Some content
    /\ effects (snd result)
       = (effects w ++ [WriteFile (package_json_path packageDir) content;
                        Exec "npm install" packageDir])%list
    /\ console (snd result) = (console w ++ [ErrorInstallFailed (Some message)])%list.
Proof.
  intros packageDir updates w content0 content message status stdout Hc Hne Hf Hw Hi result.
  subst result. unfold applyUpdates.
  destruct updates as [|u us]; [contradiction|].
  cbv beta iota delta [bind getPackageJson]. rewrite Hc, Hf. cbn [negb].
  unfold writePackageJson, execCommand, execSync, console_line, ret.
  cbv beta iota delta [bind perform store]. rewrite Hw. cbn [negb fs effects].
  unfold world_after_write in Hi. cbn in Hi |- *. rewrite Hi. cbn.
  rewrite lookup_insert_eq, <- app_assoc. repeat split; reflexivity.
Qed.






End ApplyingOutcomes.

(** Samples for the three statements above: [lodash] is listed at 1.0.0
    and patched in 2.0.0; [axios] is not listed. *)
Lemma applyUpdates_failed_install_keeps_written_manifest_witness :
  let result :=
    DependencyManager.applyUpdates false install_fails every_file_writable "/repo"
      [lodash_update] (repo_world (lodash_manifest "1.0.0")) in
  fst result = false
  /\ DependencyManager.fs (snd result) !! DependencyManager.package_json_path "/repo"
     = Some (lodash_manifest "2.0.0")
  /\ DependencyManager.effects (snd result)
     = ([] ++ [DependencyManager.WriteFile (DependencyManager.package_json_path "/repo")
                 (lodash_manifest "2.0.0");
               DependencyManager.Exec "npm install" "/repo"])%list
  /\ DependencyManager.console (snd result)
     = ([] ++ [DependencyManager.ErrorInstallFailed (Some "Command failed: npm install")])%list.
Proof.
  apply (applyUpdates_failed_install_keeps_written_manifest install_fails every_file_writable
           "/repo" [lodash_update] (repo_world (lodash_manifest "1.0.0"))
           (lodash_manifest "1.0.0") (lodash_manifest "2.0.0")
           "Command failed: npm install" (Some 1%Z) "");
    first [reflexivity | discriminate].
Defined.



(** ** Applying updates: one dependency map at a time *)

Section ApplyingMaps.

Import DependencyManager.

Lemma target_of_nonempty u target : target_of u = Some target -> target <> "".
Proof.
  unfold target_of.
  destruct (is_security u && JS.truthy_field (Update.patched u)
            && negb (String.eqb (default "" (Update.patched u)) "none")) eqn:E.
  - intros [= <-].
    apply andb_prop in E. destruct E as [E _]. apply andb_prop in E. destruct E as [_ E].
    destruct (Update.patched u) as [s|]; [|discriminate]. cbn in *.
    unfold JS.truthy_string in E. intros ->. discriminate.
  - destruct (negb (is_security u) && JS.truthy_field (Update.latest u)); [|discriminate].
    intros [= <-]. discriminate.
Qed.

(** The loop body of [applyUpdates] acts on the two maps independently. *)
Lemma apply_update_maps content hasChanges u :
  fst (apply_update (content, hasChanges) u)
  = Manifest.mk (assign_map (Manifest.dependencies content) u)
                (assign_map (Manifest.devDependencies content) u).
Proof.
  unfold apply_update, assign_map, target_of, assign_both.
  destruct content as [deps dev]. cbn [Manifest.dependencies Manifest.devDependencies].
  destruct (is_security u && JS.truthy_field (Update.patched u)
            && negb (String.eqb (default "" (Update.patched u)) "none")).
  - destruct (assign_if_listed deps _ _), (assign_if_listed dev _ _). reflexivity.
  - destruct (negb (is_security u) && JS.truthy_field (Update.latest u)); [|reflexivity].
    destruct (assign_if_listed deps _ _), (assign_if_listed dev _ _). reflexivity.
Qed.

Lemma apply_updates_maps updates content hasChanges :
  fst (fold_left apply_update updates (content, hasChanges))
  = Manifest.mk (fold_left assign_map updates (Manifest.dependencies content))
                (fold_left assign_map updates (Manifest.devDependencies content)).
Proof.
  revert content hasChanges. induction updates as [|u us IH]; intros content hasChanges.
  - destruct content; reflexivity.
  - cbn [fold_left].
    destruct (apply_update (content, hasChanges) u) as [content1 h1] eqn:E.
    rewrite IH. pose proof (apply_update_maps content hasChanges u) as H.
    rewrite E in H. cbn [fst] in H. subst content1. reflexivity.
Qed.

(** *** Names *)

Lemma assign_if_listed_entries deps name target other :
  (has_entry deps other -> has_entry (fst (assign_if_listed deps name target)) other)
  /\ (has_entry (fst (assign_if_listed deps name target)) other ->
      has_entry deps other \/ (other = name /\ JS.inherited other = true)).
Proof.
  unfold has_entry, assign_if_listed.
  destruct deps as [d|]; [|split; [auto | intros H; left; exact H]].
  unfold JS.get, JS.set.
  destruct (d !! name) as [c|] eqn:Hd; cbn [JS.truthy_value].
  - destruct (JS.truthy_string c); cbn; [|tauto].
    rewrite lookup_insert_is_Some. split.
    + intros H. destruct (decide (name = other)); [left; assumption | right; auto].
    + intros [<-|[_ H]]; [left; rewrite Hd; eauto | left; exact H].
  - destruct (JS.inherited name) eqn:Hi; cbn; [|tauto].
    destruct (String.eqb name "__proto__"); [tauto|].
    rewrite lookup_insert_is_Some. split.
    + intros H. destruct (decide (name = other)); [left; assumption | right; auto].
    + intros [<-|[_ H]]; [right; auto | left; exact H].
Qed.

Lemma assign_map_entries deps u other :
  (has_entry deps other -> has_entry (assign_map deps u) other)
  /\ (has_entry (assign_map deps u) other ->
      has_entry deps other \/ (other = Update.package u /\ JS.inherited other = true)).
Proof.
  unfold assign_map. destruct (target_of u); [apply assign_if_listed_entries | tauto].
Qed.

Lemma assign_maps_entries updates deps other :
  (has_entry deps other -> has_entry (fold_left assign_map updates deps) other)
  /\ (has_entry (fold_left assign_map updates deps) other ->
      has_entry deps other
      \/ (JS.inherited other = true /\ exists u, In u updates /\ Update.package u = other)).
Proof.
  revert deps. induction updates as [|u us IH]; intros deps; cbn [fold_left].
  - tauto.
  - destruct (IH (assign_map deps u)) as [IH1 IH2].
    destruct (assign_map_entries deps u other) as [H1 H2]. split.
    + auto.
    + intros H. destruct (IH2 H) as [H'|(Hi & u' & Hu' & Hp)].
      * destruct (H2 H') as [?|[-> Hi]]; [left; assumption|].
        right. split; [exact Hi|]. exists u. split; [left; reflexivity | reflexivity].
      * right. split; [exact Hi|]. exists u'. split; [right; exact Hu' | exact Hp].
Qed.

(** The loop of [applyUpdates] never removes a package from a dependency
    map, and it adds none to either map, with one exception: under a name
    that plain objects inherit from [Object.prototype] (constructor,
    toString, ...), which reads as listed in a map although the map has no
    such entry, an update for that name creates the entry in that map. *)
Theorem apply_updates_keep_package_names :
  forall (updates : list Update.t) (content : Manifest.t) (hasChanges : bool) (name : string),
    let content' := fst (fold_left apply_update updates (content, hasChanges)) in
    (has_entry (Manifest.dependencies content) name ->
     has_entry (Manifest.dependencies content') name)
    /\ (has_entry (Manifest.devDependencies content) name ->
        has_entry (Manifest.devDependencies content') name)
    /\ (has_entry (Manifest.dependencies content') name ->
        has_entry (Manifest.dependencies content) name
        \/ (JS.inherited name = true
            /\ exists u, In u updates /\ Update.package u = name))
    /\ (has_entry (Manifest.devDependencies content') name ->
        has_entry (Manifest.devDependencies content) name
        \/ (JS.inherited name = true
            /\ exists u, In u updates /\ Update.package u = name)).
Proof.
  intros updates content hasChanges name content'. subst content'.
  rewrite apply_updates_maps. cbn [Manifest.dependencies Manifest.devDependencies].
  destruct (assign_maps_entries updates (Manifest.dependencies content) name) as [A1 A2].
  destruct (assign_maps_entries updates (Manifest.devDependencies content) name) as [B1 B2].
  split; [exact A1|]. split; [exact B1|]. split; [exact A2 | exact B2].
Qed.

End ApplyingMaps.

(** ** Applying the same updates again *)

Section ApplyingTwice.

Import DependencyManager.

Lemma get_set_same (d : gmap string string) name target :
  target <> "" ->
  JS.truthy_value JS.truthy_string (JS.get d name) = true ->
  JS.truthy_value JS.truthy_string (JS.get (JS.set d name target) name) = true.
Proof.
  intros Ht. unfold JS.get, JS.set.
  destruct (d !! name) as [c|] eqn:Hd.
  - intros _. rewrite lookup_insert_eq. cbn. apply truthy_string_nonempty. exact Ht.
  - destruct (String.eqb name "__proto__").
    + rewrite Hd. auto.
    + intros _. rewrite lookup_insert_eq. cbn. apply truthy_string_nonempty. exact Ht.
Qed.

Lemma get_set_other (d : gmap string string) name target other :
  name <> other -> JS.get (JS.set d name target) other = JS.get d other.
Proof.
  intros Hne. unfold JS.get. rewrite set_lookup_other by exact Hne. reflexivity.
Qed.

Lemma set_set_same (d : gmap string string) name s t :
  JS.truthy_value JS.truthy_string (JS.get d name) = true ->
  JS.set (JS.set d name s) name t = JS.set d name t.
Proof.
  unfold JS.get, JS.set.
  destruct (d !! name) as [c|] eqn:Hd.
  - intros _. rewrite lookup_insert_eq. apply insert_insert_eq.
  - destruct (String.eqb name "__proto__") eqn:He.
    + rewrite ?Hd, ?He. reflexivity.
    + intros _. rewrite lookup_insert_eq. apply insert_insert_eq.
Qed.

Lemma set_set_other (d : gmap string string) p q s t :
  p <> q -> JS.set (JS.set d q s) p t = JS.set (JS.set d p t) q s.
Proof.
  intros Hne.
  assert (Hq : JS.set d p t !! q = d !! q) by (apply set_lookup_other; exact Hne).
  assert (Hp : JS.set d q s !! p = d !! p) by (apply set_lookup_other; congruence).
  unfold JS.set at 1 3. rewrite Hq, Hp. unfold JS.set.
  destruct (d !! p), (d !! q), (String.eqb p "__proto__"), (String.eqb q "__proto__");
    try reflexivity; apply insert_insert_ne; congruence.
Qed.

(** [assign_if_listed] on a map that is present. *)
Lemma assign_map_some (d : gmap string string) u :
  assign_map (Some d) u
  = match target_of u with
    | Some target =>
        if JS.truthy_value JS.truthy_string (JS.get d (Update.package u))
        then Some (JS.set d (Update.package u) target)
        else Some d
    | None => Some d
    end.
Proof.
  unfold assign_map, assign_if_listed. destruct (target_of u); [|reflexivity].
  destruct (JS.truthy_value _ _); reflexivity.
Qed.

Lemma assign_map_none u : assign_map None u = None.
Proof. unfold assign_map. destruct (target_of u); reflexivity. Qed.

(** A second update of the same package overwrites the first. *)
Lemma assign_map_overwrites deps u v :
  Update.package v = Update.package u -> is_Some (target_of v) ->
  assign_map (assign_map deps u) v = assign_map deps v.
Proof.
  intros Hp [tv Hv]. destruct deps as [d|]; [|rewrite !assign_map_none; reflexivity].
  rewrite (assign_map_some d u).
  destruct (target_of u) as [tu|] eqn:Hu; [|reflexivity].
  destruct (JS.truthy_value JS.truthy_string (JS.get d (Update.package u))) eqn:Hl;
    [|reflexivity].
  rewrite !assign_map_some, Hv, Hp, Hl.
  rewrite (get_set_same d _ tu (target_of_nonempty _ _ Hu) Hl).
  rewrite (set_set_same d _ tu tv Hl). reflexivity.
Qed.

(** Updates of different packages commute. *)
Lemma assign_map_commutes deps u v :
  Update.package u <> Update.package v ->
  assign_map (assign_map deps u) v = assign_map (assign_map deps v) u.
Proof.
  intros Hne. destruct deps as [d|]; [|rewrite !assign_map_none; reflexivity].
  rewrite (assign_map_some d u), (assign_map_some d v).
  destruct (target_of u) as [tu|] eqn:Hu, (target_of v) as [tv|] eqn:Hv;
    rewrite ?assign_map_some, ?Hu, ?Hv; try reflexivity.
  - destruct (JS.truthy_value JS.truthy_string (JS.get d (Update.package u))) eqn:Lu,
             (JS.truthy_value JS.truthy_string (JS.get d (Update.package v))) eqn:Lv;
      rewrite ?assign_map_some, ?Hu, ?Hv, ?get_set_other, ?Lu, ?Lv by congruence;
      try reflexivity.
    f_equal. apply set_set_other. congruence.
  - destruct (JS.truthy_value JS.truthy_string (JS.get d (Update.package u)));
      rewrite ?assign_map_some, ?Hu, ?Hv; reflexivity.
  - destruct (JS.truthy_value JS.truthy_string (JS.get d (Update.package v)));
      rewrite ?assign_map_some, ?Hu, ?Hv; reflexivity.
Qed.

Lemma assign_map_idle deps u : target_of u = None -> assign_map deps u = deps.
Proof. unfold assign_map. intros ->. reflexivity. Qed.

(** An update that is applied before [updates] is lost when one of them
    writes the same package, and can be applied after them otherwise. *)
Lemma assign_maps_absorb updates deps u :
  fold_left assign_map updates (assign_map deps u)
  = if overridden updates u
    then fold_left assign_map updates deps
    else assign_map (fold_left assign_map updates deps) u.
Proof.
  revert deps. induction updates as [|v vs IH]; intros deps; [reflexivity|].
  cbn [fold_left overridden existsb]. fold (overridden vs u).
  destruct (String.eqb_spec (Update.package v) (Update.package u)) as [Hp|Hp].
  - destruct (target_of v) as [tv|] eqn:Hv.
    + rewrite bool_decide_true by eauto. cbn [andb orb].
      rewrite assign_map_overwrites; [reflexivity | exact Hp | rewrite Hv; eauto].
    + rewrite bool_decide_false by (rewrite <- not_eq_None_Some; auto). cbn [andb orb].
      rewrite !(assign_map_idle _ v Hv). apply IH.
  - cbn [andb orb]. rewrite assign_map_commutes by congruence. apply IH.
Qed.

Lemma assign_map_twice deps u : assign_map (assign_map deps u) u = assign_map deps u.
Proof.
  destruct (target_of u) as [t|] eqn:Hu.
  - apply assign_map_overwrites; [reflexivity | rewrite Hu; eauto].
  - rewrite !(assign_map_idle _ u Hu). reflexivity.
Qed.

Lemma assign_maps_twice updates deps :
  fold_left assign_map updates (fold_left assign_map updates deps)
  = fold_left assign_map updates deps.
Proof.
  revert deps. induction updates as [|u us IH] using rev_ind; intros deps; [reflexivity|].
  rewrite !fold_left_app. cbn [fold_left].
  rewrite assign_maps_absorb.
  destruct (overridden us u).
  - rewrite IH. reflexivity.
  - rewrite IH. apply assign_map_twice.
Qed.

(** Applying a list of updates to a manifest to which it was already
    applied leaves the content as it is. *)
Theorem apply_updates_twice :
  forall (updates : list Update.t) (content : Manifest.t) (h1 h2 : bool),
    fst (fold_left apply_update updates
           (fst (fold_left apply_update updates (content, h1)), h2))
    = fst (fold_left apply_update updates (content, h1)).
Proof.
  intros updates content h1 h2.
  rewrite !apply_updates_maps. cbn [Manifest.dependencies Manifest.devDependencies].
  rewrite !assign_maps_twice. reflexivity.
Qed.

End ApplyingTwice.

(** ** Order of updates *)

Section UpdateOrder.

Import DependencyManager.

Lemma assign_maps_permutation (us us' : list Update.t) deps :
  NoDup (map Update.package us) -> Permutation us us' ->
  fold_left assign_map us deps = fold_left assign_map us' deps.
Proof.
  intros Hnd Hperm. revert deps Hnd.
  induction Hperm as [|x l l' _ IH|x y l|l l' l'' H1 IH1 H2 IH2]; intros deps Hnd.
  - reflexivity.
  - cbn [fold_left]. apply IH. cbn in Hnd. apply NoDup_cons in Hnd. tauto.
  - cbn [fold_left]. rewrite (assign_map_commutes deps y x); [reflexivity|].
    cbn in Hnd. apply NoDup_cons in Hnd. destruct Hnd as [Hnotin _].
    intros Heq. apply Hnotin. rewrite Heq. left.
  - rewrite IH1 by exact Hnd. apply IH2.
    assert (Hm : Permutation (map Update.package l) (map Update.package l'))
      by (apply Permutation_map; exact H1).
    rewrite <- Hm. exact Hnd.
Qed.

(** When no two updates are for the same package, the content that the
    loop of [applyUpdates] produces does not depend on their order. *)
Theorem apply_updates_order_irrelevant :
  forall (updates updates' : list Update.t) (content : Manifest.t) (hasChanges : bool),
    NoDup (map Update.package updates) ->
    Permutation updates updates' ->
    fst (fold_left apply_update updates (content, hasChanges))
    = fst (fold_left apply_update updates' (content, hasChanges)).
Proof.
  intros updates updates' content hasChanges Hnd Hperm.
  rewrite !apply_updates_maps.
  rewrite !(assign_maps_permutation updates updates' _ Hnd Hperm). reflexivity.
Qed.

(** When two updates are for the same package and the later one writes a
    version, the earlier one leaves no trace in the content. *)
Theorem apply_update_last_wins :
  forall (u v : Update.t) (content : Manifest.t) (h1 h2 h3 : bool),
    Update.package v = Update.package u ->
    is_Some (target_of v) ->
    fst (apply_update (fst (apply_update (content, h1) u), h2) v)
    = fst (apply_update (content, h3) v).
Proof.
  intros u v content h1 h2 h3 Hp Hv.
  rewrite !apply_update_maps. cbn [Manifest.dependencies Manifest.devDependencies].
  rewrite !(assign_map_overwrites _ u v Hp Hv). reflexivity.
Qed.

End UpdateOrder.

Lemma apply_updates_order_irrelevant_witness :
  fst (fold_left DependencyManager.apply_update
         [lodash_update; DependencyManager.outdated_update "axios" axios_outdated]
         (two_package_manifest "1.0.0" "0.21.0", false))
  = fst (fold_left DependencyManager.apply_update
           [DependencyManager.outdated_update "axios" axios_outdated; lodash_update]
           (two_package_manifest "1.0.0" "0.21.0", false)).
Proof.
  apply (apply_updates_order_irrelevant
           [lodash_update; DependencyManager.outdated_update "axios" axios_outdated]
           [DependencyManager.outdated_update "axios" axios_outdated; lodash_update]).
  - apply NoDup_cons. split; [|apply NoDup_singleton].
    intros H. apply list_elem_of_singleton in H. discriminate H.
  - apply perm_swap.
Defined.

Lemma apply_update_last_wins_witness :
  fst (DependencyManager.apply_update
         (fst (DependencyManager.apply_update (lodash_manifest "1.0.0", false)
                 (DependencyManager.outdated_update "lodash" lodash_outdated)),
          true)
         lodash_update)
  = fst (DependencyManager.apply_update (lodash_manifest "1.0.0", false) lodash_update).
Proof.
  apply (apply_update_last_wins (DependencyManager.outdated_update "lodash" lodash_outdated)
           lodash_update (lodash_manifest "1.0.0") false true false).
  - reflexivity.
  - exists "2.0.0". reflexivity.
Defined.

(** ** Building the plan *)

Section Plan.

Import DependencyManager.

Variable excludePackages : list string.
Variable now : Z.

Lemma collect_security_map_filter mode (entries : Vulns) (updates : list Update.t) :
  collect_security excludePackages now mode entries updates
  = (updates ++ map (planned_update now)
                    (List.filter (planned excludePackages now mode) entries))%list.
Proof.
  revert updates. induction entries as [|[vulnId vulnData] rest IH]; intros updates.
  - cbn. rewrite app_nil_r. reflexivity.
  - cbn [collect_security List.filter].
    assert (Hk : planned excludePackages now mode (vulnId, vulnData)
                 = negb (is_auto mode
                         && negb (Analysis.shouldAutoUpdate
                                    (analyzeVulnerability now (Some vulnId) vulnData)))
                   && negb (JS.array_includes excludePackages
                              (Analysis.module
                                 (analyzeVulnerability now (Some vulnId) vulnData))))
      by reflexivity.
    rewrite Hk.
    destruct (is_auto mode && negb _); cbn [negb andb]; [apply IH|].
    destruct (JS.array_includes excludePackages _); cbn [negb]; [apply IH|].
    rewrite IH. cbn [map]. rewrite <- app_assoc. reflexivity.
Qed.

Lemma collect_outdated_map mode (entries : Outdated) (updates : list Update.t) :
  collect_outdated mode entries updates
  = (updates ++ if is_auto mode then []
                else map (fun e => outdated_update (fst e) (snd e)) entries)%list.
Proof.
  revert updates. induction entries as [|[packageName packageInfo] rest IH]; intros updates.
  - cbn. destruct (is_auto mode); rewrite app_nil_r; reflexivity.
  - cbn [collect_outdated]. destruct (is_auto mode) eqn:Hm.
    + rewrite IH, ?Hm. reflexivity.
    + rewrite IH, ?Hm. cbn [map fst snd]. rewrite <- app_assoc. reflexivity.
Qed.

(** The plan of [updateDependencies], in order: one security update for
    every vulnerability whose module is not excluded (under the Auto
    policy: and that is marked for automatic update); then, except under
    the Auto policy, one update for every outdated package, whether the
    package is excluded or not. *)
Theorem plan_is_filter_then_map :
  forall (mode : Mode) (vulns : Vulns) (outdated : Outdated),
    collect_outdated mode outdated (collect_security excludePackages now mode vulns [])
    = (map (planned_update now) (List.filter (planned excludePackages now mode) vulns)
       ++ if is_auto mode then []
          else map (fun e => outdated_update (fst e) (snd e)) outdated)%list.
Proof.
  intros mode vulns outdated.
  rewrite collect_outdated_map, collect_security_map_filter. reflexivity.
Qed.

End Plan.

(** ** Policies and the operator *)

Section Policies.

Import DependencyManager.

Variable isDryRun : bool.
Variable excludePackages : list string.
Variable now : Z.
Variable execSync_outcome : World -> string -> string -> JS.ExecOutcome.
Variable writeFileSync_ok : World -> string -> bool.

Lemma update_each_auto_flag isForceUpdate packages w :
  update_each isDryRun true isForceUpdate excludePackages now execSync_outcome
    writeFileSync_ok packages w
  = update_each isDryRun true false excludePackages now execSync_outcome
      writeFileSync_ok packages w.
Proof.
  revert w. induction packages as [|[[dir vulns] outdatedData] rest IH]; intros w.
  - reflexivity.
  - cbn [update_each]. cbv beta iota delta [bind ret].
    assert (Hu : forall w0,
               updateDependencies isDryRun true isForceUpdate excludePackages now
                 execSync_outcome writeFileSync_ok dir vulns outdatedData
                 (mode_of_flags true isForceUpdate) w0
               = updateDependencies isDryRun true false excludePackages now
                   execSync_outcome writeFileSync_ok dir vulns outdatedData
                   (mode_of_flags true false) w0).
    { intros w0. reflexivity. }
    destruct ((0 <? length vulns)%nat || (0 <? length outdatedData)%nat).
    + rewrite Hu.
      destruct (updateDependencies _ _ _ _ _ _ _ _ _ _ _ _) as [b w1]. apply IH.
    + apply IH.
Qed.

(** With --auto-update, --force-update makes no difference: the loop of
    [main] runs every package under the Auto policy. *)
Theorem auto_flag_overrides_force_flag :
  forall (isForceUpdate scanOnly : bool) (packages : list (string * Vulns * Outdated))
         (w : World),
    mode_of_flags true isForceUpdate = ModeAuto
    /\ main_updates isDryRun true isForceUpdate excludePackages now execSync_outcome
         writeFileSync_ok scanOnly packages w
       = main_updates isDryRun true false excludePackages now execSync_outcome
           writeFileSync_ok scanOnly packages w.
Proof.
  intros isForceUpdate scanOnly packages w. split; [reflexivity|].
  unfold main_updates. destruct scanOnly; [reflexivity|]. apply update_each_auto_flag.
Qed.

Lemma select_updates_spec updates selected w :
  let r := select_updates updates selected w in
  exists chosen,
    fst r = (selected ++ chosen)%list
    /\ sublist chosen updates
    /\ (forall u, In u chosen ->
          exists i, updates !! i = Some u /\ answer_at w (asked w + i) = "y")
    /\ (asked w <= asked (snd r) <= asked w + length updates)%nat
    /\ same_but_asked w (snd r).
Proof.
  revert selected w. induction updates as [|update rest IH]; intros selected w r; subst r.
  - exists []. cbn. rewrite app_nil_r.
    split; [reflexivity|]. split; [constructor|]. split; [intros u []|].
    split; [lia|]. unfold same_but_asked. auto 10.
  - cbn [select_updates]. unfold bind, ask. cbn [length].
    fold (answer_at w (asked w)).
    set (w1 := mkWorld (fs w) (answers w) (S (asked w)) (effects w) (testLog w) (console w)).
    assert (Hans : forall n, answer_at w1 n = answer_at w n) by reflexivity.
    destruct (String.eqb_spec (answer_at w (asked w)) "q") as [Hq|Hq].
    + exists []. cbn. rewrite app_nil_r.
      split; [reflexivity|]. split; [apply sublist_nil_l|]. split; [intros u []|].
      split; [lia|]. unfold same_but_asked. auto 10.
    + destruct (String.eqb_spec (answer_at w (asked w)) "y") as [Hy|Hy].
      * destruct (IH (selected ++ [update])%list w1) as (chosen & H1 & H2 & H3 & H4 & H5).
        exists (update :: chosen). cbn in H4.
        split; [rewrite H1, <- app_assoc; reflexivity|].
        split; [apply sublist_skip; exact H2|].
        split.
        { intros u [<-|Hu].
          - exists 0%nat. split; [reflexivity|]. rewrite Nat.add_0_r. exact Hy.
          - destruct (H3 u Hu) as (i & Hi & Ha). exists (S i). split; [exact Hi|].
            rewrite Hans in Ha. cbn in Ha. rewrite Nat.add_succ_r. exact Ha. }
        split; [lia|].
        destruct H5 as (? & ? & ? & ? & ?). repeat split; assumption.
      * destruct (IH selected w1) as (chosen & H1 & H2 & H3 & H4 & H5).
        exists chosen. cbn in H4.
        split; [exact H1|].
        split; [apply sublist_cons; exact H2|].
        split.
        { intros u Hu. destruct (H3 u Hu) as (i & Hi & Ha). exists (S i). split; [exact Hi|].
          rewrite Hans in Ha. cbn in Ha. rewrite Nat.add_succ_r. exact Ha. }
        split; [lia|].
        destruct H5 as (? & ? & ? & ? & ?). repeat split; assumption.
Qed.

(** The interactive selection asks at most one question per update and
    does nothing else.  The updates it selects are, in their order, some
    of the updates offered, and each of them was confirmed with [y] at its
    own question. *)
Theorem select_updates_selects_confirmed_updates :
  forall (updates : list Update.t) (w : World),
    let r := select_updates updates [] w in
    sublist (fst r) updates
    /\ (forall u, In u (fst r) ->
          exists i, updates !! i = Some u /\ answer_at w (asked w + i) = "y")
    /\ (asked w <= asked (snd r) <= asked w + length updates)%nat
    /\ same_but_asked w (snd r).
Proof.
  intros updates w r.
  destruct (select_updates_spec updates [] w) as (chosen & H1 & H2 & H3 & H4 & H5).
  fold r in H1, H4, H5. cbn in H1. rewrite H1. auto.
Qed.

(** Under the Interactive policy an answer other than [a], [s] and [i]
    skips the updates: [updateDependencies] returns [true] and has done
    nothing but ask its question. *)
Theorem interactive_default_skips :
  forall (packageDir : string) (vulns : Vulns) (outdated : Outdated) (w : World)
         (content : Manifest.t),
    fs w !! package_json_path packageDir = Some content ->
    answer_at w (asked w) <> "a" ->
    answer_at w (asked w) <> "s" ->
    answer_at w (asked w) <> "i" ->
    let r :=
      updateDependencies isDryRun false false excludePackages now execSync_outcome
        writeFileSync_ok packageDir vulns outdated ModeInteractive w in
    fst r = true /\ same_but_asked w (snd r) /\ (asked (snd r) <= S (asked w))%nat.
Proof.
  intros packageDir vulns outdated w content Hc Ha Hs Hi r. subst r.
  unfold updateDependencies.
  cbv beta iota delta [bind getPackageJson]. rewrite Hc.
  destruct (collect_outdated ModeInteractive outdated _) as [|u us].
  - cbn. unfold same_but_asked. auto 10.
  - cbn [is_auto is_force orb]. unfold ask. fold (answer_at w (asked w)).
    destruct (String.eqb_spec (answer_at w (asked w)) "a"); [contradiction|].
    destruct (String.eqb_spec (answer_at w (asked w)) "s"); [contradiction|].
    destruct (String.eqb_spec (answer_at w (asked w)) "i"); [contradiction|].
    cbn. unfold same_but_asked. auto 10.
Qed.

End Policies.

Lemma interactive_default_skips_witness :
  let r :=
    DependencyManager.updateDependencies false false false [] scan_time
      every_command_succeeds every_file_writable "/repo"
      [("GHSA-1", lodash_vulnerability)] [] DependencyManager.ModeInteractive
      (repo_world (lodash_manifest "1.0.0")) in
  fst r = true
  /\ same_but_asked (repo_world (lodash_manifest "1.0.0")) (snd r)
  /\ (DependencyManager.asked (snd r)
      <= S (DependencyManager.asked (repo_world (lodash_manifest "1.0.0"))))%nat.
Proof.
  apply (interactive_default_skips false [] scan_time every_command_succeeds
           every_file_writable "/repo" [("GHSA-1", lodash_vulnerability)] []
           (repo_world (lodash_manifest "1.0.0")) (lodash_manifest "1.0.0"));
    first [reflexivity | discriminate].
Defined.

(** ** The security report *)

Section ReportProperties.

Import DependencyManager SecurityReport.

Variable now : Z.

Lemma count_severity_cons severity v vs :
  count_severity now severity (v :: vs)
  = ((if String.eqb (Analysis.severity (analyzeVulnerability now (VulnData.id v) v)) severity
      then 1 else 0) + count_severity now severity vs)%Z.
Proof.
  unfold count_severity. cbn [List.filter].
  destruct (String.eqb _ severity); cbn [length]; lia.
Qed.

Lemma count_vulnerabilities_fold (vs : list VulnData.t) (s : Summary.t) :
  fold_left (count_vulnerability now) vs s
  = Summary.mk
      (Summary.totalVulnerabilities s + Z.of_nat (length vs))
      (Summary.criticalVulnerabilities s + count_severity now "critical" vs)
      (Summary.highVulnerabilities s + count_severity now "high" vs)
      (Summary.moderateVulnerabilities s + count_severity now "moderate" vs)
      (Summary.lowVulnerabilities s + count_severity now "low" vs)
      (Summary.outdatedPackages s) (Summary.overallScore s).
Proof.
  revert s. induction vs as [|v vs IH]; intros s.
  - destruct s. cbn. unfold count_severity. cbn. f_equal; lia.
  - cbn [fold_left]. rewrite IH. rewrite !count_severity_cons.
    unfold count_vulnerability.
    set (severity := Analysis.severity (analyzeVulnerability now (VulnData.id v) v)).
    destruct (String.eqb_spec severity "critical") as [->|H1];
      [cbn; f_equal; lia|].
    destruct (String.eqb_spec severity "high") as [->|H2];
      [cbn; f_equal; lia|].
    destruct (String.eqb_spec severity "moderate") as [->|H3];
      [cbn; f_equal; lia|].
    destruct (String.eqb_spec severity "low") as [->|H4];
      cbn; f_equal; lia.
Qed.

Lemma count_severity_app severity l1 l2 :
  count_severity now severity (l1 ++ l2)
  = (count_severity now severity l1 + count_severity now severity l2)%Z.
Proof.
  unfold count_severity. rewrite List.filter_app, length_app. lia.
Qed.

Lemma sum_Z_app l1 l2 : sum_Z (l1 ++ l2) = (sum_Z l1 + sum_Z l2)%Z.
Proof.
  unfold sum_Z. induction l1 as [|x l1 IH]; cbn [app fold_right]; [lia | rewrite IH; lia].
Qed.

(** The loop over [scanResults]. *)
Lemma report_packages_fold (rs : list (string * ScanData.t)) (st : Loop) :
  let s := ReportData.summary (reportData st) in
  fold_left (report_package now) rs st
  = mkLoop
      (ReportData.mk (ReportData.timestamp (reportData st)) (ReportData.project (reportData st))
         (ReportData.packages (reportData st) ++ map (package_entry now) rs)
         (Summary.mk
            (Summary.totalVulnerabilities s + Z.of_nat (length (all_vulnerabilities rs)))
            (Summary.criticalVulnerabilities s
             + count_severity now "critical" (all_vulnerabilities rs))
            (Summary.highVulnerabilities s + count_severity now "high" (all_vulnerabilities rs))
            (Summary.moderateVulnerabilities s
             + count_severity now "moderate" (all_vulnerabilities rs))
            (Summary.lowVulnerabilities s + count_severity now "low" (all_vulnerabilities rs))
            (Summary.outdatedPackages s + Z.of_nat (length (all_outdated rs)))
            (Summary.overallScore s)))
      (totalScore st + sum_Z (map (package_score now) rs))
      (packageCount st + Z.of_nat (length rs)).
Proof.
  revert st. induction rs as [|[packageName data] rs IH]; intros st s; subst s.
  - destruct st as [[ts pr ps [a b c d e f g]] t c0]. cbn. rewrite app_nil_r.
    unfold count_severity. cbn. f_equal; [f_equal; f_equal; lia | lia | lia].
  - cbn [fold_left]. rewrite IH. clear IH.
    unfold report_package. rewrite count_vulnerabilities_fold.
    cbn [reportData totalScore packageCount ReportData.summary ReportData.packages
         ReportData.timestamp ReportData.project Summary.totalVulnerabilities
         Summary.criticalVulnerabilities Summary.highVulnerabilities
         Summary.moderateVulnerabilities Summary.lowVulnerabilities
         Summary.outdatedPackages Summary.overallScore].
    unfold all_vulnerabilities, all_outdated. cbn [map concat snd fst].
    rewrite !count_severity_app, !length_app, !length_map.
    unfold sum_Z, package_score. cbn [fold_right map length snd].
    rewrite <- app_assoc. cbn [app].
    repeat first [lia | reflexivity | progress f_equal].
Qed.

(** The summary of the report counts over all packages: the total counts
    every vulnerability, each severity counter counts the vulnerabilities
    that the analyzer gives that severity, so the four counters add up to
    at most the total; and every package has its entry, in order, with its
    own counts and its own score. *)
Theorem report_summary_counts :
  forall (timestamp : string) (scanResults : list (string * ScanData.t)),
    let data := build_report now timestamp scanResults in
    let s := ReportData.summary data in
    let all := all_vulnerabilities scanResults in
    Summary.totalVulnerabilities s = Z.of_nat (length all)
    /\ Summary.criticalVulnerabilities s = count_severity now "critical" all
    /\ Summary.highVulnerabilities s = count_severity now "high" all
    /\ Summary.moderateVulnerabilities s = count_severity now "moderate" all
    /\ Summary.lowVulnerabilities s = count_severity now "low" all
    /\ Summary.outdatedPackages s = Z.of_nat (length (all_outdated scanResults))
    /\ (Summary.criticalVulnerabilities s + Summary.highVulnerabilities s
        + Summary.moderateVulnerabilities s + Summary.lowVulnerabilities s
        <= Summary.totalVulnerabilities s)%Z
    /\ ReportData.packages data = map (package_entry now) scanResults.
Proof.
  intros timestamp scanResults data s all. subst s data all.
  unfold build_report. rewrite report_packages_fold. cbn.
  repeat split; try reflexivity.
  induction (all_vulnerabilities scanResults) as [|v vs IH].
  - unfold count_severity. cbn. lia.
  - rewrite !count_severity_cons. cbn [length].
    set (severity := Analysis.severity (analyzeVulnerability now (VulnData.id v) v)).
    destruct (String.eqb_spec severity "critical") as [->|H1]; [cbn; lia|].
    destruct (String.eqb_spec severity "high") as [->|H2]; [cbn; lia|].
    destruct (String.eqb_spec severity "moderate") as [->|H3]; [cbn; lia|].
    destruct (String.eqb_spec severity "low") as [->|H4]; cbn; lia.
Qed.

Lemma score_between_0_and_100 (vulns : Vulns) (outdated : Outdated) :
  (0 <= calculateSecurityScore now vulns outdated <= 100)%Z.
Proof.
  unfold calculateSecurityScore.
  destruct (score_loop_deduction now (map snd vulns)) as (d & Hd & ->). lia.
Qed.

Lemma round_quotient_between (total count lo hi : Z) :
  (0 < count)%Z -> (count * lo <= total <= count * hi)%Z ->
  (lo <= round_quotient total count <= hi)%Z.
Proof.
  intros Hc [Hlo Hhi]. unfold round_quotient. split.
  - apply Z.div_le_lower_bound; lia.
  - apply Z.lt_succ_r. apply Z.div_lt_upper_bound; lia.
Qed.

Lemma sum_scores_between (rs : list (string * ScanData.t)) (lo hi : Z) :
  Forall (fun e => (lo <= package_score now e <= hi)%Z) rs ->
  (Z.of_nat (length rs) * lo <= sum_Z (map (package_score now) rs)
   <= Z.of_nat (length rs) * hi)%Z.
Proof.
  unfold sum_Z.
  induction 1 as [|e rs He _ IH]; cbn [map fold_right length]; [lia|].
  rewrite Nat2Z.inj_succ. nia.
Qed.

(** The overall score of the report is 100 when no package was scanned.
    Otherwise it is the mean of the package scores rounded to the nearest
    integer (a half rounded up), so it lies between the lowest and the
    highest package score, and between 0 and 100. *)
Theorem report_overall_score :
  forall (timestamp : string) (scanResults : list (string * ScanData.t)) (lo hi : Z),
    let overall := Summary.overallScore (ReportData.summary (build_report now timestamp scanResults)) in
    let total := sum_Z (map (package_score now) scanResults) in
    let count := Z.of_nat (length scanResults) in
    (scanResults = [] -> overall = 100%Z)
    /\ (scanResults <> [] ->
        (2 * count * overall <= 2 * total + count < 2 * count * overall + 2 * count)%Z)
    /\ (scanResults <> [] ->
        Forall (fun e => (lo <= package_score now e <= hi)%Z) scanResults ->
        (lo <= overall <= hi)%Z)
    /\ (0 <= overall <= 100)%Z.
Proof.
  intros timestamp scanResults lo hi overall total count. subst overall total count.
  unfold build_report. rewrite report_packages_fold.
  cbn [reportData totalScore packageCount ReportData.summary Summary.overallScore].
  rewrite !Z.add_0_l.
  destruct scanResults as [|e rs].
  - cbn. split; [reflexivity|]. split; [congruence|]. split; [congruence|].
    change (Z.of_nat 0) with 0%Z. cbn. lia.
  - assert (Hpos : (0 < Z.of_nat (length (e :: rs)))%Z) by (cbn [length]; lia).
    apply Z.ltb_lt in Hpos as Hb. rewrite Hb.
    split; [discriminate|]. split; [|split].
    + intros _. unfold round_quotient.
      pose proof (Z.div_mod (2 * sum_Z (map (package_score now) (e :: rs))
                             + Z.of_nat (length (e :: rs)))
                            (2 * Z.of_nat (length (e :: rs)))) as Hdm.
      pose proof (Z.mod_pos_bound (2 * sum_Z (map (package_score now) (e :: rs))
                                   + Z.of_nat (length (e :: rs)))
                                  (2 * Z.of_nat (length (e :: rs)))) as Hmod.
      lia.
    + intros _ Hall. apply round_quotient_between; [exact Hpos|].
      apply sum_scores_between. exact Hall.
    + apply round_quotient_between; [exact Hpos|].
      apply sum_scores_between. apply Forall_forall. intros x _.
      apply score_between_0_and_100.
Qed.

(** [generateSecurityReport] writes the report file at most once and never
    in a dry run; it creates the reports directory exactly when it is
    missing, in a dry run too.  When it resolves, it resolves to the report
    it built, and outside a dry run that report is what it wrote, to the
    file named after the first ten characters of the time stamp. *)
Theorem generateSecurityReport_files :
  forall (isDryRun : bool) (timestamp projectRoot : string)
         (reportsDirExists mkdir_ok write_ok : bool) (scanResults : list (string * ScanData.t)),
    let r :=
      generateSecurityReport isDryRun now timestamp projectRoot reportsDirExists mkdir_ok
        write_ok scanResults in
    let data := build_report now timestamp scanResults in
    (length (List.filter is_write_report (snd r)) <= 1)%nat
    /\ (isDryRun = true -> List.filter is_write_report (snd r) = [])
    /\ List.filter is_mkdir (snd r)
       = (if reportsDirExists then [] else [Mkdir (reports_dir projectRoot)])
    /\ (forall d, fst r = Some d -> d = data)
    /\ (forall d, fst r = Some d -> isDryRun = false ->
        List.filter is_write_report (snd r)
        = [WriteReport (report_file projectRoot timestamp) data])
    /\ (fst r = None <->
        (reportsDirExists = false /\ mkdir_ok = false)
        \/ (isDryRun = false /\ write_ok = false)).
Proof.
  intros isDryRun timestamp projectRoot reportsDirExists mkdir_ok write_ok scanResults r data.
  subst r data. unfold generateSecurityReport.
  destruct reportsDirExists, mkdir_ok, isDryRun, write_ok; cbn;
    repeat split; try lia; try congruence; intros;
    try match goal with H : Some _ = Some _ |- _ => injection H as <- end;
    try reflexivity; try discriminate; try tauto;
    try (left; split; reflexivity); try (right; split; reflexivity);
    try match goal with H : _ \/ _ |- _ => destruct H as [[? ?]|[? ?]]; discriminate end.
Qed.

End ReportProperties.

(** ** Listing the security branches *)

Section Listing.

Import BranchManager.

Variable Repo : Type.
Variable run : string -> Repo -> JS.ExecOutcome * Repo.

Lemma array_includes_In (arr : list string) (x : string) :
  JS.array_includes arr x = true <-> In x arr.
Proof.
  unfold JS.array_includes. rewrite existsb_exists. split.
  - intros (y & Hy & He). apply String.eqb_eq in He. subst y. exact Hy.
  - intros H. exists x. split; [exact H | apply String.eqb_refl].
Qed.

Lemma unique_go_spec (seen xs : list string) :
  NoDup (unique_go seen xs)
  /\ forall x, In x (unique_go seen xs) <-> In x xs /\ ~ In x seen.
Proof.
  revert seen. induction xs as [|y ys IH]; intros seen.
  - split; [constructor | cbn; tauto].
  - cbn [unique_go].
    destruct (JS.array_includes seen y) eqn:E.
    + apply array_includes_In in E. destruct (IH seen) as [Hnd Hin].
      split; [exact Hnd|]. intros x. rewrite Hin. cbn. split; [tauto|].
      intros [[<-|H] Hn]; [contradiction | tauto].
    + assert (Hy : ~ In y seen) by (rewrite <- array_includes_In; congruence).
      destruct (IH (seen ++ [y])%list) as [Hnd Hin].
      split.
      * apply NoDup_cons. split; [|exact Hnd].
        rewrite list_elem_of_In, Hin. rewrite in_app_iff. cbn. tauto.
      * intros x. cbn. rewrite Hin, in_app_iff. cbn.
        destruct (String.eqb_spec y x) as [->|Hne]; [tauto|]. tauto.
Qed.

(** [[...new Set(xs)]] keeps every element of [xs] once. *)
Lemma unique_spec (xs : list string) :
  NoDup (unique xs) /\ forall x, In x (unique xs) <-> In x xs.
Proof.
  destruct (unique_go_spec [] xs) as [Hnd Hin]. split; [exact Hnd|].
  intros x. unfold unique. rewrite Hin. cbn. tauto.
Qed.

(** When both listings succeed, [listSecurityBranches] runs the two
    listing commands and nothing else, and returns every security branch
    of the remote or of the local listing exactly once. *)
Theorem listSecurityBranches_lists_each_branch_once :
  forall (w : World Repo) (remoteBranches localBranches : string) (r1 r2 : Repo),
    run "git branch -r" (repo Repo w) = (JS.Returned remoteBranches, r1) ->
    run "git branch" r1 = (JS.Returned localBranches, r2) ->
    let result := listSecurityBranches Repo run w in
    NoDup (fst result)
    /\ (forall b, In b (fst result) <->
          In b (remote_security_branches remoteBranches)
          \/ In b (local_security_branches localBranches))
    /\ commands Repo (snd result) = (commands Repo w ++ ["git branch -r"; "git branch"])%list
    /\ repo Repo (snd result) = r2.
Proof.
  intros w remoteBranches localBranches r1 r2 H1 H2 result. subst result.
  unfold listSecurityBranches, execSync.
  cbv beta iota delta [bind]. rewrite H1. cbn [repo]. rewrite H2.
  destruct (unique_spec (remote_security_branches remoteBranches
                         ++ local_security_branches localBranches)) as [Hnd Hin].
  destruct (unique (remote_security_branches remoteBranches
                    ++ local_security_branches localBranches)) as [|b bs] eqn:Hu.
  - cbn. split; [constructor|]. split.
    + intros b. rewrite <- in_app_iff, <- Hin. reflexivity.
    + rewrite <- app_assoc. split; reflexivity.
  - unfold print_group, console_line, ret.
    repeat match goal with
           | |- context [match ?l with [] => _ | _ :: _ => _ end] => destruct l
           end;
      cbn; (split; [exact Hnd|]); (split; [intros x; rewrite <- in_app_iff, <- Hin; reflexivity|]);
      rewrite <- app_assoc; split; reflexivity.
Qed.

(** When a listing command fails, [listSecurityBranches] prints the error
    and returns no branch. *)
Theorem listSecurityBranches_failure_gives_nothing :
  forall (w : World Repo),
    let result := listSecurityBranches Repo run w in
    match run "git branch -r" (repo Repo w) with
    | (JS.Threw message _ _, r1) =>
        fst result = []
        /\ console Repo (snd result) = (console Repo w ++ [ErrorCheckingBranches message])%list
        /\ commands Repo (snd result) = (commands Repo w ++ ["git branch -r"])%list
    | (JS.Returned _, r1) =>
        match run "git branch" r1 with
        | (JS.Threw message _ _, _) =>
            fst result = []
            /\ console Repo (snd result)
               = (console Repo w ++ [ErrorCheckingBranches message])%list
        | (JS.Returned _, _) => True
        end
    end.
Proof.
  intros w result. subst result.
  unfold listSecurityBranches, execSync.
  cbv beta iota delta [bind].
  destruct (run "git branch -r" (repo Repo w)) as [[out1|message status stdout] r1];
    cbn [repo].
  - destruct (run "git branch" r1) as [[out2|message status stdout] r2]; [exact I|].
    cbn. split; reflexivity.
  - cbn. repeat split; reflexivity.
Qed.

End Listing.

Lemma listSecurityBranches_lists_each_branch_once_witness :
  let result := BranchManager.listSecurityBranches SampleRepo listing_git sample_repo_world in
  NoDup (fst result)
  /\ (forall b, In b (fst result) <->
        In b (BranchManager.remote_security_branches
                ("  origin/main" ++ BranchManager.LF ++ "  origin/aikido/fix-lodash"
                 ++ BranchManager.LF))
        \/ In b (BranchManager.local_security_branches
                   ("* main" ++ BranchManager.LF ++ "  security/manual-patch"
                    ++ BranchManager.LF)))
  /\ BranchManager.commands SampleRepo (snd result)
     = (BranchManager.commands SampleRepo sample_repo_world
        ++ ["git branch -r"; "git branch"])%list
  /\ BranchManager.repo SampleRepo (snd result) = mkSampleRepo "main" Clean.
Proof.
  apply (listSecurityBranches_lists_each_branch_once SampleRepo listing_git sample_repo_world
           ("  origin/main" ++ BranchManager.LF ++ "  origin/aikido/fix-lodash"
            ++ BranchManager.LF)
           ("* main" ++ BranchManager.LF ++ "  security/manual-patch" ++ BranchManager.LF)
           (mkSampleRepo "main" Clean) (mkSampleRepo "main" Clean));
    reflexivity.
Defined.

(** ** Merging: confirmation, switching, cleaning up *)

Lemma details_commands_allowed branchName c :
  In c (details_commands branchName) -> In c (merge_commands branchName).
Proof. unfold details_commands, merge_commands. cbn. tauto. Qed.

Section MergingMore.

Import BranchManager.

Variable Repo : Type.
Variable run : string -> Repo -> JS.ExecOutcome * Repo.

Lemma getBranchDetails_spec branchName (w : World Repo) :
  let w' := snd (getBranchDetails Repo run branchName w) in
  asked Repo w' = asked Repo w
  /\ answers Repo w' = answers Repo w
  /\ exists cmds,
       commands Repo w' = (commands Repo w ++ cmds)%list
       /\ Forall (fun c => In c (details_commands branchName)) cmds.
Proof.
  unfold getBranchDetails, execSync, console_line, ret, details_commands.
  cbv beta iota delta [bind].
  destruct (run _ (repo Repo w)) as [[o1|m1 s1 e1] r1]; cbn [repo commands].
  - destruct (run _ r1) as [[o2|m2 s2 e2] r2]; cbn [repo commands].
    + destruct (run _ r2) as [[o3|m3 s3 e3] r3]; cbn;
        (split; [reflexivity|]); (split; [reflexivity|]);
        eexists; (split; [rewrite <- !app_assoc; reflexivity|]);
        repeat constructor; cbn; tauto.
    + cbn. (split; [reflexivity|]); (split; [reflexivity|]).
      eexists; (split; [rewrite <- !app_assoc; reflexivity|]).
      repeat constructor; cbn; tauto.
  - cbn. (split; [reflexivity|]); (split; [reflexivity|]).
    eexists; (split; [reflexivity|]). repeat constructor; cbn; tauto.
Qed.






Lemma merges_after_ret branchName (c : Completion) :
  c <> Resolved true -> merges_after_or_stops run branchName (ret Repo c).
Proof. intros Hc w. right. exact Hc. Qed.

Lemma merges_after_merge_step branchName :
  merges_after_or_stops run branchName (merge_step Repo run branchName).
Proof. intros w. left. exists w, []. rewrite app_nil_r. split; reflexivity. Qed.

Lemma merges_after_bind {A : Type} branchName allowed (m : M Repo A)
  (k : A -> M Repo Completion) :
  issues allowed m ->
  (forall a, merges_after_or_stops run branchName (k a)) ->
  merges_after_or_stops run branchName (bind Repo m k).
Proof.
  intros Hm Hk w. unfold bind.
  destruct (Hm w) as (c1 & Hc1 & _).
  destruct (m w) as [a w0]. cbn [snd] in Hc1.
  destruct (Hk a w0) as [(w1 & pre & He & Hp)|Hn]; [|right; exact Hn].
  left. exists w1, (c1 ++ pre)%list. split; [exact He|].
  rewrite Hp, Hc1, app_assoc. reflexivity.
Qed.

Lemma merges_after_mergeAikidoBranch branchName :
  merges_after_or_stops run branchName (mergeAikidoBranch Repo run branchName).
Proof.
  assert (Hm : merges_after_or_stops run branchName (merge_after_switch Repo run branchName)).
  { unfold merge_after_switch.
    eapply merges_after_bind; [apply issues_getBranchDetails | intros _].
    eapply merges_after_bind; [apply (issues_ask Repo (merge_commands branchName)) | intros c].
    destruct (negb _); [apply merges_after_ret; discriminate|].
    apply merges_after_merge_step. }
  unfold mergeAikidoBranch.
  eapply merges_after_bind;
    [apply (issues_execSync Repo run (merge_commands branchName)); cbn; tauto | intros o].
  destruct o as [out|message status stdout]; [|apply merges_after_ret; discriminate].
  destruct (_ && _); [|exact Hm].
  eapply merges_after_bind; [apply (issues_ask Repo (merge_commands branchName)) | intros s].
  destruct (String.eqb s "y"); [|exact Hm].
  eapply merges_after_bind;
    [apply (issues_execSync Repo run (merge_commands branchName)); cbn; tauto | intros oc].
  destruct oc.
  - eapply merges_after_bind;
      [apply (issues_execSync Repo run (merge_commands branchName)); cbn; tauto | intros op].
    destruct op; [exact Hm|].
    eapply merges_after_bind;
      [apply (issues_console_line Repo (merge_commands branchName)) | intros _].
    apply merges_after_ret; discriminate.
  - eapply merges_after_bind;
      [apply (issues_console_line Repo (merge_commands branchName)) | intros _].
    apply merges_after_ret; discriminate.
Qed.

(** [mergeAikidoBranch] resolves to [true] only when it ran the merge
    command and the command succeeded; after it, at most the command that
    deletes the branch is run. *)
Theorem merge_success_means_merged :
  forall (branchName : string) (w : World Repo),
    fst (mergeAikidoBranch Repo run branchName w) = Resolved true ->
    exists w1 pre out r post,
      commands Repo w1 = (commands Repo w ++ pre)%list
      /\ run (merge_command branchName) (repo Repo w1) = (JS.Returned out, r)
      /\ commands Repo (snd (mergeAikidoBranch Repo run branchName w))
         = (commands Repo w ++ pre ++ merge_command branchName :: post)%list
      /\ (post = [] \/ post = [delete_command branchName]).
Proof.
  intros branchName w Hres.
  destruct (merges_after_mergeAikidoBranch branchName w) as [(w1 & pre & He & Hp)|Hn];
    [|contradiction].
  rewrite He in Hres |- *. clear He.
  unfold merge_step, execSync, ask, console_line, ret in *.
  cbv beta iota delta [bind] in *.
  destruct (run (merge_command branchName) (repo Repo w1)) as [[out|message status stdout] r]
    eqn:Hrun; cbn in Hres; [|discriminate].
  clear Hres. exists w1, pre, out, r.
  cbn [answers asked repo commands console].
  destruct (String.eqb _ "y").
  - exists [delete_command branchName].
    cbn [answers asked repo commands console].
    destruct (run (delete_command branchName) r) as [[o|m s e] r2];
      cbn [answers asked repo commands console snd]; rewrite Hp, <- !app_assoc; auto.
  - exists []. cbn [answers asked repo commands console snd].
    rewrite Hp, <- !app_assoc. auto.
Qed.

Lemma issues_after_switch branchName :
  issues (commands_after_switch branchName) (merge_after_switch Repo run branchName).
Proof.
  assert (Hexec : forall c, In c (commands_after_switch branchName) ->
            issues (commands_after_switch branchName) (execSync Repo run c)).
  { intros c Hc. apply issues_execSync. exact Hc. }
  unfold merge_after_switch, getBranchDetails, merge_step.
  repeat first
    [ apply issues_ret
    | apply issues_console_line
    | apply issues_ask
    | apply Hexec; unfold commands_after_switch, details_commands; cbn; tauto
    | apply issues_bind; [|intros ?]
    | match goal with
      | |- issues _ (match ?x with _ => _ end) => destruct x
      | |- issues _ (if ?c then _ else _) => destruct c
      end ].
Qed.

Lemma switch_not_after branchName :
  ~ In "git checkout main" (commands_after_switch branchName)
  /\ ~ In "git pull origin main" (commands_after_switch branchName).
Proof.
  unfold commands_after_switch, details_commands, merge_command, delete_command. simpl.
  split; intros [H|[H|[H|[H|[H|[]]]]]]; discriminate H.
Qed.

(** On a branch other than [main] and [develop], an operator who does not
    answer [y] to the offer to switch is not switched, and the merge goes
    on from there: neither [git checkout main] nor [git pull origin main]
    is run, and the branch will be merged into the current branch. *)
Theorem declined_switch_still_merges :
  forall (branchName : string) (w : World Repo) (out : string) (r1 : Repo),
    run "git branch --show-current" (repo Repo w) = (JS.Returned out, r1) ->
    JS.trim out <> "main" -> JS.trim out <> "develop" ->
    branch_answer_at w (asked Repo w) <> "y" ->
    mergeAikidoBranch Repo run branchName w
    = merge_after_switch Repo run branchName
        (mkWorld Repo r1 (answers Repo w) (S (asked Repo w))
                 (commands Repo w ++ ["git branch --show-current"]) (console Repo w))
    /\ exists cmds,
         commands Repo (snd (mergeAikidoBranch Repo run branchName w))
         = (commands Repo w ++ "git branch --show-current" :: cmds)%list
         /\ Forall (fun c => In c (commands_after_switch branchName)) cmds
         /\ ~ In "git checkout main" cmds
         /\ ~ In "git pull origin main" cmds.
Proof.
  intros branchName w out r1 Hrun Hm Hd Hans.
  assert (He : mergeAikidoBranch Repo run branchName w
               = merge_after_switch Repo run branchName
                   (mkWorld Repo r1 (answers Repo w) (S (asked Repo w))
                      (commands Repo w ++ ["git branch --show-current"]) (console Repo w))).
  { unfold mergeAikidoBranch, execSync, ask. cbv beta iota delta [bind]. rewrite Hrun.
    destruct (String.eqb_spec (JS.trim out) "main"); [contradiction|].
    destruct (String.eqb_spec (JS.trim out) "develop"); [contradiction|].
    cbn [negb andb answers asked]. unfold branch_answer_at in Hans.
    destruct (String.eqb_spec (JS.toLowerCase (JS.trim (answers Repo w (asked Repo w)))) "y");
      [contradiction|].
    reflexivity. }
  split; [exact He|]. rewrite He.
  match goal with
  | |- context [merge_after_switch Repo run branchName ?w1] =>
      destruct (issues_after_switch branchName w1) as (cmds & Hc & Hall)
  end.
  exists cmds. split; [rewrite Hc; cbn [commands]; rewrite <- app_assoc; reflexivity|].
  split; [exact Hall|].
  destruct (switch_not_after branchName) as [H1 H2].
  rewrite Forall_forall in Hall.
  split; intros Hin; apply list_elem_of_In in Hin; [apply H1 | apply H2]; exact (Hall _ Hin).
Qed.

(** When the operator accepts the switch and [git checkout main] or
    [git pull origin main] fails, [mergeAikidoBranch] resolves to [false]
    without a preview and without a merge. *)
Theorem failed_switch_cancels_merge :
  forall (branchName : string) (w : World Repo) (out : string) (r1 : Repo),
    run "git branch --show-current" (repo Repo w) = (JS.Returned out, r1) ->
    JS.trim out <> "main" -> JS.trim out <> "develop" ->
    branch_answer_at w (asked Repo w) = "y" ->
    let result := mergeAikidoBranch Repo run branchName w in
    match run "git checkout main" r1 with
    | (JS.Threw message _ _, r2) =>
        result
        = (Resolved false,
           mkWorld Repo r2 (answers Repo w) (S (asked Repo w))
                   (commands Repo w ++ ["git branch --show-current"; "git checkout main"])
                   (console Repo w ++ [ErrorSwitchingToMain message]))
    | (JS.Returned _, r2) =>
        match run "git pull origin main" r2 with
        | (JS.Threw message _ _, r3) =>
            result
            = (Resolved false,
               mkWorld Repo r3 (answers Repo w) (S (asked Repo w))
                       (commands Repo w ++ ["git branch --show-current"; "git checkout main";
                                            "git pull origin main"])
                       (console Repo w ++ [ErrorSwitchingToMain message]))
        | (JS.Returned _, _) => True
        end
    end.
Proof.
  intros branchName w out r1 Hrun Hm Hd Hans result. subst result.
  unfold mergeAikidoBranch, execSync, ask, console_line, ret.
  cbv beta iota delta [bind]. rewrite Hrun.
  destruct (String.eqb_spec (JS.trim out) "main"); [contradiction|].
  destruct (String.eqb_spec (JS.trim out) "develop"); [contradiction|].
  cbn [negb andb answers asked repo commands console]. unfold branch_answer_at in Hans.
  rewrite Hans. cbn [String.eqb Ascii.eqb Bool.eqb answers asked repo commands console].
  destruct (run "git checkout main" r1) as [[o2|m2 s2 e2] r2]; cbn [repo commands console].
  - destruct (run "git pull origin main" r2) as [[o3|m3 s3 e3] r3]; [exact I|].
    cbn. rewrite <- !app_assoc. reflexivity.
  - cbn. rewrite <- !app_assoc. reflexivity.
Qed.

(** A merge that succeeded stays a success when the branch cannot be
    deleted afterwards: the failure is printed as a note. *)
Theorem failed_delete_does_not_fail_merge :
  forall (branchName : string) (w : World Repo) (out message stdout : string)
         (status : option Z) (r1 r2 : Repo),
    run (merge_command branchName) (repo Repo w) = (JS.Returned out, r1) ->
    branch_answer_at w (asked Repo w) = "y" ->
    run (delete_command branchName) r1 = (JS.Threw message status stdout, r2) ->
    merge_step Repo run branchName w
    = (Resolved true,
       mkWorld Repo r2 (answers Repo w) (S (asked Repo w))
               (commands Repo w ++ [merge_command branchName; delete_command branchName])
               (console Repo w ++ [NoteCouldNotDelete message])).
Proof.
  intros branchName w out message stdout status r1 r2 Hm Hans Hd.
  unfold merge_step, execSync, ask, console_line, ret.
  cbv beta iota delta [bind]. rewrite Hm.
  cbn [answers asked repo commands console]. unfold branch_answer_at in Hans.
  rewrite Hans. cbn [String.eqb Ascii.eqb Bool.eqb answers asked repo commands console].
  rewrite Hd.
  cbn. rewrite <- !app_assoc. reflexivity.
Qed.

End MergingMore.



Lemma merge_success_means_merged_witness :
  exists w1 pre out r post,
    BranchManager.commands SampleRepo w1
    = (BranchManager.commands SampleRepo sample_repo_world ++ pre)%list
    /\ sample_git "" (BranchManager.merge_command "aikido/fix-lodash")
         (BranchManager.repo SampleRepo w1) = (JS.Returned out, r)
    /\ BranchManager.commands SampleRepo
         (snd (BranchManager.mergeAikidoBranch SampleRepo (sample_git "") "aikido/fix-lodash"
                 sample_repo_world))
       = (BranchManager.commands SampleRepo sample_repo_world
          ++ pre ++ BranchManager.merge_command "aikido/fix-lodash" :: post)%list
    /\ (post = [] \/ post = [BranchManager.delete_command "aikido/fix-lodash"]).
Proof.
  apply (merge_success_means_merged SampleRepo (sample_git "") "aikido/fix-lodash"
           sample_repo_world).
  vm_compute. reflexivity.
Defined.

Lemma declined_switch_still_merges_witness :
  let git := scripted_git [on_feature_branch] in
  let result := BranchManager.mergeAikidoBranch SampleRepo git "aikido/fix-lodash"
                  declining_world in
  result
  = BranchManager.merge_after_switch SampleRepo git "aikido/fix-lodash"
      (BranchManager.mkWorld SampleRepo (mkSampleRepo "feature" Clean) (fun _ => "n") 1
         ([] ++ ["git branch --show-current"]) [])
  /\ exists cmds,
       BranchManager.commands SampleRepo (snd result)
       = ([] ++ "git branch --show-current" :: cmds)%list
       /\ Forall (fun c => In c (commands_after_switch "aikido/fix-lodash")) cmds
       /\ ~ In "git checkout main" cmds
       /\ ~ In "git pull origin main" cmds.
Proof.
  apply (declined_switch_still_merges SampleRepo (scripted_git [on_feature_branch])
           "aikido/fix-lodash" declining_world ("feature" ++ BranchManager.LF)
           (mkSampleRepo "feature" Clean)).
  - reflexivity.
  - vm_compute. discriminate.
  - vm_compute. discriminate.
  - vm_compute. discriminate.
Defined.

Lemma failed_switch_cancels_merge_witness :
  BranchManager.mergeAikidoBranch SampleRepo
    (scripted_git [on_feature_branch;
                   ("git checkout main",
                    JS.Threw "Command failed: git checkout main" (Some 1%Z) "")])
    "aikido/fix-lodash" agreeing_world
  = (BranchManager.Resolved false,
     BranchManager.mkWorld SampleRepo (mkSampleRepo "feature" Clean) (fun _ => "y") 1
       ["git branch --show-current"; "git checkout main"]
       [BranchManager.ErrorSwitchingToMain "Command failed: git checkout main"]).
Proof.
  exact (failed_switch_cancels_merge SampleRepo
           (scripted_git [on_feature_branch;
                          ("git checkout main",
                           JS.Threw "Command failed: git checkout main" (Some 1%Z) "")])
           "aikido/fix-lodash" agreeing_world ("feature" ++ BranchManager.LF)
           (mkSampleRepo "feature" Clean) eq_refl
           ltac:(vm_compute; discriminate) ltac:(vm_compute; discriminate) eq_refl).
Defined.

Lemma failed_delete_does_not_fail_merge_witness :
  BranchManager.merge_step SampleRepo
    (scripted_git [(BranchManager.delete_command "origin/aikido/fix-lodash",
                    JS.Threw "error: branch 'aikido/fix-lodash' not found" (Some 1%Z) "")])
    "origin/aikido/fix-lodash" sample_repo_world
  = (BranchManager.Resolved true,
     BranchManager.mkWorld SampleRepo (mkSampleRepo "main" Clean) (fun _ => "y") 1
       [BranchManager.merge_command "origin/aikido/fix-lodash";
        BranchManager.delete_command "origin/aikido/fix-lodash"]
       [BranchManager.NoteCouldNotDelete "error: branch 'aikido/fix-lodash' not found"]).
Proof.
  apply (failed_delete_does_not_fail_merge SampleRepo
           (scripted_git [(BranchManager.delete_command "origin/aikido/fix-lodash",
                           JS.Threw "error: branch 'aikido/fix-lodash' not found"
                             (Some 1%Z) "")])
           "origin/aikido/fix-lodash" sample_repo_world "" 
           "error: branch 'aikido/fix-lodash' not found" "" (Some 1%Z)
           (mkSampleRepo "main" Clean) (mkSampleRepo "main" Clean));
    reflexivity.
Defined.

(** ** The menu of the branch manager *)

Section Selecting.

Import BranchManager BranchMenu.

Lemma digit_char_code d : d < 10 -> nat_of_ascii (digit_char d) = (48 + d)%nat.
Proof. intros H. unfold digit_char. apply nat_ascii_embedding. lia. Qed.

Lemma radix_digit_digit_char d :
  d < 10 -> Global.radix_digit 10 (digit_char d) = Some (Z.of_nat d).
Proof.
  intros H. unfold Global.radix_digit, Global.digit_value.
  rewrite (digit_char_code d H).
  replace ((48 <=? 48 + d)%nat && (48 + d <=? 57)%nat)%bool with true
    by (symmetry; apply andb_true_intro; split; apply Nat.leb_le; lia).
  replace (48 + d - 48)%nat with d by lia.
  destruct (Z.ltb_spec (Z.of_nat d) 10); [reflexivity | lia].
Qed.

Lemma radix_digit_other c :
  is_decimal_digit c = false -> Global.radix_digit 10 c = None.
Proof.
  unfold is_decimal_digit, Global.radix_digit, Global.digit_value. intros H. rewrite H.
  destruct ((97 <=? nat_of_ascii c)%nat && (nat_of_ascii c <=? 122)%nat)%bool eqn:Hl.
  - apply andb_prop in Hl as [H1 H2]. apply Nat.leb_le in H1.
    destruct (Z.ltb_spec (Z.of_nat (nat_of_ascii c - 87)) 10); [lia | reflexivity].
  - destruct ((65 <=? nat_of_ascii c)%nat && (nat_of_ascii c <=? 90)%nat)%bool eqn:Hu;
      [|reflexivity].
    apply andb_prop in Hu as [H1 H2]. apply Nat.leb_le in H1.
    destruct (Z.ltb_spec (Z.of_nat (nat_of_ascii c - 55)) 10); [lia | reflexivity].
Qed.

Lemma digits_value_numeral ds rest acc :
  Forall (fun d => d < 10) ds -> starts_with_digit rest = false ->
  Global.digits_value 10 acc (numeral ds ++ rest)
  = fold_left (fun acc d => (acc * 10 + Z.of_nat d)%Z) ds acc.
Proof.
  intros Hds Hrest. revert acc.
  induction Hds as [|d ds Hd Hds IH]; intros acc.
  - change (numeral [] ++ rest) with rest. cbn [fold_left].
    destruct rest as [|c rest]; [reflexivity|].
    cbn [Global.digits_value]. cbn [starts_with_digit] in Hrest.
    rewrite (radix_digit_other c Hrest). reflexivity.
  - change (numeral (d :: ds) ++ rest) with (String (digit_char d) (numeral ds ++ rest)).
    cbn [fold_left Global.digits_value].
    rewrite (radix_digit_digit_char d Hd). apply IH.
Qed.

Lemma digit_char_not c d :
  d < 10 -> (nat_of_ascii c < 48 \/ 57 < nat_of_ascii c) -> Ascii.eqb (digit_char d) c = false.
Proof.
  intros H Hc. destruct (Ascii.eqb_spec (digit_char d) c) as [He|]; [|reflexivity].
  rewrite <- He, (digit_char_code d H) in Hc. lia.
Qed.

(** [trim_start] stops at a byte that is no white space and does not
    start the encoding of one. *)
Lemma trim_start_stops c rest :
  (32 < nat_of_ascii c < 194)%nat -> JS.trim_start (String c rest) = String c rest.
Proof.
  intros Hc. cbn [JS.trim_start].
  assert (H1 : JS.is_space c = false).
  { unfold JS.is_space.
    destruct (Nat.eqb_spec (nat_of_ascii c) 32); [lia|].
    destruct (Nat.leb_spec (nat_of_ascii c) 13); [lia|].
    rewrite andb_false_r. reflexivity. }
  assert (H2 : forall c2, JS.is_space2 c c2 = false).
  { intros c2. unfold JS.is_space2.
    destruct (Nat.eqb_spec (nat_of_ascii c) 194); [lia | reflexivity]. }
  assert (H3 : forall c2 c3, JS.is_space3 c c2 c3 = false).
  { intros c2 c3. unfold JS.is_space3.
    destruct (Nat.eqb_spec (nat_of_ascii c) 225); [lia|].
    destruct (Nat.eqb_spec (nat_of_ascii c) 226); [lia|].
    destruct (Nat.eqb_spec (nat_of_ascii c) 227); [lia|].
    destruct (Nat.eqb_spec (nat_of_ascii c) 239); [lia|]. reflexivity. }
  rewrite H1. destruct rest as [|c2 [|c3 rest]]; rewrite ?H2, ?H3; reflexivity.
Qed.

(** [parseInt] on a numeral of a positive number, followed by something
    that is no digit. *)
Lemma parseInt_numeral ds rest :
  Forall (fun d => d < 10) ds -> starts_with_digit rest = false ->
  (1 <= number_of ds)%Z ->
  Global.parseInt (numeral ds ++ rest) = Some (number_of ds).
Proof.
  intros Hds Hrest Hpos.
  destruct ds as [|d ds]; [cbn in Hpos; lia|].
  pose proof (Forall_inv Hds) as Hd. cbv beta in Hd.
  pose proof (Forall_inv_tail Hds) as Hds'.
  unfold Global.parseInt.
  change (numeral (d :: ds) ++ rest) with (String (digit_char d) (numeral ds ++ rest)).
  rewrite trim_start_stops by (rewrite (digit_char_code d Hd); lia).
  unfold Global.strip_sign.
  rewrite (digit_char_not "-" d Hd), (digit_char_not "+" d Hd)
    by (left; apply Nat.ltb_lt; reflexivity).
  assert (Hp : forall x, x = "x"%char \/ x = "X"%char ->
            String.prefix (String "0" (String x EmptyString))
              (String (digit_char d) (numeral ds ++ rest)) = false).
  { intros x Hx. cbn [String.prefix].
    destruct (ascii_dec "0" (digit_char d)) as [H0|]; [|reflexivity].
    assert (d = 0).
    { apply (f_equal nat_of_ascii) in H0. rewrite (digit_char_code d Hd) in H0.
      change (nat_of_ascii "0") with 48 in H0. lia. }
    subst d.
    destruct ds as [|d' ds]; [cbn in Hpos; lia|].
    change (numeral (d' :: ds) ++ rest)
      with (String (digit_char d') (numeral ds ++ rest)).
    cbn [String.prefix].
    destruct (ascii_dec x (digit_char d')) as [He|]; [|reflexivity].
    pose proof (Forall_inv Hds') as Hd'. cbv beta in Hd'.
    pose proof (digit_char_code d' Hd') as Hc. rewrite <- He in Hc.
    destruct Hx as [-> | ->];
      [change (nat_of_ascii "x") with 120%nat in Hc
      |change (nat_of_ascii "X") with 88%nat in Hc]; lia. }
  rewrite (Hp "x"%char), (Hp "X"%char) by tauto.
  cbn [orb]. unfold Global.leading_number.
  rewrite (radix_digit_digit_char d Hd).
  change (String (digit_char d) (numeral ds ++ rest)) with (numeral (d :: ds) ++ rest).
  rewrite (digits_value_numeral (d :: ds) rest 0%Z Hds Hrest). reflexivity.
Qed.

(** A choice that starts with the number of a listed branch selects the
    branch of that number, whatever follows the digits, also when the
    choice as a whole is the name of a listed branch. *)
Theorem choice_starting_with_number_selects_by_number :
  forall (branches : list string) (ds : list nat) (rest : string),
    Forall (fun d => d < 10) ds -> starts_with_digit rest = false ->
    (1 <= number_of ds <= Z.of_nat (length branches))%Z ->
    select_branch branches (numeral ds ++ rest) = branches !! Z.to_nat (number_of ds - 1)
    /\ is_Some (branches !! Z.to_nat (number_of ds - 1)).
Proof.
  intros branches ds rest Hds Hrest Hn.
  unfold select_branch, index_of_choice.
  rewrite (parseInt_numeral ds rest Hds Hrest) by lia.
  cbn [in_range].
  destruct (Z.leb_spec 0 (number_of ds - 1)); [|lia].
  destruct (Z.ltb_spec (number_of ds - 1) (Z.of_nat (length branches))); [|lia].
  split; [reflexivity|]. apply lookup_lt_is_Some. lia.
Qed.

(** An answer is read without the white space around it, the no-break
    space included, and in lower case. *)
Lemma answer_with_no_break_space :
  branch_answer_at
    (mkWorld SampleRepo (mkSampleRepo "main" Clean)
       (fun _ => " M" ++ no_break_space) 0 [] []) 0
  = "m".
Proof. reflexivity. Qed.

Lemma array_includes_elem (arr : list string) (x : string) :
  JS.array_includes arr x = true -> In x arr.
Proof.
  unfold JS.array_includes. intros H. apply existsb_exists in H as (y & Hy & He).
  apply String.eqb_eq in He. subst. exact Hy.
Qed.

Lemma select_branch_cases branches choice b :
  select_branch branches choice = Some b ->
  (exists i, index_of_choice choice = Some i
             /\ in_range (Some i) (length branches) = true
             /\ branches !! Z.to_nat i = Some b)
  \/ (in_range (index_of_choice choice) (length branches) = false
      /\ In choice branches /\ b = choice).
Proof.
  unfold select_branch. intros H.
  destruct (in_range (index_of_choice choice) (length branches)) eqn:Hr.
  - left. destruct (index_of_choice choice) as [i|]; [|discriminate].
    exists i. auto.
  - right. destruct (JS.array_includes branches choice) eqn:Hi; [|discriminate].
    injection H as <-. split; [reflexivity|]. split; [|reflexivity].
    apply array_includes_elem. exact Hi.
Qed.

Lemma select_branch_listed branches choice b :
  select_branch branches choice = Some b -> In b branches.
Proof.
  intros H. destruct (select_branch_cases _ _ _ H) as [(i & _ & _ & Hl)|(_ & Hin & ->)].
  - apply list_elem_of_In. apply list_elem_of_lookup. eauto.
  - exact Hin.
Qed.

Lemma to_lower_ascii_idempotent c :
  JS.to_lower_ascii (JS.to_lower_ascii c) = JS.to_lower_ascii c.
Proof. destruct c as [[] [] [] [] [] [] [] []]; reflexivity. Qed.

Lemma toLowerCase_idempotent s : JS.toLowerCase (JS.toLowerCase s) = JS.toLowerCase s.
Proof.
  induction s as [|c s IH]; [reflexivity|].
  cbn [JS.toLowerCase]. rewrite to_lower_ascii_idempotent, IH. reflexivity.
Qed.

(** The answer is put in lower case before it is compared with the names:
    a branch whose name has a capital letter is selected by its number or
    not at all. *)
Theorem branch_with_capital_letter_is_selected_by_number :
  forall (branches : list string) (answer b : string),
    select_branch branches (JS.toLowerCase (JS.trim answer)) = Some b ->
    JS.toLowerCase b <> b ->
    exists i,
      index_of_choice (JS.toLowerCase (JS.trim answer)) = Some i
      /\ (0 <= i < Z.of_nat (length branches))%Z
      /\ branches !! Z.to_nat i = Some b.
Proof.
  intros branches answer b Hs Hcap.
  destruct (select_branch_cases _ _ _ Hs) as [(i & Hi & Hr & Hl)|(_ & _ & ->)].
  - exists i. split; [exact Hi|]. split; [|exact Hl].
    cbn [in_range] in Hr. apply andb_prop in Hr as [H1 H2].
    apply Z.leb_le in H1. apply Z.ltb_lt in H2. lia.
  - exfalso. apply Hcap. apply toLowerCase_idempotent.
Qed.

End Selecting.

Lemma choice_starting_with_number_selects_by_number_witness :
  BranchMenu.select_branch ["aikido/fix-lodash"; "2x-security-hotfix"; "1-security-hotfix"]
    "1-security-hotfix"
  = Some "aikido/fix-lodash"
  /\ is_Some (Some "aikido/fix-lodash").
Proof.
  apply (choice_starting_with_number_selects_by_number
           ["aikido/fix-lodash"; "2x-security-hotfix"; "1-security-hotfix"] [1]
           "-security-hotfix").
  - repeat constructor.
  - reflexivity.
  - vm_compute. split; discriminate.
Defined.

Lemma branch_with_capital_letter_is_selected_by_number_witness :
  exists i,
    BranchMenu.index_of_choice (JS.toLowerCase (JS.trim " 2 ")) = Some i
    /\ (0 <= i < Z.of_nat (length ["aikido/fix-lodash"; "dependabot/npm_and_yarn/Express-5"]))%Z
    /\ ["aikido/fix-lodash"; "dependabot/npm_and_yarn/Express-5"] !! Z.to_nat i
       = Some "dependabot/npm_and_yarn/Express-5".
Proof.
  apply (branch_with_capital_letter_is_selected_by_number
           ["aikido/fix-lodash"; "dependabot/npm_and_yarn/Express-5"] " 2 "
           "dependabot/npm_and_yarn/Express-5").
  - reflexivity.
  - vm_compute. discriminate.
Defined.

Section MenuCommands.

Import BranchManager BranchMenu.

Variable Repo : Type.
Variable run : string -> Repo -> JS.ExecOutcome * Repo.

Lemma issues_weaken {A : Type} (allowed allowed' : list string) (m : M Repo A) :
  (forall c, In c allowed -> In c allowed') -> issues allowed m -> issues allowed' m.
Proof.
  intros Hsub Hm w. destruct (Hm w) as (cmds & Hc & Hall).
  exists cmds. split; [exact Hc|].
  eapply Forall_impl; [exact Hall|]. exact Hsub.
Qed.

Lemma issues_details branchName :
  issues (details_commands branchName) (getBranchDetails Repo run branchName).
Proof.
  intros w. destruct (getBranchDetails_spec Repo run branchName w) as (_ & _ & H). exact H.
Qed.

Lemma listSecurityBranches_spec (w : World Repo) :
  let w' := snd (listSecurityBranches Repo run w) in
  asked Repo w' = asked Repo w
  /\ answers Repo w' = answers Repo w
  /\ exists cmds,
       commands Repo w' = (commands Repo w ++ cmds)%list
       /\ Forall (fun c => In c listing_commands) cmds.
Proof.
  unfold listSecurityBranches, execSync, print_group, console_line, ret, listing_commands.
  cbv beta iota delta [bind].
  destruct (run "git branch -r" (repo Repo w)) as [[out1|m1 s1 e1] r1]; cbn [repo].
  - destruct (run "git branch" r1) as [[out2|m2 s2 e2] r2].
    + repeat match goal with
             | |- context [match ?l with [] => _ | _ :: _ => _ end] => destruct l
             end;
        cbn; (split; [reflexivity|]); (split; [reflexivity|]);
        eexists; (split; [rewrite <- !app_assoc; reflexivity|]);
        repeat (apply Forall_cons_2; [cbn; tauto|]); apply Forall_nil_2.
    + cbn. (split; [reflexivity|]); (split; [reflexivity|]).
      eexists; (split; [rewrite <- !app_assoc; reflexivity|]).
      repeat (apply Forall_cons_2; [cbn; tauto|]); apply Forall_nil_2.
  - cbn. (split; [reflexivity|]); (split; [reflexivity|]).
    eexists; (split; [reflexivity|]). repeat (apply Forall_cons_2; [cbn; tauto|]); apply Forall_nil_2.
Qed.

Lemma issues_details_of_each allowed branches :
  (forall b, In b branches -> forall c, In c (details_commands b) -> In c allowed) ->
  issues allowed (details_of_each Repo run branches).
Proof.
  induction branches as [|b branches IH]; intros Hsub; cbn [details_of_each].
  - apply issues_ret.
  - apply issues_bind.
    + apply (issues_weaken (details_commands b)); [|apply issues_details].
      apply Hsub. left. reflexivity.
    + intros _. apply IH. intros b' Hb'. apply Hsub. right. exact Hb'.
Qed.

(** Every command of the [switch] belongs to the merge of a listed
    branch. *)
Lemma issues_switch_action branches action :
  issues (flat_map merge_commands branches) (switch_action Repo run branches action).
Proof.
  assert (Hsub : forall b, In b branches ->
            forall c, In c (merge_commands b) -> In c (flat_map merge_commands branches)).
  { intros b Hb c Hc. apply in_flat_map. exists b. split; assumption. }
  unfold switch_action.
  destruct (String.eqb action "v"); [|destruct (String.eqb action "m");
                                       [|destruct (String.eqb action "a")]].
  - apply issues_bind; [apply issues_ask | intros choice].
    destruct (select_branch branches choice) as [b|] eqn:Hs; [|apply issues_ret].
    apply issues_bind; [|intros _; apply issues_ret].
    apply (issues_weaken (merge_commands b)); [|apply issues_getBranchDetails].
    apply Hsub. exact (select_branch_listed _ _ _ Hs).
  - apply issues_bind; [apply issues_ask | intros choice].
    destruct (select_branch branches choice) as [b|] eqn:Hs; [|apply issues_ret].
    apply issues_bind.
    + apply (issues_weaken (merge_commands b)); [|apply issues_mergeAikidoBranch].
      apply Hsub. exact (select_branch_listed _ _ _ Hs).
    + intros [v|message]; apply issues_ret.
  - apply issues_bind; [|intros _; apply issues_ret].
    apply issues_details_of_each. intros b Hb c Hc. apply (Hsub b Hb).
    apply details_commands_allowed. exact Hc.
  - apply issues_ret.
Qed.

(** Unless the action is [m], every command of the [switch] shows the
    details of a listed branch, and no error escapes. *)
Lemma issues_switch_action_view branches action :
  action <> "m" ->
  issues (flat_map details_commands branches) (switch_action Repo run branches action)
  /\ forall w, fst (switch_action Repo run branches action w) = None.
Proof.
  intros Hm.
  assert (Hsub : forall b, In b branches ->
            forall c, In c (details_commands b) -> In c (flat_map details_commands branches)).
  { intros b Hb c Hc. apply in_flat_map. exists b. split; assumption. }
  unfold switch_action.
  destruct (String.eqb action "v"); [|destruct (String.eqb_spec action "m");
                                       [contradiction|destruct (String.eqb action "a")]].
  - split.
    + apply issues_bind; [apply issues_ask | intros choice].
      destruct (select_branch branches choice) as [b|] eqn:Hs; [|apply issues_ret].
      apply issues_bind; [|intros _; apply issues_ret].
      apply (issues_weaken (details_commands b)); [|apply issues_details].
      apply Hsub. exact (select_branch_listed _ _ _ Hs).
    + intros w. unfold bind, ask, ret.
      destruct (select_branch branches _); [|reflexivity].
      destruct (getBranchDetails Repo run _ _). reflexivity.
  - split.
    + apply issues_bind; [|intros _; apply issues_ret].
      apply issues_details_of_each. exact Hsub.
    + intros w. unfold bind, ret.
      destruct (details_of_each Repo run branches w). reflexivity.
  - split; [apply issues_ret | reflexivity].
Qed.

(** Whatever the operator types, every command [manageSecurityBranches]
    runs is one of the two listings or a command of the merge of a branch
    that the listing returned. *)
Theorem manageSecurityBranches_acts_on_listed_branches :
  forall (w : World Repo),
    let branches := fst (listSecurityBranches Repo run w) in
    exists cmds,
      commands Repo (snd (manageSecurityBranches Repo run w))
      = (commands Repo w ++ cmds)%list
      /\ Forall (fun c => In c listing_commands
                          \/ exists b, In b branches /\ In c (merge_commands b)) cmds.
Proof.
  intros w branches. subst branches.
  unfold manageSecurityBranches. cbv beta iota delta [bind].
  destruct (listSecurityBranches_spec w) as (_ & _ & c1 & Hc1 & Hall1).
  destruct (listSecurityBranches Repo run w) as [branches w1]. cbn [fst snd] in *.
  assert (Hl : Forall (fun c => In c listing_commands
                 \/ exists b, In b branches /\ In c (merge_commands b)) c1).
  { eapply Forall_impl; [exact Hall1|]. intros c Hc. left. exact Hc. }
  destruct branches as [|b0 branches].
  - exists c1. split; [exact Hc1 | exact Hl].
  - unfold ask.
    match goal with
    | |- context [switch_action Repo run ?bs ?a ?w2] =>
        destruct (issues_switch_action bs a w2) as (c2 & Hc2 & Hall2)
    end.
    exists (c1 ++ c2)%list. split.
    + rewrite Hc2. cbn [commands]. rewrite Hc1, app_assoc. reflexivity.
    + apply Forall_app. split; [exact Hl|].
      eapply Forall_impl; [exact Hall2|]. intros c Hc. right.
      apply in_flat_map in Hc. exact Hc.
Qed.


End MenuCommands.


(** ** The interactive session: loading and auto-merging *)

Section SessionProperties.

Import InteractiveManager Dashboard.

Variable AikidoVuln : Type.
Variable Host : Type.
Variable run : string -> Host -> JS.ExecOutcome * Host.
Variable reports_directory : Host -> Directory.
Variable read_report : Host -> string -> option (Report AikidoVuln).
Variable Metadata : Type.
Variable JSON_parse : string -> option (DependencyManager.AuditJSON Metadata).

Lemma merge_each_spec (safeBranches : list Branch.t) (w : World AikidoVuln Host) :
  let w' := snd (merge_each run safeBranches w) in
  commands w' = (commands w ++ map auto_merge_command safeBranches)%list
  /\ asked w' = asked w
  /\ answers w' = answers w
  /\ pendingFixes w' = pendingFixes w
  /\ securityBranches w' = securityBranches w.
Proof.
  revert w. induction safeBranches as [|branch rest IH]; intros w.
  - cbn. rewrite app_nil_r. repeat split; reflexivity.
  - cbn [merge_each map]. unfold bind, execSync.
    destruct (run (auto_merge_command branch) (host w)) as [o h].
    match goal with
    | |- context [merge_each run rest ?w1] =>
        destruct (IH w1) as (Hc & Ha & Hn & Hp & Hs)
    end.
    cbn zeta. rewrite Hc, Ha, Hn, Hp, Hs. cbn.
    rewrite <- app_assoc. repeat split; reflexivity.
Qed.

(** [autoMergeSafeBranches] merges every branch of the type [dependabot]
    and every branch with [patch] in its name, in the order of the list,
    whatever becomes of the merges before: it asks nothing until the last
    merge is over, and a merge that fails is followed by the next one. *)
Theorem autoMergeSafeBranches_merges_every_safe_branch :
  forall (w : World AikidoVuln Host),
    let safeBranches := List.filter is_safe (securityBranches w) in
    let w' := snd (autoMergeSafeBranches run w) in
    commands w' = (commands w ++ map auto_merge_command safeBranches)%list
    /\ asked w' = (match safeBranches with [] => asked w | _ => S (asked w) end)
    /\ pendingFixes w' = pendingFixes w
    /\ securityBranches w' = securityBranches w.
Proof.
  intros w safeBranches w'. subst w'. unfold autoMergeSafeBranches.
  fold safeBranches.
  destruct safeBranches as [|branch rest] eqn:Hsafe.
  - cbn. rewrite app_nil_r. repeat split; reflexivity.
  - destruct (merge_each_spec (branch :: rest) w) as (Hc & Ha & Hn & Hp & Hs).
    cbv beta iota delta [bind].
    destruct (merge_each run (branch :: rest) w) as [[] w1].
    cbn [snd] in *. unfold prompt, ret. cbn.
    rewrite Hc, Ha, Hp, Hs. repeat split; reflexivity.
Qed.

Lemma substring_all (s : string) : String.substring 0 (String.length s) s = s.
Proof. induction s as [|c s IH]; [reflexivity|]. cbn. rewrite IH. reflexivity. Qed.

(** [loadSecurityBranches] stores the name of a branch of [origin]
    without the remote, and [autoMergeSafeBranches] puts the remote in
    front again: the command names the branch as [git branch -r] listed
    it. *)
Theorem auto_merge_names_the_listed_remote_branch :
  forall (line name : string),
    JS.trim line = "origin/" ++ name ->
    auto_merge_command (to_branch (JS.replace (JS.trim line) "origin/" ""))
    = "git merge " ++ JS.trim line.
Proof.
  intros line name Ht. rewrite Ht. unfold auto_merge_command, to_branch.
  cbn [Branch.name].
  assert (Hr : JS.replace ("origin/" ++ name) "origin/" "" = name).
  { destruct name as [|c name']; [reflexivity|].
    transitivity (String c (String.substring 0 (String.length name') name'));
      [vm_compute; reflexivity | f_equal; apply substring_all]. }
  rewrite Hr. reflexivity.
Qed.

Lemma loadAikidoResults_eq (h : Host) :
  exists found, forall w : World AikidoVuln Host,
    host w = h ->
    loadAikidoResults reports_directory read_report w
    = (tt, mkWorld (host w) (answers w) (asked w) (commands w)
             (pendingFixes w ++ found) (securityBranches w)).
Proof.
  assert (Hsame : forall w : World AikidoVuln Host,
            (tt, w) = (tt, mkWorld (host w) (answers w) (asked w) (commands w)
                             (pendingFixes w ++ []) (securityBranches w))).
  { intros [h0 an n cs ps bs]. cbn. rewrite app_nil_r. reflexivity. }
  unfold loadAikidoResults.
  destruct (reports_directory h) as [| |entries] eqn:Hd;
    try (exists []; intros w <-; rewrite Hd; apply Hsame).
  destruct (latest_report entries) as [file|] eqn:Hl;
    [|exists []; intros w <-; rewrite Hd, Hl; apply Hsame].
  destruct (read_report h file) as [report|] eqn:Hr;
    [|exists []; intros w <-; rewrite Hd, Hl, Hr; apply Hsame].
  destruct report as [| | |vulnerabilities];
    try (exists []; intros w <-; rewrite Hd, Hl, Hr; apply Hsame).
  exists (pushed_before_null vulnerabilities).
  intros w <-. rewrite Hd, Hl, Hr. reflexivity.
Qed.

Lemma loadSecurityData_eq (h : Host) :
  exists found h',
    (snd (run "git branch -r" h) = h -> snd (run "npm audit --json" h) = h -> h' = h)
    /\ forall w : World AikidoVuln Host,
      host w = h ->
      loadSecurityData run reports_directory read_report JSON_parse w
      = (tt, mkWorld h' (answers w) (asked w)
               (commands w ++ ["git branch -r"; "npm audit --json"])
               (pendingFixes w ++ found)
               (InteractiveManager.loadSecurityBranches (fst (run "git branch -r" h)))).
Proof.
  destruct (run "git branch -r" h) as [o1 h1] eqn:H1.
  destruct (loadAikidoResults_eq h1) as (found1 & Ha).
  destruct (run "npm audit --json" h1) as [o2 h2] eqn:H2.
  exists (found1 ++ map (fun entry => NpmFinding (fst entry) (snd entry))
                        (InteractiveManager.loadNpmAuditResults Metadata JSON_parse o2))%list,
         h2.
  split.
  - cbn [snd]. intros E1 E2. subst h1. rewrite H2 in E2. exact E2.
  - intros w <-.
    unfold loadSecurityData, loadSecurityBranches, loadNpmAuditResults,
      execSync, set_securityBranches, push_all.
    cbv beta iota delta [bind]. rewrite H1.
    cbn [host answers asked commands pendingFixes securityBranches].
    rewrite Ha by reflexivity.
    cbn [host answers asked commands pendingFixes securityBranches]. rewrite H2.
    cbn [host answers asked commands pendingFixes securityBranches fst].
    rewrite <- !app_assoc. reflexivity.
Qed.

(** [loadSecurityData] never resets [pendingFixes]: what it finds on the
    host is appended to the findings of the session, while the list of
    security branches is replaced. *)
Theorem loadSecurityData_appends_findings :
  forall (w : World AikidoVuln Host),
    let w' := snd (loadSecurityData run reports_directory read_report JSON_parse w) in
    pendingFixes w'
    = (pendingFixes w ++ findings_on run reports_directory read_report JSON_parse (host w))%list
    /\ securityBranches w'
       = InteractiveManager.loadSecurityBranches (fst (run "git branch -r" (host w)))
    /\ commands w' = (commands w ++ ["git branch -r"; "npm audit --json"])%list
    /\ asked w' = asked w.
Proof.
  intros w w'. subst w'. unfold findings_on.
  destruct (loadSecurityData_eq (host w)) as (found & h' & _ & He).
  rewrite (He w eq_refl), (He (new_session (host w)) eq_refl).
  cbn. repeat split; reflexivity.
Qed.

(** On a host that the two commands leave as it is, refreshing the data
    records every finding a second time. *)
Theorem refresh_duplicates_findings :
  forall (w : World AikidoVuln Host),
    snd (run "git branch -r" (host w)) = host w ->
    snd (run "npm audit --json" (host w)) = host w ->
    let found := findings_on run reports_directory read_report JSON_parse (host w) in
    let w1 := snd (loadSecurityData run reports_directory read_report JSON_parse w) in
    let w2 := snd (loadSecurityData run reports_directory read_report JSON_parse w1) in
    pendingFixes w1 = (pendingFixes w ++ found)%list
    /\ pendingFixes w2 = (pendingFixes w ++ found ++ found)%list
    /\ securityBranches w2 = securityBranches w1.
Proof.
  intros w E1 E2. cbv zeta. unfold findings_on.
  destruct (loadSecurityData_eq (host w)) as (found & h' & Hh & He).
  specialize (Hh E1 E2). subst h'.
  rewrite (He w eq_refl), (He (new_session (host w)) eq_refl). cbn [snd].
  rewrite He by reflexivity. cbn. rewrite <- app_assoc. repeat split; reflexivity.
Qed.

End SessionProperties.

Lemma auto_merge_names_the_listed_remote_branch_witness :
  Dashboard.auto_merge_command
    (InteractiveManager.to_branch
       (JS.replace (JS.trim "  origin/dependabot/npm_and_yarn/lodash-4.17.21") "origin/" ""))
  = "git merge " ++ JS.trim "  origin/dependabot/npm_and_yarn/lodash-4.17.21".
Proof.
  apply (auto_merge_names_the_listed_remote_branch
           "  origin/dependabot/npm_and_yarn/lodash-4.17.21"
           "dependabot/npm_and_yarn/lodash-4.17.21").
  reflexivity.
Defined.

Lemma refresh_duplicates_findings_witness :
  let w : Dashboard.World string unit := new_session tt in
  let found := findings_on sample_host sample_reports sample_read_report sample_JSON_parse tt in
  let w1 :=
    snd (Dashboard.loadSecurityData sample_host sample_reports sample_read_report
           sample_JSON_parse w) in
  let w2 :=
    snd (Dashboard.loadSecurityData sample_host sample_reports sample_read_report
           sample_JSON_parse w1) in
  Dashboard.pendingFixes w1 = ([] ++ found)%list
  /\ Dashboard.pendingFixes w2 = ([] ++ found ++ found)%list
  /\ Dashboard.securityBranches w2 = Dashboard.securityBranches w1.
Proof.
  apply (refresh_duplicates_findings string unit sample_host sample_reports
           sample_read_report unit sample_JSON_parse (new_session tt));
    reflexivity.
Defined.

(** ** The interactive session: the report that is read *)

Section LatestReport.

Import Dashboard.










End LatestReport.

(** ** The exit code of the branch manager *)

Section ExitCode.

Import BranchManager BranchMenu.

Variable Repo : Type.
Variable run : string -> Repo -> JS.ExecOutcome * Repo.

Lemma merge_step_resolves branchName (w : World Repo) :
  exists v, fst (merge_step Repo run branchName w) = Resolved v.
Proof.
  unfold merge_step, execSync, ask, console_line, ret. cbv beta iota delta [bind].
  destruct (run (merge_command branchName) (repo Repo w)) as [[out|m s e] r].
  - cbn [answers asked repo commands console].
    destruct (String.eqb _ "y"); [|eexists; reflexivity].
    cbn [answers asked repo commands console].
    destruct (run (delete_command branchName) r) as [[o|m s e] r2]; eexists; reflexivity.
  - eexists; reflexivity.
Qed.

Lemma merge_after_switch_resolves branchName (w : World Repo) :
  exists v, fst (merge_after_switch Repo run branchName w) = Resolved v.
Proof.
  unfold merge_after_switch. cbv beta iota delta [bind].
  destruct (getBranchDetails Repo run branchName w) as [[] w1].
  unfold ask. destruct (negb _); [eexists; reflexivity|].
  apply merge_step_resolves.
Qed.

(** [mergeAikidoBranch] is rejected only by the failure of its first
    command, and has run nothing else then. *)
Lemma mergeAikidoBranch_rejected branchName (w : World Repo) message :
  fst (mergeAikidoBranch Repo run branchName w) = Rejected message ->
  commands Repo (snd (mergeAikidoBranch Repo run branchName w))
  = (commands Repo w ++ ["git branch --show-current"])%list
  /\ exists status stdout r,
       run "git branch --show-current" (repo Repo w) = (JS.Threw message status stdout, r).
Proof.
  unfold mergeAikidoBranch, execSync. cbv beta iota delta [bind].
  destruct (run "git branch --show-current" (repo Repo w)) as [[out|m s e] r].
  - intros H. exfalso. revert H.
    assert (Hm : forall w1, fst (merge_after_switch Repo run branchName w1) <> Rejected message).
    { intros w1 H. destruct (merge_after_switch_resolves branchName w1) as [v Hv].
      congruence. }
    destruct (_ && _); [|apply Hm].
    unfold ask, console_line, ret.
    destruct (String.eqb _ "y"); [|apply Hm].
    cbn [answers asked repo commands console].
    destruct (run "git checkout main" r) as [[o2|m2 s2 e2] r2]; [|discriminate].
    cbn [answers asked repo commands console].
    destruct (run "git pull origin main" r2) as [[o3|m3 s3 e3] r3]; [apply Hm | discriminate].
  - cbn. intros H. injection H as <-. split; [reflexivity|]. eauto.
Qed.

Lemma switch_action_merge_outcome branches (w : World Repo) :
  let result := switch_action Repo run branches "m" w in
  fst result = None
  \/ exists message status stdout r,
       fst result = Some message
       /\ commands Repo (snd result)
          = (commands Repo w ++ ["git branch --show-current"])%list
       /\ run "git branch --show-current" (repo Repo w)
          = (JS.Threw message status stdout, r).
Proof.
  unfold switch_action.
  change (String.eqb "m" "v") with false. change (String.eqb "m" "m") with true.
  cbv beta iota delta [bind]. unfold ask.
  destruct (select_branch branches _) as [b|]; [|left; reflexivity].
  match goal with
  | |- context [mergeAikidoBranch Repo run b ?w3] =>
      pose proof (mergeAikidoBranch_rejected b w3) as Hr;
      destruct (mergeAikidoBranch Repo run b w3) as [[v|message] w4]
  end; [left; reflexivity|].
  right. destruct (Hr message eq_refl) as (Hc & status & stdout & r & Hrun).
  exists message, status, stdout, r. split; [reflexivity|]. split; [exact Hc | exact Hrun].
Qed.

Lemma listSecurityBranches_nonempty (w : World Repo) :
  fst (listSecurityBranches Repo run w) <> [] ->
  commands Repo (snd (listSecurityBranches Repo run w))
  = (commands Repo w ++ listing_commands)%list.
Proof.
  unfold listSecurityBranches, execSync, print_group, console_line, ret, listing_commands.
  cbv beta iota delta [bind].
  destruct (run "git branch -r" (repo Repo w)) as [[out1|m1 s1 e1] r1]; cbn [repo].
  - destruct (run "git branch" r1) as [[out2|m2 s2 e2] r2].
    + repeat match goal with
             | |- context [match ?l with [] => _ | _ :: _ => _ end] => destruct l
             end;
        cbn; intros _; rewrite <- !app_assoc; reflexivity.
    + cbn. intros H. exfalso. apply H. reflexivity.
  - cbn. intros H. exfalso. apply H. reflexivity.
Qed.

(** The script exits with a code other than 0 only when the operator chose
    to merge and git could not tell the current branch: the code is 1,
    [git branch --show-current] failed in the repository as the two
    listings left it, the commands before it are the two listings, and
    nothing is run after it. *)
Theorem main_fails_only_when_current_branch_is_unknown :
  forall (w : World Repo),
    fst (main Repo run w) <> 0%Z ->
    fst (main Repo run w) = 1%Z
    /\ branch_answer_at w (asked Repo w) = "m"
    /\ (exists message status stdout r,
          run "git branch --show-current"
              (repo Repo (snd (listSecurityBranches Repo run w)))
          = (JS.Threw message status stdout, r))
    /\ commands Repo (snd (main Repo run w))
       = (commands Repo w
          ++ ["git branch -r"; "git branch"; "git branch --show-current"])%list.
Proof.
  intros w. unfold main, manageSecurityBranches. cbv beta iota delta [bind].
  destruct (listSecurityBranches_spec Repo run w) as (Ha & Hanswers & _).
  pose proof (listSecurityBranches_nonempty w) as Hc1.
  destruct (listSecurityBranches Repo run w) as [branches w1]. cbn [fst snd] in *.
  destruct branches as [|b0 branches]; [intros H; exfalso; apply H; reflexivity|].
  specialize (Hc1 ltac:(discriminate)).
  unfold ask. cbv beta. unfold branch_answer_at. rewrite <- Ha, <- Hanswers.
  set (action := JS.toLowerCase (JS.trim (answers Repo w1 (asked Repo w1)))).
  set (w2 := mkWorld Repo (repo Repo w1) (answers Repo w1) (S (asked Repo w1))
               (commands Repo w1) (console Repo w1)).
  destruct (String.eqb_spec action "m") as [Hm|Hm].
  - rewrite Hm.
    destruct (switch_action_merge_outcome (b0 :: branches) w2)
      as [Hn|(message & status & stdout & r & Hs & Hc & Hrun)];
      destruct (switch_action Repo run (b0 :: branches) "m" w2) as [outcome w3];
      cbn [fst snd] in *; subst outcome.
    + intros H. exfalso. apply H. reflexivity.
    + intros _. split; [reflexivity|]. split; [reflexivity|]. split.
      * exists message, status, stdout, r. exact Hrun.
      * unfold ret. cbn [snd]. rewrite Hc. subst w2. cbn [commands].
        rewrite Hc1. unfold listing_commands. rewrite <- app_assoc. reflexivity.
  - destruct (issues_switch_action_view Repo run (b0 :: branches) action Hm) as [_ Hf].
    specialize (Hf w2).
    destruct (switch_action Repo run (b0 :: branches) action w2) as [outcome w3].
    cbn [fst] in Hf. subst outcome. intros H. exfalso. apply H. reflexivity.
Qed.

End ExitCode.

Lemma main_fails_only_when_current_branch_is_unknown_witness :
  let git :=
    scripted_git
      [("git branch -r", JS.Returned ("  origin/aikido/fix-lodash" ++ BranchManager.LF));
       ("git branch --show-current",
        JS.Threw "fatal: not a git repository" (Some 128%Z) "")] in
  let w := BranchManager.mkWorld SampleRepo (mkSampleRepo "main" Clean)
             (fun n => match n with 0 => "m" | _ => "1" end) 0 [] [] in
  fst (BranchMenu.main SampleRepo git w) = 1%Z
  /\ branch_answer_at w (BranchManager.asked SampleRepo w) = "m"
  /\ (exists message status stdout r,
        git "git branch --show-current"
            (BranchManager.repo SampleRepo
               (snd (BranchManager.listSecurityBranches SampleRepo git w)))
        = (JS.Threw message status stdout, r))
  /\ BranchManager.commands SampleRepo (snd (BranchMenu.main SampleRepo git w))
     = (BranchManager.commands SampleRepo w
        ++ ["git branch -r"; "git branch"; "git branch --show-current"])%list.
Proof.
  apply (main_fails_only_when_current_branch_is_unknown SampleRepo
           (scripted_git
              [("git branch -r", JS.Returned ("  origin/aikido/fix-lodash" ++ BranchManager.LF));
               ("git branch --show-current",
                JS.Threw "fatal: not a git repository" (Some 128%Z) "")])
           (BranchManager.mkWorld SampleRepo (mkSampleRepo "main" Clean)
              (fun n => match n with 0 => "m" | _ => "1" end) 0 [] [])).
  vm_compute. discriminate.
Defined.
